(** * The provisioning control loop of aws-provisioner

    A shallow embedding of [Provisioner] (the constructor, [run], [stop],
    [runAllProvisionersOnce], [spawn] and [provisionType]) and of the
    promise machinery it relies on, followed by the properties of the
    specification that concern them.

    Asynchronous code is embedded in a timed trace semantics.  An
    [Async A] is a function of the instant at which it is started; it
    yields the promise it produces: the instant at which the promise
    settles, how it settles, and the time-stamped collaborator calls that
    the computation behind it makes.  The collaborators (pool store, queue,
    secret store, AWS manager) are functions of their arguments and of the
    instant of the call, to a latency and a result.

    [run] is an asynchronous loop that interleaves with calls of [stop]
    and of [run] itself; it is embedded as the steps it takes between two
    suspensions, and a process reacts to inputs: a call of [run] or of
    [stop], the settling of the sweep that a call of [run] awaits, the end
    of its delay.

    The functions of [monitors.js] are embedded as functions on the
    monitor they are given, which is the list of the [measure] and
    [count] calls it has received. *)

From Stdlib Require Import String Ascii List Bool ZArith NArith Lia.
Import ListNotations.

Set Implicit Arguments.
Open Scope N_scope.

(** ** Data *)

(** Instants and durations, in milliseconds. *)
Definition Time := N.

(** The reason of a rejection, a JavaScript value, by what [run] can read
    of it: an [Error], whose [stack] is a string ([new Error(message)], and
    as well any value whose [stack] is falsy); a [TypeError] raised by the
    engine while it evaluated an expression (its message is the
    engine's); [null] or [undefined], of which no property can be read; a
    value whose [stack] is truthy and has no [replace] method. *)
Inductive Err :=
| Error (message : string)
| TypeError (expression : string)
| Nullish
| OddStack.

Coercion Error : string >-> Err.

(** An opaque JavaScript value returned by a collaborator ([None] is
    [undefined]). *)
Definition Val := option string.

(** Lifecycle states understood by the AWS manager. *)
Inductive LifeState := running | pending | spotReq.

(** A bid as produced by [determineSpotBids]; prices are carried through
    unchanged and kept as integers. *)
Record Bid := mkBid {
  region : string;
  type : string;
  zone : string;
  price : N;
  truePrice : N
}.

Record LaunchSpec := mkLaunchSpec {
  template : string;
  Placement : option string   (* { AvailabilityZone: ... } *)
}.

Record LaunchInfo := mkLaunchInfo {
  launchSpec : LaunchSpec;
  securityToken : string;
  secrets : string;
  scopes : list string
}.

(** The pricing snapshot; only handed on to [determineSpotBids]. *)
Inductive Pricing := PricingSnapshot (prices : list (string * string * N)).

(** A WorkerType entity with the methods the provisioner calls on it. *)
Record WorkerType := mkWorkerType {
  workerType : string;
  createLaunchSpec : string -> string -> LaunchInfo;
  determineCapacityChange : Z -> Z -> Z -> Z;
  determineSpotBids : list string -> Pricing -> Z -> list Bid
}.

(** The argument of [Secret.create]. *)
Record SecretEntity := mkSecret {
  secret_token : string;
  secret_workerType : string;
  secret_secrets : string;
  secret_scopes : list string;
  secret_expiration : Time
}.

(** The argument of [reportProvisioningIteration]. *)
Record IterationReport := mkReport {
  report_provisionerId : string;
  report_workerType : string;
  report_pendingTasks : Z;
  report_runningCapacity : Z;
  report_pendingCapacity : Z;
  report_change : Z
}.

(** ** Traces *)

(** The collaborator calls that leave the process. *)
Inductive Call :=
| LoadAll
| AwsPricing
| Update
| RougeKiller (workerNames : list string)
| ZombieKiller
| EnsureTags
| CreateKeyPair (name : string)
| PendingTasks (provisionerId workerTypeName : string)
| ReportProvisioningIteration (r : IterationReport)
| SecretCreate (s : SecretEntity)
| RequestSpotInstance (launchInfo : LaunchInfo) (bid : Bid)
| KillCapacityOfWorkerType (workerTypeName : string) (capacityToKill : Z)
    (states : list LifeState)
| Delay (ms : N).

(** One call: when it was issued, when it settled, and whether it
    resolved. *)
Record Event := mkEvent {
  ev_call : Call;
  ev_start : Time;
  ev_end : Time;
  ev_ok : bool
}.

Definition Trace := list Event.

(** ** Promises *)

Inductive Settled (A : Type) :=
| Resolved (v : A)
| Rejected (e : Err).
Arguments Rejected {A} e.

Definition is_resolved {A} (s : Settled A) : bool :=
  match s with Resolved _ => true | Rejected _ => false end.

(** A promise: when and how it settles, and the calls made by the
    computation behind it (whether or not anybody waits for them). *)
Record Promise (A : Type) := mkPromise {
  log : Trace;
  settledAt : Time;
  fate : Settled A
}.

(** An asynchronous computation, started at a given instant. *)
Definition Async (A : Type) := Time -> Promise A.

Definition ret {A} (a : A) : Async A :=
  fun t => mkPromise [] t (Resolved a).

Definition throw {A} (e : Err) : Async A :=
  fun t => mkPromise [] t (Rejected e).

(** [await m; k] and [m.then(k)]: the continuation starts when [m] has
    resolved and is skipped when [m] rejects. *)
Definition bind {A B} (m : Async A) (k : A -> Async B) : Async B :=
  fun t =>
    let p := m t in
    match fate p with
    | Resolved a =>
        let q := k a (settledAt p) in
        mkPromise (log p ++ log q) (settledAt q) (fate q)
    | Rejected e => mkPromise (log p) (settledAt p) (Rejected e)
    end.

Declare Scope async_scope.
Delimit Scope async_scope with async.
Notation "x <- m ;; k" := (bind m (fun x => k))
  (at level 61, m at next level, right associativity) : async_scope.
Notation "m ;;; k" := (bind m (fun _ => k))
  (at level 61, right associativity) : async_scope.
Open Scope async_scope.

(** The instant at which the computation runs ([Date.now()]). *)
Definition now : Async Time :=
  fun t => mkPromise [] t (Resolved t).

(** What a collaborator answers to one call: a latency and a result. *)
Definition Reply (A : Type) := (N * Settled A)%type.

(** Calling a collaborator and waiting for its answer. *)
Definition perform {A} (c : Call) (r : Time -> Reply A) : Async A :=
  fun t =>
    let d := fst (r t) in
    let res := snd (r t) in
    mkPromise [mkEvent c t (t + d) (is_resolved res)] (t + d) res.

(** Calling an asynchronous function without waiting: the caller goes on
    at once, holding the promise; the promises obtained in this way are
    waited for through [Promise.all] only. *)
Definition start {A} (m : Async A) : Async (Promise A) :=
  fun t => let p := m t in mkPromise (log p) t (Resolved p).

(** Viewing the result of a promise at another type (JavaScript values
    are untyped; this only retags the value). *)
Definition cast {A B} (f : A -> B) (p : Promise A) : Promise B :=
  mkPromise (log p) (settledAt p)
    (match fate p with
     | Resolved a => Resolved (f a)
     | Rejected e => Rejected e
     end).

(** An element of the array given to [Promise.all]: a thenable, which is
    waited for, or any other value, which is passed through. *)
Inductive Elem (A : Type) :=
| Thenable (p : Promise A)
| Plain (a : A).

(** The earliest rejection among the thenables, the first in the array
    among simultaneous ones. *)
Fixpoint firstRejection {A} (els : list (Elem A)) : option (Time * Err) :=
  match els with
  | [] => None
  | Plain _ :: rest => firstRejection rest
  | Thenable p :: rest =>
      match fate p with
      | Resolved _ => firstRejection rest
      | Rejected e =>
          match firstRejection rest with
          | Some (t', e') =>
              if settledAt p <=? t' then Some (settledAt p, e)
              else Some (t', e')
          | None => Some (settledAt p, e)
          end
      end
  end.

(** The instant at which the last thenable has settled. *)
Fixpoint lastSettled {A} (els : list (Elem A)) : Time :=
  match els with
  | [] => 0
  | Plain _ :: rest => lastSettled rest
  | Thenable p :: rest => N.max (settledAt p) (lastSettled rest)
  end.

(** The values of the elements, in order (of the resolved ones). *)
Fixpoint values {A} (els : list (Elem A)) : list A :=
  match els with
  | [] => []
  | Plain a :: rest => a :: values rest
  | Thenable p :: rest =>
      match fate p with
      | Resolved a => a :: values rest
      | Rejected _ => values rest
      end
  end.

(** [await Promise.all(els)] (and [return Promise.all(els)] in an
    asynchronous function): rejects as soon as one thenable rejects, with
    its reason; resolves with all the values once every thenable has
    resolved. *)
Definition Promise_all {A} (els : list (Elem A)) : Async (list A) :=
  fun t =>
    match firstRejection els with
    | Some (tr, e) => mkPromise [] (N.max t tr) (Rejected e)
    | None => mkPromise [] (N.max t (lastSettled els)) (Resolved (values els))
    end.

(** [arr.map(f)] where [f] starts an asynchronous call: the calls are
    started one after the other at the same instant. *)
Fixpoint startEach {A B} (f : A -> Async B) (arr : list A)
  : Async (list (Promise B)) :=
  match arr with
  | [] => ret []
  | a :: rest =>
      p <- start (f a) ;;
      ps <- startEach f rest ;;
      ret (p :: ps)
  end.

(** ** Collaborators *)

(** Modelled from the spec: [delayer] of [lib/delayer], which is not among
    the sources; "returns a reusable operation that, when invoked, suspends
    the caller for [durationMs] and then resolves, optionally forwarding a
    value unchanged". *)
Definition delayer (durationMs : N) {A} (v : A) : Async A :=
  perform (Delay durationMs) (fun _ => (durationMs, Resolved v)).

(** Modelled from the spec: [taskcluster.fromNow('40 minutes')], the
    "short expiration" of a launch secret. *)
Definition fromNow_40_minutes (t : Time) : Time := t + 40 * 60 * 1000.

(** What the provisioner is configured with (the [cfg] of the constructor):
    every asynchronous collaborator answers a call made at an instant with
    a latency and a result; the synchronous ones are functions. *)
Record Collaborators := mkCollaborators {
  WorkerType_loadAll : Time -> Reply (list WorkerType);
  awsPricing : Time -> Reply Pricing;
  awsManager_update : Time -> Reply unit;
  awsManager_rougeKiller : list string -> Time -> Reply unit;
  awsManager_zombieKiller : Time -> Reply unit;
  awsManager_ensureTags : Time -> Reply unit;
  awsManager_createKeyPair : string -> Time -> Reply unit;
  awsManager_capacityForType : WorkerType -> list LifeState -> Time -> Z;
  awsManager_requestSpotInstance : LaunchInfo -> Bid -> Time -> Reply Val;
  awsManager_killCapacityOfWorkerType :
    WorkerType -> Z -> list LifeState -> Time -> Reply Val;
  awsManager_ec2_regions : list string;
  queue_pendingTasks : string -> string -> Time -> Reply Z;
  Secret_create : SecretEntity -> Time -> Reply unit
}.

(** ** The provisioner: one sweep *)

Section Sweep.

Variable cfg : Collaborators.
Variable provisionerId : string.

(** [Provisioner.prototype.spawn] *)
Definition spawn (wt : WorkerType) (bid : Bid) : Async Val :=
  let launchInfo := createLaunchSpec wt (region bid) (type bid) in
  let launchInfo :=
    mkLaunchInfo
      (mkLaunchSpec (template (launchSpec launchInfo)) (Some (zone bid)))
      (securityToken launchInfo) (secrets launchInfo) (scopes launchInfo) in
  t <- now ;;
  let s :=
    mkSecret (securityToken launchInfo) (workerType wt) (secrets launchInfo)
      (scopes launchInfo) (fromNow_40_minutes t) in
  perform (SecretCreate s) (Secret_create cfg s) ;;;
  perform (RequestSpotInstance launchInfo bid)
    (awsManager_requestSpotInstance cfg launchInfo bid).

(** The callback of [bids.forEach]:
    [q = q.then(() => this.spawn(workerType, bid)).then(d)] with
    [d = delayer(500)]. *)
Definition chainLink (wt : WorkerType) (q : Async Val) (bid : Bid)
  : Async Val :=
  bind (q ;;; spawn wt bid) (fun v => delayer 500 v).

(** The chain built by [bids.forEach] from [q = Promise.resolve()]. *)
Definition spawnChain (wt : WorkerType) (bids : list Bid) : Async Val :=
  fold_left (chainLink wt) bids (ret None).

(** Modelled from the spec: the reporter obtained from
    [series.provisionerIteration.reporter(influx)], which is not among the
    sources; the metrics sink "accepts the per-pool iteration record". *)
Definition reportProvisioningIteration (r : IterationReport) : Async unit :=
  fun t => mkPromise [mkEvent (ReportProvisioningIteration r) t t true] t
             (Resolved tt).

(** [Provisioner.prototype.provisionType] *)
Definition provisionType (wt : WorkerType) (pricing : Pricing) : Async Val :=
  pendingTasks <-
    perform (PendingTasks provisionerId (workerType wt))
      (queue_pendingTasks cfg provisionerId (workerType wt)) ;;
  t <- now ;;
  let runningCapacity := awsManager_capacityForType cfg wt [running] t in
  let pendingCapacity :=
    awsManager_capacityForType cfg wt [pending; spotReq] t in
  let change :=
    determineCapacityChange wt runningCapacity pendingCapacity pendingTasks in
  reportProvisioningIteration
    (mkReport provisionerId (workerType wt) pendingTasks runningCapacity
       pendingCapacity change) ;;;
  if (0 <? change)%Z then
    let bids :=
      determineSpotBids wt (awsManager_ec2_regions cfg) pricing change in
    spawnChain wt bids
  else if (change <? 0)%Z then
    let capacityToKill := (- change)%Z in
    perform
      (KillCapacityOfWorkerType (workerType wt) capacityToKill
         [pending; spotReq])
      (awsManager_killCapacityOfWorkerType cfg wt capacityToKill
         [pending; spotReq])
  else ret None.

(** The values found in the array [res] of the first [Promise.all]. *)
Inductive Fetched :=
| FetchedWorkerTypes (workerTypes : list WorkerType)
| FetchedPricing (pricing : Pricing)
| FetchedUpdate.

(** The values found in the array of the second [Promise.all]: the
    [undefined] of a maintenance call, or the array made by
    [workerNames.map(...)]. *)
Inductive Maintained :=
| MaintainedDone
| MaintainedKeyPairs (promises : list (Promise unit)).

(** [runAllProvisionersOnce], the second [await]: the fleet-wide
    maintenance.  The fourth element of the array given to [Promise.all]
    is the array returned by [workerNames.map], not a thenable. *)
Definition maintenance (workerNames : list string)
  : Async (list Maintained) :=
  k0 <- start (perform (RougeKiller workerNames)
                 (awsManager_rougeKiller cfg workerNames)) ;;
  k1 <- start (perform ZombieKiller (awsManager_zombieKiller cfg)) ;;
  k2 <- start (perform EnsureTags (awsManager_ensureTags cfg)) ;;
  keyPairs <- startEach
                (fun name =>
                   perform (CreateKeyPair name)
                     (awsManager_createKeyPair cfg name))
                workerNames ;;
  Promise_all
    [Thenable (cast (fun _ => MaintainedDone) k0);
     Thenable (cast (fun _ => MaintainedDone) k1);
     Thenable (cast (fun _ => MaintainedDone) k2);
     Plain (MaintainedKeyPairs keyPairs)].

(** [runAllProvisionersOnce], its last statement: the fan-out of
    [provisionType] over the pools. *)
Definition fanOut (workerTypes : list WorkerType) (pricing : Pricing)
  : Async (list Val) :=
  provisioned <- startEach (fun worker => provisionType worker pricing)
                   workerTypes ;;
  Promise_all (map (@Thenable Val) provisioned).

(** [Provisioner.prototype.runAllProvisionersOnce] *)
Definition runAllProvisionersOnce : Async (list Val) :=
  p0 <- start (perform LoadAll (WorkerType_loadAll cfg)) ;;
  p1 <- start (perform AwsPricing (awsPricing cfg)) ;;
  p2 <- start (perform Update (awsManager_update cfg)) ;;
  res <- Promise_all
           [Thenable (cast FetchedWorkerTypes p0);
            Thenable (cast FetchedPricing p1);
            Thenable (cast (fun _ => FetchedUpdate) p2)] ;;
  match res with
  | [FetchedWorkerTypes workerTypes; FetchedPricing pricing; _] =>
      let workerNames := map workerType workerTypes in
      maintenance workerNames ;;;
      fanOut workerTypes pricing
  | _ => throw "TypeError: workerTypes.map is not a function"%string
  end.

End Sweep.

(** ** The provisioner: the control loop *)

Definition MAX_PROVISION_ITERATION : N := 1000 * 60 * 10.
Definition MAX_KILL_TIME : N := 1000 * 30.
Definition MAX_FAILURES : Z := 15.

(** What a step of the control loop does besides updating the
    provisioner: scheduling [process.exit(44)], calling
    [runAllProvisionersOnce], calling the delayer. *)
Inductive Effect :=
| ExitTimer (ms : N)
| Sweep (startedAt : Time)
| Pause (ms : N).

(** [exitTimer] *)
Definition exitTimer (time : N) : Effect :=
  let t := if time =? 0 then 30000 else time in
  ExitTimer t.

(** A listener: what it does when called, and what it throws. *)
Definition Listener := (list Effect * option Err)%type.

(** Modelled from the spec: the WatchDog of [lib/watchdog], which is not
    among the sources; "armed with a maximum silence duration; must be
    periodically touched", "[touch()] resets the countdown;
    [start()]/[stop()] control whether expiry is monitored", and, being an
    event emitter, [on] adds a listener. *)
Record WatchDog := mkWatchDog {
  maxTime : N;
  monitored : bool;
  lastTouch : Time;
  listeners : list Listener
}.

Definition WatchDog_new (maxTime : N) : WatchDog :=
  mkWatchDog maxTime false 0 [].

Definition WatchDog_on (l : Listener) (w : WatchDog) : WatchDog :=
  mkWatchDog (maxTime w) (monitored w) (lastTouch w) (listeners w ++ [l]).

Definition WatchDog_start (t : Time) (w : WatchDog) : WatchDog :=
  mkWatchDog (maxTime w) true t (listeners w).

Definition WatchDog_stop (w : WatchDog) : WatchDog :=
  mkWatchDog (maxTime w) false (lastTouch w) (listeners w).

Definition WatchDog_touch (t : Time) (w : WatchDog) : WatchDog :=
  mkWatchDog (maxTime w) (monitored w) t (listeners w).

(** Whether the watchdog signals expiry when left alone until [t]. *)
Definition WatchDog_expired (t : Time) (w : WatchDog) : bool :=
  monitored w && (lastTouch w + maxTime w <=? t).

(** [emit('expired')]: the listeners are called in the order in which
    they were added, until one throws. *)
Fixpoint emit (ls : list Listener) : list Effect * option Err :=
  match ls with
  | [] => ([], None)
  | (effs, Some e) :: _ => (effs, Some e)
  | (effs, None) :: rest => (effs ++ fst (emit rest), snd (emit rest))
  end.

Record Stats := mkStats {
  runs : Z;
  consecFail : Z
}.

(** The mutable part of a [Provisioner] and its iteration interval (the
    collaborators are the [cfg] of the previous section). *)
Record Provisioner := mkProvisioner {
  provisionIterationInterval : N;
  __provRunId : Z;
  __keepRunning : bool;
  __watchDog : WatchDog;
  __stats : Stats
}.

(** [function Provisioner (cfg)]: of its assertions, the two that a
    well-typed configuration can fail are that [provisionerId] and
    [provisionIterationInterval] are truthy. *)
Definition Provisioner_new (provisionerId : string)
  (provisionIterationInterval : N) : option Provisioner :=
  if (provisionerId =? "")%string then None
  else if provisionIterationInterval =? 0 then None
  else
    Some (mkProvisioner provisionIterationInterval 0 false
            (WatchDog_new MAX_PROVISION_ITERATION) (mkStats 0 0)).

(** Where a call of [run] stands: suspended at one of the two [await]s
    of the loop, or finished. *)
Inductive Status :=
| AwaitingSweep
| AwaitingDelay
| Returned
| Threw (e : Err).

(** The outcome of running [run] from one suspension to the next. *)
Record Step := mkStep {
  after : Provisioner;
  effects : list Effect;
  status : Status
}.

(** The listener that [run] registers for ['expired']. *)
Definition expiredListener : Listener :=
  ([exitTimer MAX_KILL_TIME], Some (Error "WatchDog expired")).

(** The loop body of [run] from [do {] to
    [await this.runAllProvisionersOnce()]; what is thrown there is caught
    by the outer [catch], which calls [exitTimer] again and rethrows. *)
Definition iteration (t : Time) (p : Provisioner) : Step :=
  let p :=
    mkProvisioner (provisionIterationInterval p) (__provRunId p)
      (__keepRunning p) (WatchDog_touch t (__watchDog p)) (__stats p) in
  if (MAX_FAILURES <? consecFail (__stats p))%Z then
    mkStep p [exitTimer MAX_KILL_TIME; exitTimer MAX_KILL_TIME]
      (Threw "provisioner is failing a lot"%string)
  else
    let p :=
      mkProvisioner (provisionIterationInterval p) (__provRunId p)
        (__keepRunning p) (__watchDog p)
        (mkStats (runs (__stats p) + 1) (consecFail (__stats p))) in
    mkStep p [Sweep t] AwaitingSweep.

(** [Provisioner.prototype.run], up to its first [await]. *)
Definition run (t : Time) (p : Provisioner) : Step :=
  let p :=
    mkProvisioner (provisionIterationInterval p) (__provRunId p) true
      (WatchDog_start t (WatchDog_on expiredListener (__watchDog p)))
      (__stats p) in
  iteration t p.

(** What [if (err.stack) { debug(..., err.stack.replace(...)) }] throws
    in the inner [catch] of [run]: reading [stack] of [null] or
    [undefined] is a TypeError, and so is calling [replace] on a stack
    that has none. *)
Definition stackLogging (err : Err) : option Err :=
  match err with
  | Error _ | TypeError _ => None
  | Nullish => Some (TypeError "err.stack")
  | OddStack => Some (TypeError "err.stack.replace")
  end.

(** [run] resumed when the sweep it awaits has settled, up to
    [await d()]; what the inner [catch] throws is caught by the outer
    one, which calls [exitTimer] and rethrows. *)
Definition sweepSettled (outcome : Settled (list Val)) (p : Provisioner)
  : Step :=
  match outcome with
  | Resolved _ =>
      mkStep
        (mkProvisioner (provisionIterationInterval p) (__provRunId p)
           (__keepRunning p) (__watchDog p) (mkStats (runs (__stats p)) 0))
        [Pause (provisionIterationInterval p)] AwaitingDelay
  | Rejected err =>
      let p :=
        mkProvisioner (provisionIterationInterval p) (__provRunId p)
          (__keepRunning p) (__watchDog p)
          (mkStats (runs (__stats p)) (consecFail (__stats p) + 1)) in
      match stackLogging err with
      | None => mkStep p [Pause (provisionIterationInterval p)] AwaitingDelay
      | Some typeError => mkStep p [exitTimer MAX_KILL_TIME] (Threw typeError)
      end
  end.

(** [run] resumed when the delay has elapsed: the loop condition, then
    the next iteration or the end of [run]. *)
Definition delayElapsed (PROVISION_ONCE : bool) (t : Time)
  (p : Provisioner) : Step :=
  if __keepRunning p && negb PROVISION_ONCE then iteration t p
  else mkStep p [] Returned.

(** [Provisioner.prototype.stop] *)
Definition stop (p : Provisioner) : Provisioner :=
  mkProvisioner (provisionIterationInterval p) (__provRunId p) false
    (WatchDog_stop (__watchDog p)) (mkStats 0 0).

(** *** Interleavings

    [run] executes between suspensions only; a process holds one
    provisioner, the calls of [run] made so far, and what they did. *)
Record Process := mkProcess {
  provisioner : Provisioner;
  calls : list Status;
  done : list Effect
}.

Inductive Input :=
| CallRun (t : Time)
| CallStop
| SweepSettles (i : nat) (outcome : Settled (list Val))
| DelayElapses (i : nat) (t : Time).

(** Replacing the status of the [i]-th call of [run]. *)
Fixpoint setStatus (i : nat) (s : Status) (l : list Status) : list Status :=
  match l, i with
  | [], _ => []
  | _ :: rest, O => s :: rest
  | x :: rest, S j => x :: setStatus j s rest
  end.

Definition resume (i : nat) (st : Step) (pr : Process) : Process :=
  mkProcess (after st) (setStatus i (status st) (calls pr))
    (done pr ++ effects st).

(** One input; an input that no call of [run] is waiting for is
    ignored. *)
Definition react (PROVISION_ONCE : bool) (pr : Process) (i : Input)
  : Process :=
  match i with
  | CallRun t =>
      let st := run t (provisioner pr) in
      mkProcess (after st) (calls pr ++ [status st]) (done pr ++ effects st)
  | CallStop => mkProcess (stop (provisioner pr)) (calls pr) (done pr)
  | SweepSettles i outcome =>
      match nth_error (calls pr) i with
      | Some AwaitingSweep =>
          resume i (sweepSettled outcome (provisioner pr)) pr
      | _ => pr
      end
  | DelayElapses i t =>
      match nth_error (calls pr) i with
      | Some AwaitingDelay =>
          resume i (delayElapsed PROVISION_ONCE t (provisioner pr)) pr
      | _ => pr
      end
  end.

Definition execute (PROVISION_ONCE : bool) (pr : Process)
  (inputs : list Input) : Process :=
  fold_left (react PROVISION_ONCE) inputs pr.

(** A process whose provisioner was just constructed. *)
Definition boot (p : Provisioner) : Process := mkProcess p [] [].

(** *** One call of [run], left alone

    The process in which [run] is called once, at [t], and nothing else
    happens: every sweep is [runAllProvisionersOnce], started when its
    iteration starts; when it has settled [run] is resumed with its
    outcome, and when [run] then calls its delayer, for the duration it
    asks for, [run] is resumed again when that delay has elapsed.  [n]
    bounds the number of sweeps that are followed. *)
Section RunAlone.

Variable cfg : Collaborators.
Variable provisionerId : string.
Variable PROVISION_ONCE : bool.

Fixpoint iterations (n : nat) (t : Time) (pr : Process) : Process :=
  match n with
  | O => pr
  | S k =>
      match nth_error (calls pr) 0 with
      | Some AwaitingSweep =>
          let sweep := runAllProvisionersOnce cfg provisionerId t in
          let st := sweepSettled (fate sweep) (provisioner pr) in
          let pr := resume 0 st pr in
          match status st, effects st with
          | AwaitingDelay, [Pause ms] =>
              let t' := settledAt (delayer ms tt (settledAt sweep)) in
              iterations k t' (react PROVISION_ONCE pr (DelayElapses 0 t'))
          | _, _ => pr
          end
      | _ => pr
      end
  end.

Definition runAlone (n : nat) (t : Time) (p : Provisioner) : Process :=
  iterations n t (react PROVISION_ONCE (boot p) (CallRun t)).

End RunAlone.

(** ** Observing traces *)

Definition isSecretCreate (ev : Event) : bool :=
  match ev_call ev with SecretCreate _ => true | _ => false end.

Definition isRequest (ev : Event) : bool :=
  match ev_call ev with RequestSpotInstance _ _ => true | _ => false end.

Definition isDelay (ev : Event) : bool :=
  match ev_call ev with Delay _ => true | _ => false end.

Definition isKill (ev : Event) : bool :=
  match ev_call ev with KillCapacityOfWorkerType _ _ _ => true | _ => false end.

Definition isReport (ev : Event) : bool :=
  match ev_call ev with ReportProvisioningIteration _ => true | _ => false end.

Definition isCreateKeyPair (ev : Event) : bool :=
  match ev_call ev with CreateKeyPair _ => true | _ => false end.

Definition isPendingTasks (ev : Event) : bool :=
  match ev_call ev with PendingTasks _ _ => true | _ => false end.

(** The calls made by [spawn] and by the pacing of the bid chain. *)
Definition isSubmission (ev : Event) : bool :=
  isSecretCreate ev || isRequest ev || isDelay ev.

(** Every call of the trace lies between [a] and [b]. *)
Definition within (a b : Time) (l : Trace) : Prop :=
  Forall (fun ev => a <= ev_start ev /\ ev_start ev <= ev_end ev
                    /\ ev_end ev <= b) l.

(** No two calls of the trace overlap in time: each has settled when the
    next ones are issued. *)
Fixpoint sequential (l : Trace) : Prop :=
  match l with
  | [] => True
  | ev :: rest =>
      Forall (fun later => ev_end ev <= ev_start later) rest
      /\ sequential rest
  end.

(** Every successful request is followed at once by a delay of [ms]. *)
Fixpoint paced (ms : N) (l : Trace) : Prop :=
  match l with
  | [] => True
  | ev :: rest =>
      (isRequest ev && ev_ok ev = true ->
       exists rest',
         rest = mkEvent (Delay ms) (ev_end ev) (ev_end ev + ms) true :: rest')
      /\ paced ms rest
  end.

Definition liveCalls (l : list Status) : nat :=
  length
    (filter
       (fun s =>
          match s with
          | AwaitingSweep | AwaitingDelay => true
          | _ => false
          end) l).

Definition sweepsStarted (l : list Effect) : nat :=
  length
    (filter (fun e => match e with Sweep _ => true | _ => false end) l).

(** The capacity change that [provisionType] computes for a pool when the
    queue reports, at instant [t], [pendingTasks] pending tasks. *)
Definition capacityChange (cfg : Collaborators) (wt : WorkerType)
  (t : Time) (pendingTasks : Z) : Z :=
  determineCapacityChange wt
    (awsManager_capacityForType cfg wt [running] t)
    (awsManager_capacityForType cfg wt [pending; spotReq] t)
    pendingTasks.

(** The record that [provisionType] reports in that case. *)
Definition iterationReport (cfg : Collaborators) (provisionerId : string)
  (wt : WorkerType) (t : Time) (pendingTasks : Z) : IterationReport :=
  mkReport provisionerId (workerType wt) pendingTasks
    (awsManager_capacityForType cfg wt [running] t)
    (awsManager_capacityForType cfg wt [pending; spotReq] t)
    (capacityChange cfg wt t pendingTasks).

(** The bids that [provisionType] asks for in that case. *)
Definition bidsFor (cfg : Collaborators) (wt : WorkerType)
  (pricing : Pricing) (t : Time) (pendingTasks : Z) : list Bid :=
  determineSpotBids wt (awsManager_ec2_regions cfg) pricing
    (capacityChange cfg wt t pendingTasks).

(** What is known of the promise of a chain of [n] bids started at
    [t]. *)
Record ChainShape (n : nat) (t : Time) (p : Promise Val) : Prop :=
  mkChainShape {
  chain_time : t <= settledAt p;
  chain_within : within t (settledAt p) (log p);
  chain_sequential : sequential (log p);
  chain_submissions : Forall (fun ev => isSubmission ev = true) (log p);
  chain_paced : paced 500 (log p);
  chain_secrets_le :
    (List.length (filter isSecretCreate (log p)) <= n)%nat;
  chain_requests_le : (List.length (filter isRequest (log p)) <= n)%nat;
  chain_resolved :
    is_resolved (fate p) = true ->
    List.length (filter isRequest (log p)) = n
    /\ List.length (filter isSecretCreate (log p)) = n
    /\ List.length (filter isDelay (log p)) = n
    /\ Forall (fun ev => ev_ok ev = true) (log p)
}.

(** The call of [createKeyPair] for one pool, issued at [t]. *)
Definition keyPairEvent (cfg : Collaborators) (t : Time) (name : string)
  : Event :=
  mkEvent (CreateKeyPair name) t
    (t + fst (awsManager_createKeyPair cfg name t))
    (is_resolved (snd (awsManager_createKeyPair cfg name t))).

(** The three maintenance calls that are awaited, issued at [t]. *)
Definition maintenanceEvents (cfg : Collaborators) (names : list string)
  (t : Time) : Trace :=
  [mkEvent (RougeKiller names) t (t + fst (awsManager_rougeKiller cfg names t))
     (is_resolved (snd (awsManager_rougeKiller cfg names t)));
   mkEvent ZombieKiller t (t + fst (awsManager_zombieKiller cfg t))
     (is_resolved (snd (awsManager_zombieKiller cfg t)));
   mkEvent EnsureTags t (t + fst (awsManager_ensureTags cfg t))
     (is_resolved (snd (awsManager_ensureTags cfg t)))].

(** The three fetches of a sweep begun at [t], when they resolve. *)
Definition fetchEvents (t : Time) (d0 d1 d2 : N) : Trace :=
  [mkEvent LoadAll t (t + d0) true; mkEvent AwsPricing t (t + d1) true;
   mkEvent Update t (t + d2) true].

(** ** Concrete collaborators

    Used to run the definitions above on explicit inputs. *)

Definition launchSpecFor (r ty : string) : LaunchInfo :=
  mkLaunchInfo (mkLaunchSpec (r ++ "/" ++ ty)%string None)
    "token" "payload" ["scope"%string].

(** A pool whose policy answers [change] and whose bid resolver answers
    the first [change] bids of [bids]. *)
Definition pool (name : string) (change : Z) (bids : list Bid) : WorkerType :=
  mkWorkerType name launchSpecFor (fun _ _ _ => change)
    (fun _ _ n => firstn (Z.to_nat n) bids).

Definition bidA : Bid := mkBid "us-west-2" "m3.large" "us-west-2a" 10 10.
Definition bidB : Bid := mkBid "us-east-1" "c4.xlarge" "us-east-1c" 30 15.

Definition noPricing : Pricing := PricingSnapshot [].

(** Every collaborator resolves; the pools are [workers], the queue
    reports no pending task, each call takes the latency given for it. *)
Definition calm (workers : list WorkerType) : Collaborators :=
  mkCollaborators
    (fun _ => (20, Resolved workers))
    (fun _ => (30, Resolved noPricing))
    (fun _ => (10, Resolved tt))
    (fun _ _ => (5, Resolved tt))
    (fun _ => (5, Resolved tt))
    (fun _ => (5, Resolved tt))
    (fun _ _ => (5, Resolved tt))
    (fun _ _ _ => 0%Z)
    (fun _ _ _ => (100, Resolved (Some "sir-1"%string)))
    (fun _ _ _ _ => (40, Resolved None))
    ["us-west-2"%string; "us-east-1"%string]
    (fun _ _ _ => (15, Resolved 0%Z))
    (fun _ _ => (7, Resolved tt)).

(** Replacing one collaborator of a configuration. *)
Definition withSecretCreate (f : SecretEntity -> Time -> Reply unit)
  (c : Collaborators) : Collaborators :=
  mkCollaborators (WorkerType_loadAll c) (awsPricing c) (awsManager_update c)
    (awsManager_rougeKiller c) (awsManager_zombieKiller c)
    (awsManager_ensureTags c) (awsManager_createKeyPair c)
    (awsManager_capacityForType c) (awsManager_requestSpotInstance c)
    (awsManager_killCapacityOfWorkerType c) (awsManager_ec2_regions c)
    (queue_pendingTasks c) f.

Definition withRequestSpotInstance
  (f : LaunchInfo -> Bid -> Time -> Reply Val) (c : Collaborators)
  : Collaborators :=
  mkCollaborators (WorkerType_loadAll c) (awsPricing c) (awsManager_update c)
    (awsManager_rougeKiller c) (awsManager_zombieKiller c)
    (awsManager_ensureTags c) (awsManager_createKeyPair c)
    (awsManager_capacityForType c) f
    (awsManager_killCapacityOfWorkerType c) (awsManager_ec2_regions c)
    (queue_pendingTasks c) (Secret_create c).

Definition withPendingTasks (f : string -> string -> Time -> Reply Z)
  (c : Collaborators) : Collaborators :=
  mkCollaborators (WorkerType_loadAll c) (awsPricing c) (awsManager_update c)
    (awsManager_rougeKiller c) (awsManager_zombieKiller c)
    (awsManager_ensureTags c) (awsManager_createKeyPair c)
    (awsManager_capacityForType c) (awsManager_requestSpotInstance c)
    (awsManager_killCapacityOfWorkerType c) (awsManager_ec2_regions c)
    f (Secret_create c).

Definition withRougeKiller (f : list string -> Time -> Reply unit)
  (c : Collaborators) : Collaborators :=
  mkCollaborators (WorkerType_loadAll c) (awsPricing c) (awsManager_update c)
    f (awsManager_zombieKiller c)
    (awsManager_ensureTags c) (awsManager_createKeyPair c)
    (awsManager_capacityForType c) (awsManager_requestSpotInstance c)
    (awsManager_killCapacityOfWorkerType c) (awsManager_ec2_regions c)
    (queue_pendingTasks c) (Secret_create c).

Definition withZombieKiller (f : Time -> Reply unit)
  (c : Collaborators) : Collaborators :=
  mkCollaborators (WorkerType_loadAll c) (awsPricing c) (awsManager_update c)
    (awsManager_rougeKiller c) f
    (awsManager_ensureTags c) (awsManager_createKeyPair c)
    (awsManager_capacityForType c) (awsManager_requestSpotInstance c)
    (awsManager_killCapacityOfWorkerType c) (awsManager_ec2_regions c)
    (queue_pendingTasks c) (Secret_create c).

Definition withCreateKeyPair (f : string -> Time -> Reply unit)
  (c : Collaborators) : Collaborators :=
  mkCollaborators (WorkerType_loadAll c) (awsPricing c) (awsManager_update c)
    (awsManager_rougeKiller c) (awsManager_zombieKiller c)
    (awsManager_ensureTags c) f
    (awsManager_capacityForType c) (awsManager_requestSpotInstance c)
    (awsManager_killCapacityOfWorkerType c) (awsManager_ec2_regions c)
    (queue_pendingTasks c) (Secret_create c).

(** Spot requests in [us-east-1] are refused, the others accepted. *)
Definition throttled (workers : list WorkerType) : Collaborators :=
  withRequestSpotInstance
    (fun _ b _ =>
       if (region b =? "us-east-1")%string
       then (100, Rejected "RequestLimitExceeded"%string)
       else (100, Resolved (Some "sir-1"%string)))
    (calm workers).

Definition throttledEast : Collaborators := throttled [].

(** The rogue cleanup fails after 5 ms, the zombie cleanup takes a
    second. *)
Definition rougeFailsEarly (workers : list WorkerType) : Collaborators :=
  withZombieKiller (fun _ => (1000, Resolved tt))
    (withRougeKiller
       (fun _ _ => (5, Rejected "RequestLimitExceeded"%string))
       (calm workers)).

(** Creating a key pair fails, after five seconds. *)
Definition keyPairFails (workers : list WorkerType) : Collaborators :=
  withCreateKeyPair
    (fun _ _ => (5000, Rejected "InvalidKeyPair.Duplicate"%string))
    (calm workers).

(** The secret store does not answer. *)
Definition secretStoreDown : Collaborators :=
  withSecretCreate (fun _ _ => (7, Rejected "ETIMEDOUT"%string)) (calm []).

(** The pool store does not answer: no sweep can succeed. *)
Definition fleetDown : Collaborators :=
  mkCollaborators
    (fun _ => (20, Rejected "ECONNREFUSED"%string))
    (awsPricing (calm [])) (awsManager_update (calm []))
    (awsManager_rougeKiller (calm [])) (awsManager_zombieKiller (calm []))
    (awsManager_ensureTags (calm [])) (awsManager_createKeyPair (calm []))
    (awsManager_capacityForType (calm []))
    (awsManager_requestSpotInstance (calm []))
    (awsManager_killCapacityOfWorkerType (calm []))
    (awsManager_ec2_regions (calm []))
    (queue_pendingTasks (calm [])) (Secret_create (calm [])).

(** The queue does not answer. *)
Definition queueDown : Collaborators :=
  withPendingTasks (fun _ _ _ => (15, Rejected "ECONNRESET"%string))
    (calm []).

(** What holds of a provisioner built by the constructor, whatever
    happens to it afterwards. *)
Record Constructed (interval : N) (p : Provisioner) : Prop := mkConstructed {
  constructed_interval : provisionIterationInterval p = interval;
  constructed_runId : __provRunId p = 0%Z;
  constructed_maxTime : maxTime (__watchDog p) = MAX_PROVISION_ITERATION;
  constructed_listeners :
    exists k, listeners (__watchDog p) = repeat expiredListener k
}.

(** The provisioner built with an iteration interval of one second. *)
Definition sampleProvisioner : Provisioner :=
  mkProvisioner 1000 0 false (WatchDog_new MAX_PROVISION_ITERATION)
    (mkStats 0 0).

(** The provisioner of the previous definition after sixteen sweeps that
    failed, one every 1020 ms. *)
Definition givenUp : Provisioner :=
  mkProvisioner 1000 0 true
    (mkWatchDog MAX_PROVISION_ITERATION true 16320 [expiredListener])
    (mkStats 16 16).

(** [n] sweeps of the first call of [run] that fail, each followed by the
    pause between iterations. *)
Fixpoint failingSweeps (n : nat) (t : Time) : list Input :=
  match n with
  | O => []
  | S k => SweepSettles 0 (Rejected "ECONNREFUSED"%string)
           :: DelayElapses 0 (t + 1000) :: failingSweeps k (t + 1000)
  end.

(** ** Further observations *)

(** The calls by which a pool is reconciled. *)
Definition isReconciliation (ev : Event) : bool :=
  isPendingTasks ev || isReport ev || isSubmission ev || isKill ev.

(** When and why a call rejected, if it did. *)
Definition rejection {A} (r : Reply A) (t : Time) : option (Time * Err) :=
  match snd r with
  | Rejected e => Some (t + fst r, e)
  | Resolved _ => None
  end.

(** The three fetches of a sweep begun at [t], as they were answered. *)
Definition fetchCalls (cfg : Collaborators) (t : Time) : Trace :=
  [mkEvent LoadAll t (t + fst (WorkerType_loadAll cfg t))
     (is_resolved (snd (WorkerType_loadAll cfg t)));
   mkEvent AwsPricing t (t + fst (awsPricing cfg t))
     (is_resolved (snd (awsPricing cfg t)));
   mkEvent Update t (t + fst (awsManager_update cfg t))
     (is_resolved (snd (awsManager_update cfg t)))].

(** The fetches and the maintenance calls that a sweep waits for. *)
Definition isPreparation (ev : Event) : bool :=
  match ev_call ev with
  | LoadAll | AwsPricing | Update | RougeKiller _ | ZombieKiller
  | EnsureTags => true
  | _ => false
  end.

(** The instants at which sweeps were started. *)
Fixpoint sweepStarts (l : list Effect) : list Time :=
  match l with
  | [] => []
  | Sweep t :: rest => t :: sweepStarts rest
  | _ :: rest => sweepStarts rest
  end.

(** Each instant is followed by the later ones at a distance of [gap] at
    least. *)
Fixpoint spaced (gap : N) (ts : list Time) : Prop :=
  match ts with
  | [] => True
  | x :: rest => Forall (fun y => x + gap <= y) rest /\ spaced gap rest
  end.

Definition isCallRun (i : Input) : bool :=
  match i with CallRun _ => true | _ => false end.

Definition isCallStop (i : Input) : bool :=
  match i with CallStop => true | _ => false end.

(** A computation that does not settle before it starts. *)
Definition causal {A} (m : Async A) : Prop :=
  forall t, t <= settledAt (m t).

(** Each sweep but the first was started [gap] after the sweep before
    it had settled. *)
Fixpoint backToBack (cfg : Collaborators) (provisionerId : string)
  (gap : N) (ts : list Time) : Prop :=
  match ts with
  | [] => True
  | t1 :: rest =>
      match rest with
      | [] => True
      | t2 :: _ =>
          t2 = settledAt (runAllProvisionersOnce cfg provisionerId t1) + gap
      end
      /\ backToBack cfg provisionerId gap rest
  end.

(** How an iteration in flight ends once [stop] was called: with its
    pause, or with the exit timer. *)
Definition endsIteration (interval : N) (e : Effect) : Prop :=
  e = Pause interval \/ e = ExitTimer MAX_KILL_TIME.

(** Whether the input is not a sweep that rejects with a reason whose
    stack [run] cannot print. *)
Definition printsStack (i : Input) : bool :=
  match i with
  | SweepSettles _ (Rejected err) =>
      match stackLogging err with
      | None => true
      | Some _ => false
      end
  | _ => true
  end.


(** ** The metrics of [monitors.js] *)

(** A call received by the monitor. *)
Inductive Metric :=
| Measure (key : string) (val : Z)
| Count (key : string) (val : Z).

(** The [monitor] handed to the functions of [monitors.js]: the calls it
    has received, the oldest first. *)
Definition Monitor := list Metric.

(** [monitor.measure(key, val)] *)
Definition measure (key : string) (val : Z) (monitor : Monitor) : Monitor :=
  monitor ++ [Measure key val].

(** [monitor.count(key, val)] *)
Definition count (key : string) (val : Z) (monitor : Monitor) : Monitor :=
  monitor ++ [Count key val].

Section Monitors.

Local Open Scope string_scope.

(** [module.exports.lag] *)
Definition lag (monitor : Monitor)
  (provisionerId region az instanceType workerType id : string)
  (didShow : bool) (lag : Z) : Monitor :=
  let monitor := measure (region ++ ".lag") lag monitor in
  let monitor :=
    measure (region ++ "." ++ az ++ "." ++ instanceType ++ ".lag") lag
      monitor in
  if didShow then
    let monitor := count "overall.didshow" 1 monitor in
    count (region ++ "." ++ az ++ "." ++ instanceType ++ ".didshow") 1
      monitor
  else
    let monitor := count "overall.noshow" 1 monitor in
    count (region ++ "." ++ az ++ "." ++ instanceType ++ ".noshow") 1
      monitor.

(** [module.exports.spotRequestSubmitted] *)
Definition spotRequestSubmitted (monitor : Monitor)
  (provisionerId region az instanceType workerType id : string)
  (bid : Bid) : Monitor :=
  let monitor := count "overall.spot.submitted.count" 1 monitor in
  let monitor :=
    count ("worker." ++ workerType ++ ".spot.submitted.count") 1 monitor in
  let monitor :=
    measure "overall.price-per-capacity-unit" (Z.of_N (truePrice bid))
      monitor in
  let monitor :=
    measure
      (region ++ "." ++ az ++ "." ++ instanceType ++ ".overall.spot.bid")
      (Z.of_N (price bid)) monitor in
  let monitor :=
    measure
      (region ++ "." ++ az ++ "." ++ instanceType ++ ".overall.spot.price")
      (Z.of_N (truePrice bid)) monitor in
  let monitor :=
    measure
      (region ++ "." ++ az ++ "." ++ instanceType ++ ".worker."
       ++ workerType ++ ".spot.bid")
      (Z.of_N (price bid)) monitor in
  measure
    (region ++ "." ++ az ++ "." ++ instanceType ++ ".worker."
     ++ workerType ++ ".spot.price")
    (Z.of_N (truePrice bid)) monitor.

(** [module.exports.spotRequestFulfilled] *)
Definition spotRequestFulfilled (monitor : Monitor)
  (provisionerId region az instanceType workerType id instanceId : string)
  (time : Z) : Monitor :=
  let monitor := count "overall.spot.filled.count" 1 monitor in
  let monitor :=
    count ("worker." ++ workerType ++ ".spot.filled.count") 1 monitor in
  let monitor := measure "overall.spot.filled.time" time monitor in
  let monitor :=
    count
      (region ++ "." ++ az ++ "." ++ instanceType
       ++ ".overall.spot.filled.count")
      1 monitor in
  let monitor :=
    measure
      (region ++ "." ++ az ++ "." ++ instanceType
       ++ ".overall.spot.filled.time")
      time monitor in
  let monitor :=
    count
      (region ++ "." ++ az ++ "." ++ instanceType ++ ".worker."
       ++ workerType ++ ".spot.filled.count")
      1 monitor in
  measure
    (region ++ "." ++ az ++ "." ++ instanceType ++ ".worker."
     ++ workerType ++ ".spot.filled.time")
    time monitor.

(** [module.exports.spotRequestDied] *)
Definition spotRequestDied (monitor : Monitor)
  (provisionerId region az instanceType workerType id : string)
  (time : Z) (bid : Bid) (state statusCode statusMsg : string) : Monitor :=
  let monitor := count "overall.spot.died.count" 1 monitor in
  let monitor :=
    count ("worker." ++ workerType ++ ".spot.died.count") 1 monitor in
  let monitor :=
    count
      (region ++ "." ++ az ++ "." ++ instanceType ++ ".overall.spot.died")
      1 monitor in
  count
    (region ++ "." ++ az ++ "." ++ instanceType ++ ".worker."
     ++ workerType ++ ".spot.died")
    1 monitor.

(** [module.exports.instanceTerminated] *)
Definition instanceTerminated (monitor : Monitor)
  (provisionerId region az instanceType workerType id spotRequestId : string)
  (time launchTime : Z)
  (stateCode stateMsg stateChangeCode stateChangeMsg : string) : Monitor :=
  let monitor := count "overall.instance.terminated" 1 monitor in
  let monitor :=
    count ("worker." ++ workerType ++ ".instance.terminated") 1 monitor in
  let monitor :=
    count
      (region ++ "." ++ az ++ "." ++ instanceType
       ++ ".overall.instance.terminated")
      1 monitor in
  count
    (region ++ "." ++ az ++ "." ++ instanceType ++ ".worker."
     ++ workerType ++ ".instance.terminated")
    1 monitor.

(** [module.exports.spotFloorFound] *)
Definition spotFloorFound (monitor : Monitor)
  (region az instanceType : string) (time price : Z) (reason : string)
  : Monitor :=
  let monitor :=
    measure ("overall.spot." ++ instanceType ++ ".price-floor") price
      monitor in
  measure (region ++ "." ++ az ++ "." ++ instanceType ++ ".price-floor")
    price monitor.

(** [module.exports.amiUsage] *)
Definition amiUsage (monitor : Monitor)
  (provisionerId region az instanceType workerType ami : string) : Monitor :=
  let monitor := count (region ++ ".ami." ++ ami) 1 monitor in
  count
    (region ++ "." ++ az ++ "." ++ instanceType ++ ".worker."
     ++ workerType ++ ".ami." ++ ami)
    1 monitor.

End Monitors.

(** One call of a function of [monitors.js], with its arguments. *)
Inductive Observation :=
| ObservedLag
    (provisionerId region az instanceType workerType id : string)
    (didShow : bool) (lag : Z)
| ObservedSubmitted
    (provisionerId region az instanceType workerType id : string) (bid : Bid)
| ObservedFulfilled
    (provisionerId region az instanceType workerType id instanceId : string)
    (time : Z)
| ObservedDied
    (provisionerId region az instanceType workerType id : string)
    (time : Z) (bid : Bid) (state statusCode statusMsg : string)
| ObservedTerminated
    (provisionerId region az instanceType workerType id spotRequestId
       : string)
    (time launchTime : Z)
    (stateCode stateMsg stateChangeCode stateChangeMsg : string)
| ObservedFloor (region az instanceType : string) (time price : Z)
    (reason : string)
| ObservedAmi (provisionerId region az instanceType workerType ami : string).

Definition observe (monitor : Monitor) (o : Observation) : Monitor :=
  match o with
  | ObservedLag pid r az it wt id didShow l =>
      lag monitor pid r az it wt id didShow l
  | ObservedSubmitted pid r az it wt id bid =>
      spotRequestSubmitted monitor pid r az it wt id bid
  | ObservedFulfilled pid r az it wt id iid time =>
      spotRequestFulfilled monitor pid r az it wt id iid time
  | ObservedDied pid r az it wt id time bid st code msg =>
      spotRequestDied monitor pid r az it wt id time bid st code msg
  | ObservedTerminated pid r az it wt id sr time lt c m cc cm =>
      instanceTerminated monitor pid r az it wt id sr time lt c m cc cm
  | ObservedFloor r az it time price reason =>
      spotFloorFound monitor r az it time price reason
  | ObservedAmi pid r az it wt ami => amiUsage monitor pid r az it wt ami
  end.

(** The monitor after a sequence of calls, made on a monitor that has
    received none. *)
Definition observeAll (os : list Observation) : Monitor :=
  fold_left observe os [].

(** The value of the counter [key]. *)
Fixpoint counted (key : string) (monitor : Monitor) : Z :=
  match monitor with
  | [] => 0
  | Count k v :: rest =>
      ((if (k =? key)%string then v else 0) + counted key rest)%Z
  | Measure _ _ :: rest => counted key rest
  end.

(** The values measured under [key], the oldest first. *)
Fixpoint measured (key : string) (monitor : Monitor) : list Z :=
  match monitor with
  | [] => []
  | Measure k v :: rest =>
      if (k =? key)%string then v :: measured key rest
      else measured key rest
  | Count _ _ :: rest => measured key rest
  end.

(** The number of dots of a name. *)
Fixpoint dots (s : string) : nat :=
  match s with
  | EmptyString => 0
  | String c rest => (if Ascii.eqb c "." then 1 else 0) + dots rest
  end.

Fixpoint lastChar (s : string) : option ascii :=
  match s with
  | EmptyString => None
  | String c rest =>
      match lastChar rest with
      | None => Some c
      | found => found
      end
  end.

(** Whether [s] starts with [part]. *)
Fixpoint startsWith (part s : string) : bool :=
  match part, s with
  | EmptyString, _ => true
  | String _ _, EmptyString => false
  | String a part', String b s' => Ascii.eqb a b && startsWith part' s'
  end.

(** Whether [part] occurs in [s]. *)
Fixpoint occurs (part s : string) : bool :=
  startsWith part s
  || match s with
     | EmptyString => false
     | String _ rest => occurs part rest
     end.

Definition isLagReport (o : Observation) : bool :=
  match o with ObservedLag _ _ _ _ _ _ _ _ => true | _ => false end.

Definition showedUp (o : Observation) : bool :=
  match o with
  | ObservedLag _ _ _ _ _ _ didShow _ => didShow
  | _ => false
  end.

Definition isSubmitted (o : Observation) : bool :=
  match o with ObservedSubmitted _ _ _ _ _ _ _ => true | _ => false end.

Definition isFulfilled (o : Observation) : bool :=
  match o with ObservedFulfilled _ _ _ _ _ _ _ _ => true | _ => false end.

Definition isDied (o : Observation) : bool :=
  match o with
  | ObservedDied _ _ _ _ _ _ _ _ _ _ _ => true
  | _ => false
  end.

Definition isTerminated (o : Observation) : bool :=
  match o with
  | ObservedTerminated _ _ _ _ _ _ _ _ _ _ _ _ _ => true
  | _ => false
  end.

Definition isSubmittedFor (name : string) (o : Observation) : bool :=
  match o with
  | ObservedSubmitted _ _ _ _ wt _ _ => (wt =? name)%string
  | _ => false
  end.

(** The lag reported for an instance type in a zone. *)
Definition lagAt (r az it : string) (o : Observation) : option Z :=
  match o with
  | ObservedLag _ r' az' it' _ _ _ l =>
      if ((r' =? r) && (az' =? az) && (it' =? it))%string then Some l
      else None
  | _ => None
  end.

Fixpoint lagsAt (r az it : string) (os : list Observation) : list Z :=
  match os with
  | [] => []
  | o :: rest =>
      match lagAt r az it o with
      | Some l => l :: lagsAt r az it rest
      | None => lagsAt r az it rest
      end
  end.

(** The true prices of the bids whose submission was observed. *)
Fixpoint truePricesSubmitted (os : list Observation) : list Z :=
  match os with
  | [] => []
  | ObservedSubmitted _ _ _ _ _ _ bid :: rest =>
      Z.of_N (truePrice bid) :: truePricesSubmitted rest
  | _ :: rest => truePricesSubmitted rest
  end.

(** The names that an observation puts in front of a key and between
    its dots are plain: a region without dot that is not ["worker"], a
    worker type without dot. *)
Definition plainNames (o : Observation) : Prop :=
  match o with
  | ObservedLag _ r _ _ wt _ _ _
  | ObservedSubmitted _ r _ _ wt _ _
  | ObservedFulfilled _ r _ _ wt _ _ _
  | ObservedDied _ r _ _ wt _ _ _ _ _ _
  | ObservedTerminated _ r _ _ wt _ _ _ _ _ _ _ _
  | ObservedAmi _ r _ _ wt _ =>
      dots r = 0%nat /\ r <> "worker"%string /\ dots wt = 0%nat
  | ObservedFloor _ _ _ _ _ _ => True
  end.

(** The region and the zone of a lag report have no dot. *)
Definition plainZone (o : Observation) : Prop :=
  match o with
  | ObservedLag _ r az _ _ _ _ _ => dots r = 0%nat /\ dots az = 0%nat
  | _ => True
  end.

(** The calls of the monitoring functions made for two requests of the
    pool [b2gtest] and one of the pool [gecko], the first of them
    fulfilled after three seconds. *)
Definition observed : list Observation :=
  [ObservedSubmitted "aws-provisioner" "us-west-2" "us-west-2a" "m3.large"
     "b2gtest" "sir-1" bidA;
   ObservedAmi "aws-provisioner" "us-west-2" "us-west-2a" "m3.large"
     "b2gtest" "ami-1";
   ObservedSubmitted "aws-provisioner" "us-east-1" "us-east-1c" "c4.xlarge"
     "gecko" "sir-2" bidB;
   ObservedFulfilled "aws-provisioner" "us-west-2" "us-west-2a" "m3.large"
     "b2gtest" "sir-1" "i-1" 3000;
   ObservedLag "aws-provisioner" "us-west-2" "us-west-2a" "m3.large"
     "b2gtest" "i-1" true 45000;
   ObservedSubmitted "aws-provisioner" "us-west-2" "us-west-2a" "m3.large"
     "b2gtest" "sir-3" bidA;
   ObservedLag "aws-provisioner" "us-east-1" "us-east-1c" "c4.xlarge"
     "gecko" "i-2" false 900000;
   ObservedFloor "us-west-2" "us-west-2a" "m3.large" 0 12 "floor";
   ObservedLag "aws-provisioner" "us-west-2" "us-west-2a" "m3.large"
     "b2gtest" "i-3" true 52000].

(** * Properties *)

Unset Implicit Arguments.

(** ** Promises *)

Lemma bind_resolved {A B} (m : Async A) (k : A -> Async B) t a :
  fate (m t) = Resolved a ->
  bind m k t =
  mkPromise (log (m t) ++ log (k a (settledAt (m t))))
    (settledAt (k a (settledAt (m t)))) (fate (k a (settledAt (m t)))).
Proof. intros H. unfold bind. rewrite H. reflexivity. Qed.

Lemma bind_rejected {A B} (m : Async A) (k : A -> Async B) t e :
  fate (m t) = Rejected e ->
  bind m k t = mkPromise (log (m t)) (settledAt (m t)) (Rejected e).
Proof. intros H. unfold bind. rewrite H. reflexivity. Qed.

Lemma promise_eta {A} (p : Promise A) :
  p = mkPromise (log p) (settledAt p) (fate p).
Proof. destruct p; reflexivity. Qed.

(** ** spawn *)

(** C1. Every [spawn] first writes the launch secret, at the instant it
    is called; when that write resolves, the spot request is submitted at
    the instant the write completed (never earlier), and it is the only
    other call; when the write rejects, [spawn] rejects with the same
    reason at that instant and no request is submitted. *)
Theorem spawn_secret_before_request
  (cfg : Collaborators) (wt : WorkerType) (bid : Bid) (t : Time) :
  exists (s : SecretEntity) (written : Time) (ok : bool) (rest : Trace),
    log (spawn cfg wt bid t) = mkEvent (SecretCreate s) t written ok :: rest
    /\ t <= written
    /\ secret_workerType s = workerType wt
    /\ secret_token s
       = securityToken (createLaunchSpec wt (region bid) (type bid))
    /\ if ok then
         exists li submitted accepted,
           rest = [mkEvent (RequestSpotInstance li bid) written submitted
                     accepted]
           /\ securityToken li = secret_token s
           /\ settledAt (spawn cfg wt bid t) = submitted
           /\ fate (spawn cfg wt bid t)
              = snd (awsManager_requestSpotInstance cfg li bid written)
       else
         rest = []
         /\ settledAt (spawn cfg wt bid t) = written
         /\ exists e,
              snd (Secret_create cfg s t) = Rejected e
              /\ fate (spawn cfg wt bid t) = Rejected e.
Proof.
  unfold spawn, bind, now, perform; simpl.
  set (li := createLaunchSpec wt (region bid) (type bid)).
  set (s := mkSecret _ _ _ _ _).
  destruct (Secret_create cfg s t) as [d [[]|e]] eqn:E; simpl.
  - exists s, (t + d), true; eexists; repeat split; try reflexivity; try lia.
    do 3 eexists; repeat split; reflexivity.
  - exists s, (t + d), false, []; repeat split; try reflexivity; try lia.
    exists e; rewrite E; split; reflexivity.
Qed.

(** With the secret store down, [spawn] rejects when the write does and
    its only call is that write. *)
Lemma spawn_without_secret_submits_nothing :
  let p := spawn secretStoreDown (pool "w" 1 [bidA]) bidA 1000 in
  fate p = Rejected "ETIMEDOUT"%string
  /\ settledAt p = 1007
  /\ filter isRequest (log p) = []
  /\ List.length (log p) = 1%nat.
Proof. vm_compute. repeat split. Qed.

(** *** Shape of the trace of one [spawn] *)

Lemma sequential_app (l1 l2 : Trace) (m : Time) :
  sequential l1 -> sequential l2 ->
  Forall (fun ev => ev_end ev <= m) l1 ->
  Forall (fun ev => m <= ev_start ev) l2 ->
  sequential (l1 ++ l2).
Proof.
  induction l1 as [|ev l1 IH]; simpl; intros S1 S2 B1 B2; [assumption|].
  destruct S1 as [F S1]. inversion B1 as [|? ? Bev B1']; subst.
  split.
  - apply Forall_app; split; [assumption|].
    eapply Forall_impl; [|exact B2]. simpl; intros; lia.
  - apply IH; assumption.
Qed.

Lemma within_app (a m b : Time) (l1 l2 : Trace) :
  within a m l1 -> within m b l2 -> a <= m -> m <= b ->
  within a b (l1 ++ l2).
Proof.
  unfold within; intros W1 W2 Ham Hmb. apply Forall_app; split.
  - eapply Forall_impl; [|exact W1]. simpl; intros; lia.
  - eapply Forall_impl; [|exact W2]. simpl; intros; lia.
Qed.

Lemma within_ends (a b : Time) (l : Trace) :
  within a b l -> Forall (fun ev => ev_end ev <= b) l.
Proof.
  unfold within; intros W; eapply Forall_impl; [|exact W].
  simpl; intros; lia.
Qed.

Lemma within_starts (a b : Time) (l : Trace) :
  within a b l -> Forall (fun ev => a <= ev_start ev) l.
Proof.
  unfold within; intros W; eapply Forall_impl; [|exact W].
  simpl; intros; lia.
Qed.

(** What [spawn] amounts to, by the answer of the secret store. *)
Lemma spawn_cases (cfg : Collaborators) (wt : WorkerType) (bid : Bid)
  (t : Time) :
  (exists s d e,
      spawn cfg wt bid t
      = mkPromise [mkEvent (SecretCreate s) t (t + d) false] (t + d)
          (Rejected e))
  \/ (exists s d li d' r,
         spawn cfg wt bid t
         = mkPromise
             [mkEvent (SecretCreate s) t (t + d) true;
              mkEvent (RequestSpotInstance li bid) (t + d) (t + d + d')
                (is_resolved r)]
             (t + d + d') r).
Proof.
  unfold spawn, bind, now, perform; simpl.
  set (li := mkLaunchInfo _ _ _ _).
  set (s := mkSecret _ _ _ _ _).
  destruct (Secret_create cfg s t) as [d [[]|e]]; simpl.
  - right. exists s, d, li.
    destruct (awsManager_requestSpotInstance cfg li bid (t + d)) as [d' r].
    exists d', r. reflexivity.
  - left. exists s, d, e. reflexivity.
Qed.

(** *** The bid chain *)

Lemma paced_app (ms : N) (l1 l2 : Trace) :
  paced ms l1 -> paced ms l2 -> paced ms (l1 ++ l2).
Proof.
  induction l1 as [|ev l1 IH]; simpl; intros P1 P2; [assumption|].
  destruct P1 as [Pev P1]. split; [|apply IH; assumption].
  intros H. destruct (Pev H) as [rest' ->]. exists (rest' ++ l2). reflexivity.
Qed.

Lemma spawnChain_snoc (cfg : Collaborators) (wt : WorkerType)
  (bids : list Bid) (b : Bid) :
  spawnChain cfg wt (bids ++ [b])
  = chainLink cfg wt (spawnChain cfg wt bids) b.
Proof. unfold spawnChain. rewrite fold_left_app. reflexivity. Qed.

(** A link added to a chain that has rejected changes nothing. *)
Lemma chainLink_rejected (cfg : Collaborators) (wt : WorkerType)
  (q : Async Val) (b : Bid) (t : Time) (e : Err) :
  fate (q t) = Rejected e ->
  chainLink cfg wt q b t = mkPromise (log (q t)) (settledAt (q t)) (Rejected e).
Proof.
  intros H. unfold chainLink.
  rewrite (bind_rejected _ _ t e).
  - rewrite (bind_rejected _ _ t e H). reflexivity.
  - rewrite (bind_rejected _ _ t e H). reflexivity.
Qed.

Lemma fold_chainLink_rejected (cfg : Collaborators) (wt : WorkerType)
  (post : list Bid) (q : Async Val) (t : Time) (e : Err) :
  fate (q t) = Rejected e ->
  fold_left (chainLink cfg wt) post q t
  = mkPromise (log (q t)) (settledAt (q t)) (Rejected e).
Proof.
  revert q. induction post as [|b post IH]; intros q H; simpl.
  - rewrite (promise_eta (q t)) at 1. rewrite H. reflexivity.
  - rewrite (IH (chainLink cfg wt q b));
      rewrite (chainLink_rejected cfg wt q b t e H); reflexivity.
Qed.

(** A link added to a chain that has resolved: the bid is spawned when
    the chain has settled; the delay follows when the spawn resolves. *)
Lemma chainLink_resolved (cfg : Collaborators) (wt : WorkerType)
  (q : Async Val) (b : Bid) (t : Time) (v : Val) :
  fate (q t) = Resolved v ->
  let s := spawn cfg wt b (settledAt (q t)) in
  chainLink cfg wt q b t
  = match fate s with
    | Resolved v' =>
        mkPromise
          (log (q t) ++ log s
           ++ [mkEvent (Delay 500) (settledAt s) (settledAt s + 500) true])
          (settledAt s + 500) (Resolved v')
    | Rejected e =>
        mkPromise (log (q t) ++ log s) (settledAt s) (Rejected e)
    end.
Proof.
  intros H s. unfold chainLink.
  assert (E : bind q (fun _ => spawn cfg wt b) t
              = mkPromise (log (q t) ++ log s) (settledAt s) (fate s)).
  { rewrite (bind_resolved _ _ t v H). reflexivity. }
  destruct (fate s) as [v'|e] eqn:Fs.
  - rewrite (bind_resolved _ _ t v'); rewrite E; simpl; [|reflexivity].
    unfold delayer, perform; simpl. rewrite <- app_assoc. reflexivity.
  - rewrite (bind_rejected _ _ t e); rewrite E; reflexivity.
Qed.

Ltac chain_counts :=
  repeat rewrite filter_app; repeat rewrite length_app; simpl; try lia.

Ltac explicit_trace :=
  unfold within; simpl; repeat constructor; simpl; try lia; try discriminate.

(** The invariant of the chain, by induction on the bids chained so
    far. *)
Lemma chain_shape (cfg : Collaborators) (wt : WorkerType) (bids : list Bid)
  (t : Time) :
  ChainShape (List.length bids) t (spawnChain cfg wt bids t).
Proof.
  induction bids as [|b bids IH] using rev_ind.
  - constructor; simpl; unfold within; auto; try lia.
  - rewrite spawnChain_snoc, length_app; simpl List.length.
    destruct IH as [Ht Hw Hs Hsub Hp Hsl Hrl Hres].
    destruct (fate (spawnChain cfg wt bids t)) as [v|e] eqn:F.
    + rewrite (chainLink_resolved cfg wt _ b t v F). cbv zeta.
      destruct (Hres eq_refl) as (Hr & Hsc & Hd & Hok).
      set (T := settledAt (spawnChain cfg wt bids t)) in *.
      destruct (spawn_cases cfg wt b T)
        as [(s & d & e & ->) | (s & d & li & d' & r & ->)]; simpl.
      * constructor; simpl; try discriminate.
        -- lia.
        -- apply within_app with (m := T);
             [assumption | explicit_trace | lia | lia].
        -- apply sequential_app with (m := T);
             [assumption | explicit_trace | eapply within_ends; eassumption
             | explicit_trace].
        -- apply Forall_app; split; [assumption | explicit_trace].
        -- apply paced_app; [assumption | explicit_trace].
        -- chain_counts.
        -- chain_counts.
      * destruct r as [v'|e]; constructor; simpl; try discriminate; try lia.
        all: try (apply within_app with (m := T);
                  [assumption | explicit_trace | lia | lia]).
        all: try (apply sequential_app with (m := T);
                  [assumption | explicit_trace
                  | eapply within_ends; eassumption | explicit_trace]).
        all: try (apply Forall_app; split; [assumption | explicit_trace]).
        all: try (apply paced_app; [assumption | explicit_trace]).
        all: try solve [chain_counts].
        -- intros _. eexists; reflexivity.
        -- intros _. repeat split; chain_counts.
           apply Forall_app; split; [assumption | explicit_trace].
    + rewrite (chainLink_rejected cfg wt _ b t e F).
      constructor; simpl; try assumption; try lia; try discriminate.
Qed.

Lemma submissions_no_report (l : Trace) :
  Forall (fun ev => isSubmission ev = true) l -> filter isReport l = [].
Proof.
  induction 1 as [|ev l H _ IH]; simpl; [reflexivity|].
  rewrite IH. unfold isSubmission, isSecretCreate, isRequest, isDelay in H.
  unfold isReport. destruct (ev_call ev); try discriminate; reflexivity.
Qed.

Lemma submissions_no_kill (l : Trace) :
  Forall (fun ev => isSubmission ev = true) l -> filter isKill l = [].
Proof.
  induction 1 as [|ev l H _ IH]; simpl; [reflexivity|].
  rewrite IH. unfold isSubmission, isSecretCreate, isRequest, isDelay in H.
  unfold isKill. destruct (ev_call ev); try discriminate; reflexivity.
Qed.

(** ** provisionType *)

(** [provisionType] when the queue answers. *)
Lemma provisionType_answered (cfg : Collaborators) (pid : string)
  (wt : WorkerType) (pricing : Pricing) (t : Time) (d : N) (n : Z) :
  queue_pendingTasks cfg pid (workerType wt) t = (d, Resolved n) ->
  let change := capacityChange cfg wt (t + d) n in
  let act :=
    (if (0 <? change)%Z
     then spawnChain cfg wt (bidsFor cfg wt pricing (t + d) n)
     else if (change <? 0)%Z then
       perform
         (KillCapacityOfWorkerType (workerType wt) (- change)
            [pending; spotReq])
         (awsManager_killCapacityOfWorkerType cfg wt (- change)
            [pending; spotReq])
     else ret None) (t + d) in
  provisionType cfg pid wt pricing t
  = mkPromise
      (mkEvent (PendingTasks pid (workerType wt)) t (t + d) true
       :: mkEvent
            (ReportProvisioningIteration
               (iterationReport cfg pid wt (t + d) n))
            (t + d) (t + d) true
       :: log act)
      (settledAt act) (fate act).
Proof.
  intros H. unfold provisionType, bind, perform, reportProvisioningIteration.
  rewrite H. reflexivity.
Qed.

(** [provisionType] when the queue fails. *)
Lemma provisionType_unanswered (cfg : Collaborators) (pid : string)
  (wt : WorkerType) (pricing : Pricing) (t : Time) (d : N) (e : Err) :
  queue_pendingTasks cfg pid (workerType wt) t = (d, Rejected e) ->
  provisionType cfg pid wt pricing t
  = mkPromise [mkEvent (PendingTasks pid (workerType wt)) t (t + d) false]
      (t + d) (Rejected e).
Proof.
  intros H. unfold provisionType, bind, perform. rewrite H. reflexivity.
Qed.

(** The trace of [provisionType] is sequential and paced whatever the
    collaborators answer. *)
Lemma provisionType_sequential_paced (cfg : Collaborators) (pid : string)
  (wt : WorkerType) (pr : Pricing) (t : Time) :
  sequential (log (provisionType cfg pid wt pr t))
  /\ paced 500 (log (provisionType cfg pid wt pr t))
  /\ within t (settledAt (provisionType cfg pid wt pr t))
       (log (provisionType cfg pid wt pr t)).
Proof.
  destruct (queue_pendingTasks cfg pid (workerType wt) t) as [d [n|e]] eqn:Hq.
  - rewrite (provisionType_answered cfg pid wt pr t d n Hq). cbv zeta.
    cbn [log settledAt].
    destruct (0 <? capacityChange cfg wt (t + d)%N n)%Z.
    + destruct (chain_shape cfg wt (bidsFor cfg wt pr (t + d) n) (t + d))
        as [Ht Hw Hs Hsub Hp Hsl Hrl Hall].
      pose proof (within_starts _ _ _ Hw) as Hst.
      split; [|split].
      * cbn [sequential]. split; [|split; [|assumption]].
        -- constructor; [simpl; lia|].
           eapply Forall_impl; [|exact Hst]. simpl; intros; lia.
        -- eapply Forall_impl; [|exact Hst]. simpl; intros; lia.
      * cbn [paced]. split; [discriminate|]. split; [discriminate|assumption].
      * unfold within in *. constructor; [simpl; lia|].
        constructor; [simpl; lia|].
        eapply Forall_impl; [|exact Hw]. simpl; intros; lia.
    + destruct (capacityChange cfg wt (t + d)%N n <? 0)%Z; simpl.
      * split; [|split]; explicit_trace.
      * split; [|split]; explicit_trace.
  - rewrite (provisionType_unanswered cfg pid wt pr t d e Hq). simpl.
    split; [|split]; explicit_trace.
Qed.

(** C3, as amended.  For a pool whose capacity change is positive,
    whatever the outcome of [provisionType]: no two calls of the
    reconciliation overlap in time (each has settled when the next is
    issued), every request that is accepted is followed at once by a delay
    of 500 ms, and no more requests are submitted than the bid resolver
    answered bids.  When the resolver answers as many bids as the change
    and [provisionType] resolves, the number of spot requests submitted
    equals the change, all were accepted, and there is one delay per
    bid. *)
Theorem scale_up_submits_bids_in_sequence
  (cfg : Collaborators) (pid : string) (wt : WorkerType) (pricing : Pricing)
  (t : Time) (d : N) (n : Z) :
  queue_pendingTasks cfg pid (workerType wt) t = (d, Resolved n) ->
  let change := capacityChange cfg wt (t + d) n in
  let bids := bidsFor cfg wt pricing (t + d) n in
  (0 < change)%Z ->
  let tr := log (provisionType cfg pid wt pricing t) in
  sequential tr
  /\ paced 500 tr
  /\ (List.length (filter isRequest tr) <= List.length bids)%nat
  /\ (forall v,
        Z.of_nat (List.length bids) = change ->
        fate (provisionType cfg pid wt pricing t) = Resolved v ->
        Z.of_nat (List.length (filter isRequest tr)) = change
        /\ Forall (fun ev => ev_ok ev = true) tr
        /\ Z.of_nat (List.length (filter isDelay tr)) = change).
Proof.
  intros Hq change bids Hpos tr.
  destruct (provisionType_sequential_paced cfg pid wt pricing t)
    as (Hseq & Hpaced & _).
  split; [exact Hseq|]. split; [exact Hpaced|].
  subst change bids tr.
  rewrite (provisionType_answered cfg pid wt pricing t d n Hq) in *.
  cbv zeta in *. apply Z.ltb_lt in Hpos. rewrite Hpos in *.
  cbn [log fate filter isRequest isDelay ev_call List.length] in *.
  destruct (chain_shape cfg wt (bidsFor cfg wt pricing (t + d) n) (t + d))
    as [Ht Hw Hs Hsub Hp Hsl Hrl Hall].
  split; [exact Hrl|].
  intros v Hbids Hres.
  rewrite Hres in Hall. destruct (Hall eq_refl) as (Hr & Hsc & Hd & Hok).
  split; [rewrite Hr; exact Hbids|].
  split; [repeat constructor; exact Hok|].
  rewrite Hd. exact Hbids.
Qed.

(** C5.  For a pool whose capacity change is negative, [provisionType]
    issues exactly one termination request, for the pool, for [- change]
    units (never more than [|change|]) and for the states [pending] and
    [spotReq] only, never [running]; it submits nothing. *)
Theorem scale_down_spares_running_capacity
  (cfg : Collaborators) (pid : string) (wt : WorkerType) (pricing : Pricing)
  (t : Time) (d : N) (n : Z) :
  queue_pendingTasks cfg pid (workerType wt) t = (d, Resolved n) ->
  let change := capacityChange cfg wt (t + d) n in
  (change < 0)%Z ->
  let tr := log (provisionType cfg pid wt pricing t) in
  (exists name k states settled ok,
      filter isKill tr
      = [mkEvent (KillCapacityOfWorkerType name k states) (t + d) settled ok]
      /\ name = workerType wt
      /\ k = (- change)%Z
      /\ (k <= Z.abs change)%Z
      /\ states = [pending; spotReq]
      /\ ~ In running states)
  /\ filter isSubmission tr = [].
Proof.
  intros Hq change Hneg. subst change.
  rewrite (provisionType_answered cfg pid wt pricing t d n Hq).
  cbv zeta.
  assert (H0 : (0 <? capacityChange cfg wt (t + d)%N n)%Z = false)
    by (apply Z.ltb_ge; lia).
  apply Z.ltb_lt in Hneg. rewrite H0, Hneg. simpl. split; [|reflexivity].
  do 5 eexists. split; [reflexivity|]. repeat split; try reflexivity.
  - apply Z.ltb_lt in Hneg. lia.
  - simpl. intros [H|[H|[]]]; discriminate.
Qed.

(** C6, as amended.  Every invocation of [provisionType] whose
    pending-tasks query resolves reports exactly one iteration record, with
    the provisioner, the pool, the pending tasks, the running capacity, the
    pending capacity and the change, whatever the sign of the change; when
    the change is zero that report and the query are its only calls: nothing
    is submitted and nothing is killed. *)
Theorem one_report_per_answered_reconciliation
  (cfg : Collaborators) (pid : string) (wt : WorkerType) (pricing : Pricing)
  (t : Time) (d : N) (n : Z) :
  queue_pendingTasks cfg pid (workerType wt) t = (d, Resolved n) ->
  let p := provisionType cfg pid wt pricing t in
  let report :=
    mkEvent
      (ReportProvisioningIteration
         (mkReport pid (workerType wt) n
            (awsManager_capacityForType cfg wt [running] (t + d))
            (awsManager_capacityForType cfg wt [pending; spotReq] (t + d))
            (capacityChange cfg wt (t + d) n)))
      (t + d) (t + d) true in
  filter isReport (log p) = [report]
  /\ (capacityChange cfg wt (t + d) n = 0%Z ->
      log p = [mkEvent (PendingTasks pid (workerType wt)) t (t + d) true;
               report]
      /\ filter isSubmission (log p) = []
      /\ filter isKill (log p) = []
      /\ fate p = Resolved None).
Proof.
  intros Hq.
  rewrite (provisionType_answered cfg pid wt pricing t d n Hq).
  cbv zeta. simpl. split.
  - unfold iterationReport. f_equal.
    destruct (0 <? capacityChange cfg wt (t + d)%N n)%Z.
    + apply submissions_no_report.
      exact (chain_submissions
               (chain_shape cfg wt (bidsFor cfg wt pricing (t + d) n)
                  (t + d))).
    + destruct (capacityChange cfg wt (t + d)%N n <? 0)%Z; reflexivity.
  - intros H0. unfold iterationReport. rewrite H0. simpl.
    repeat split; reflexivity.
Qed.

(** *** A failing bid *)

Lemma spawn_rejected_trace (cfg : Collaborators) (wt : WorkerType) (b : Bid)
  (T : Time) (e : Err) :
  fate (spawn cfg wt b T) = Rejected e ->
  let q := spawn cfg wt b T in
  T <= settledAt q
  /\ within T (settledAt q) (log q)
  /\ List.length (filter isSecretCreate (log q)) = 1%nat
  /\ (List.length (filter isRequest (log q)) <= 1)%nat
  /\ filter (fun ev => isRequest ev && ev_ok ev) (log q) = []
  /\ filter isKill (log q) = [].
Proof.
  cbv zeta.
  destruct (spawn_cases cfg wt b T)
    as [(s & d & e' & ->) | (s & d & li & d' & r & ->)]; simpl.
  - intros _. repeat split; explicit_trace.
  - intros ->. simpl. repeat split; explicit_trace.
Qed.

Lemma chain_first_failure (cfg : Collaborators) (wt : WorkerType)
  (pre : list Bid) (b : Bid) (post : list Bid) (t : Time) (v : Val)
  (e : Err) :
  fate (spawnChain cfg wt pre t) = Resolved v ->
  fate (spawn cfg wt b (settledAt (spawnChain cfg wt pre t))) = Rejected e ->
  spawnChain cfg wt (pre ++ b :: post) t
  = mkPromise
      (log (spawnChain cfg wt pre t)
       ++ log (spawn cfg wt b (settledAt (spawnChain cfg wt pre t))))
      (settledAt (spawn cfg wt b (settledAt (spawnChain cfg wt pre t))))
      (Rejected e).
Proof.
  intros Hpre Hb. unfold spawnChain at 1. rewrite fold_left_app. simpl.
  fold (spawnChain cfg wt pre).
  assert (E := chainLink_resolved cfg wt (spawnChain cfg wt pre) b t v Hpre).
  cbv zeta in E. rewrite Hb in E.
  rewrite (fold_chainLink_rejected cfg wt post _ t e); rewrite E; reflexivity.
Qed.

Lemma accepted_requests (l : Trace) :
  Forall (fun ev => ev_ok ev = true) l ->
  filter (fun ev => isRequest ev && ev_ok ev) l = filter isRequest l.
Proof.
  induction 1 as [|ev l H _ IH]; simpl; [reflexivity|].
  rewrite H, andb_true_r, IH. reflexivity.
Qed.

(** C10.  When the bids of a scale-up are [pre ++ b :: post], the spawns
    of [pre] resolve and the spawn of [b] rejects, the chain is the chain
    of [pre ++ [b]]: [provisionType] rejects, with the reason and at the
    instant of that rejection; one secret was written per bid of [pre] and
    one for [b], so no spawn was begun for a bid of [post]; the accepted
    requests are those of [pre]; and no call of the trace outlasts the
    rejection. *)
Theorem first_failed_spawn_ends_the_chain
  (cfg : Collaborators) (pid : string) (wt : WorkerType) (pricing : Pricing)
  (t : Time) (d : N) (n : Z) (pre : list Bid) (b : Bid) (post : list Bid)
  (v : Val) (e : Err) :
  queue_pendingTasks cfg pid (workerType wt) t = (d, Resolved n) ->
  (0 < capacityChange cfg wt (t + d)%N n)%Z ->
  bidsFor cfg wt pricing (t + d) n = pre ++ b :: post ->
  fate (spawnChain cfg wt pre (t + d)) = Resolved v ->
  fate (spawn cfg wt b (settledAt (spawnChain cfg wt pre (t + d))))
  = Rejected e ->
  let p := provisionType cfg pid wt pricing t in
  fate p = Rejected e
  /\ settledAt p
     = settledAt (spawn cfg wt b (settledAt (spawnChain cfg wt pre (t + d))))
  /\ spawnChain cfg wt (pre ++ b :: post) (t + d)
     = spawnChain cfg wt (pre ++ [b]) (t + d)
  /\ List.length (filter isSecretCreate (log p)) = S (List.length pre)
  /\ (List.length (filter isRequest (log p)) <= S (List.length pre))%nat
  /\ List.length (filter (fun ev => isRequest ev && ev_ok ev) (log p))
     = List.length pre
  /\ Forall (fun ev => ev_end ev <= settledAt p) (log p).
Proof.
  intros Hq Hpos Hbids Hpre Hb.
  rewrite (provisionType_answered cfg pid wt pricing t d n Hq).
  cbv zeta. apply Z.ltb_lt in Hpos. rewrite Hpos, Hbids.
  rewrite (chain_first_failure cfg wt pre b post (t + d) v e Hpre Hb).
  rewrite (chain_first_failure cfg wt pre b [] (t + d) v e Hpre Hb).
  destruct (chain_shape cfg wt pre (t + d))
    as [Ht Hw Hs Hsub Hp Hsl Hrl Hall].
  rewrite Hpre in Hall. destruct (Hall eq_refl) as (Hr & Hsc & Hd & Hok).
  destruct (spawn_rejected_trace cfg wt b _ e Hb)
    as (HT & HW & H1 & H2 & H3 & H4).
  set (c := spawnChain cfg wt pre (t + d)) in *.
  set (q := spawn cfg wt b (settledAt c)) in *.
  clearbody q c. simpl.
  split; [reflexivity|]. split; [reflexivity|]. split; [reflexivity|].
  split; [chain_counts|]. split; [chain_counts|]. split.
  - rewrite filter_app, H3, app_nil_r, (accepted_requests _ Hok). assumption.
  - repeat constructor; simpl; try lia.
    apply Forall_app; split.
    + eapply Forall_impl; [|apply (within_ends _ _ _ Hw)]. simpl; intros; lia.
    + apply (within_ends _ _ _ HW).
Qed.

(** C4.  When the bids of a scale-up are [pre ++ b :: post], the spawns
    of [pre] resolve and the spawn of [b] rejects: that rejection is the
    result of [provisionType], with its reason; the calls made for the bids
    of [pre] are all in the trace, each of them resolved, and their requests
    had been accepted before the failing spawn began; nothing is killed. *)
Theorem failed_bid_propagates_and_spares_earlier_bids
  (cfg : Collaborators) (pid : string) (wt : WorkerType) (pricing : Pricing)
  (t : Time) (d : N) (n : Z) (pre : list Bid) (b : Bid) (post : list Bid)
  (v : Val) (e : Err) :
  queue_pendingTasks cfg pid (workerType wt) t = (d, Resolved n) ->
  (0 < capacityChange cfg wt (t + d)%N n)%Z ->
  bidsFor cfg wt pricing (t + d) n = pre ++ b :: post ->
  fate (spawnChain cfg wt pre (t + d)) = Resolved v ->
  fate (spawn cfg wt b (settledAt (spawnChain cfg wt pre (t + d))))
  = Rejected e ->
  let p := provisionType cfg pid wt pricing t in
  let earlier := log (spawnChain cfg wt pre (t + d)) in
  fate p = Rejected e
  /\ incl earlier (log p)
  /\ List.length (filter isRequest earlier) = List.length pre
  /\ Forall
       (fun ev =>
          ev_ok ev = true
          /\ ev_end ev <= settledAt (spawnChain cfg wt pre (t + d)))
       earlier
  /\ filter isKill (log p) = [].
Proof.
  intros Hq Hpos Hbids Hpre Hb.
  rewrite (provisionType_answered cfg pid wt pricing t d n Hq).
  cbv zeta. apply Z.ltb_lt in Hpos. rewrite Hpos, Hbids.
  rewrite (chain_first_failure cfg wt pre b post (t + d) v e Hpre Hb).
  destruct (chain_shape cfg wt pre (t + d))
    as [Ht Hw Hs Hsub Hp Hsl Hrl Hall].
  rewrite Hpre in Hall. destruct (Hall eq_refl) as (Hr & Hsc & Hd & Hok).
  destruct (spawn_rejected_trace cfg wt b _ e Hb)
    as (HT & HW & H1 & H2 & H3 & H4).
  set (c := spawnChain cfg wt pre (t + d)) in *.
  set (q := spawn cfg wt b (settledAt c)) in *.
  clearbody q c. simpl. repeat split.
  - intros ev Hin. right; right. apply in_or_app; left; assumption.
  - assumption.
  - apply Forall_forall. intros ev Hin. split.
    + revert ev Hin. apply Forall_forall. assumption.
    + pose proof (within_ends _ _ _ Hw) as Hends.
      revert ev Hin. apply Forall_forall. assumption.
  - rewrite filter_app, H4, app_nil_r. apply submissions_no_kill; assumption.
Qed.

(** ** The sweep *)

Lemma startEach_spec {A B} (f : A -> Async B) (arr : list A) (t : Time) :
  startEach f arr t
  = mkPromise (flat_map (fun a => log (f a t)) arr) t
      (Resolved (map (fun a => f a t) arr)).
Proof.
  induction arr as [|a arr IH]; simpl; [reflexivity|].
  unfold bind at 1, start; simpl. unfold bind. rewrite IH. simpl.
  rewrite app_nil_r. reflexivity.
Qed.

Lemma Promise_all_log {A} (els : list (Elem A)) (t : Time) :
  log (Promise_all els t) = [].
Proof.
  unfold Promise_all. destruct (firstRejection els) as [[tr e]|]; reflexivity.
Qed.

(** The rejection that [Promise.all] reports is the earliest one. *)
Lemma firstRejection_thenables {A} (ps : list (Promise A)) :
  match firstRejection (map (@Thenable A) ps) with
  | None => Forall (fun p => is_resolved (fate p) = true) ps
  | Some (tr, e) =>
      (exists p, In p ps /\ fate p = Rejected e /\ settledAt p = tr)
      /\ Forall (fun p => is_resolved (fate p) = false -> tr <= settledAt p)
           ps
  end.
Proof.
  induction ps as [|p ps IH]; simpl; [constructor|].
  destruct (fate p) as [v|e] eqn:F.
  - destruct (firstRejection (map (@Thenable A) ps)) as [[tr e]|].
    + destruct IH as ((q & Hin & Hq & Ht) & Hall). split.
      * exists q; auto.
      * constructor; [rewrite F; discriminate | assumption].
    + constructor; [rewrite F; reflexivity | assumption].
  - destruct (firstRejection (map (@Thenable A) ps)) as [[tr e']|].
    + destruct IH as ((q & Hin & Hq & Ht) & Hall).
      destruct (settledAt p <=? tr) eqn:L.
      * apply N.leb_le in L. split.
        -- exists p; auto.
        -- constructor; [intros; lia|].
           eapply Forall_impl; [|exact Hall]. simpl; intros x Hx Hr.
           specialize (Hx Hr). lia.
      * apply N.leb_gt in L. split.
        -- exists q; auto.
        -- constructor; [intros; lia | assumption].
    + split.
      * exists p; auto.
      * constructor; [intros; lia|].
        eapply Forall_impl; [|exact IH]. simpl; intros x Hx Hr.
        rewrite Hx in Hr; discriminate.
Qed.

Lemma fanOut_spec (cfg : Collaborators) (pid : string)
  (wts : list WorkerType) (pr : Pricing) (t : Time) :
  let ps := map (fun w => provisionType cfg pid w pr t) wts in
  fanOut cfg pid wts pr t
  = mkPromise (flat_map (fun w => log (provisionType cfg pid w pr t)) wts)
      (settledAt (Promise_all (map (@Thenable Val) ps) t))
      (fate (Promise_all (map (@Thenable Val) ps) t)).
Proof.
  cbv zeta. unfold fanOut, bind. rewrite startEach_spec. simpl.
  rewrite Promise_all_log, app_nil_r. reflexivity.
Qed.

Lemma maintenance_log (cfg : Collaborators) (names : list string) (t : Time) :
  log (maintenance cfg names t)
  = maintenanceEvents cfg names t ++ map (keyPairEvent cfg t) names.
Proof.
  unfold maintenance, bind, start; simpl. rewrite startEach_spec. simpl.
  rewrite Promise_all_log, !app_nil_r. unfold maintenanceEvents; simpl.
  assert (E : flat_map
             (fun a : string =>
                log (perform (CreateKeyPair a)
                       (awsManager_createKeyPair cfg a) t)) names
              = map (keyPairEvent cfg t) names).
  { induction names as [|x names IH]; [reflexivity|].
    cbn [flat_map map]. rewrite IH. reflexivity. }
  simpl in E. rewrite E. reflexivity.
Qed.

(** When and how the maintenance settles, by the answers of the three
    calls that are awaited. *)
Lemma maintenance_outcome (cfg : Collaborators) (names : list string)
  (t : Time) :
  let m := maintenance cfg names t in
  let rouge := awsManager_rougeKiller cfg names t in
  let zombie := awsManager_zombieKiller cfg t in
  let tags := awsManager_ensureTags cfg t in
  if is_resolved (snd rouge) && is_resolved (snd zombie)
     && is_resolved (snd tags)
  then
    is_resolved (fate m) = true
    /\ settledAt m
       = N.max (t + fst rouge) (N.max (t + fst zombie) (t + fst tags))
  else
    exists e at_,
      fate m = Rejected e
      /\ settledAt m = at_
      /\ In (at_, Rejected e)
           [(t + fst rouge, snd rouge); (t + fst zombie, snd zombie);
            (t + fst tags, snd tags)]
      /\ Forall (fun r => is_resolved (snd r) = false -> at_ <= fst r)
           [(t + fst rouge, snd rouge); (t + fst zombie, snd zombie);
            (t + fst tags, snd tags)].
Proof.
  cbv zeta. unfold maintenance, bind, start; simpl. rewrite startEach_spec.
  simpl. unfold Promise_all, perform, cast; simpl.
  destruct (awsManager_rougeKiller cfg names t) as [a0 [[]|e0]];
    destruct (awsManager_zombieKiller cfg t) as [a1 [[]|e1]];
    destruct (awsManager_ensureTags cfg t) as [a2 [[]|e2]]; simpl;
    repeat match goal with
           | |- context [?x <=? ?y] =>
               let L := fresh "L" in
               destruct (x <=? y) eqn:L;
               [apply N.leb_le in L | apply N.leb_gt in L]
           end; simpl;
    try (split; [reflexivity | lia]);
    match goal with
    | |- exists e at_, Rejected ?ex = _ /\ N.max _ ?tx = _ /\ _ =>
        exists ex, tx
    end;
    (split; [reflexivity|]); (split; [lia|]);
    (split;
     [simpl; auto 6
     | repeat constructor; simpl; intros; try discriminate; lia]).
Qed.

(** The sweep when its three fetches resolve. *)
Lemma sweep_fetched (cfg : Collaborators) (pid : string) (t : Time)
  (d0 : N) (wts : list WorkerType) (d1 : N) (pr : Pricing) (d2 : N) :
  WorkerType_loadAll cfg t = (d0, Resolved wts) ->
  awsPricing cfg t = (d1, Resolved pr) ->
  awsManager_update cfg t = (d2, Resolved tt) ->
  let T1 := N.max (t + d0) (N.max (t + d1) (t + d2)) in
  let m := maintenance cfg (map workerType wts) T1 in
  runAllProvisionersOnce cfg pid t
  = match fate m with
    | Resolved _ =>
        let f := fanOut cfg pid wts pr (settledAt m) in
        mkPromise (fetchEvents t d0 d1 d2 ++ log m ++ log f) (settledAt f)
          (fate f)
    | Rejected e =>
        mkPromise (fetchEvents t d0 d1 d2 ++ log m) (settledAt m) (Rejected e)
    end.
Proof.
  intros H0 H1 H2. cbv zeta.
  unfold runAllProvisionersOnce.
  unfold bind at 1 2 3 4. unfold start, perform, Promise_all, cast.
  cbn [log settledAt fate].
  rewrite H0, H1, H2.
  cbn [log settledAt fate fst snd is_resolved firstRejection lastSettled
       values app].
  replace (N.max t (N.max (t + d0) (N.max (t + d1) (N.max (t + d2) 0))))
    with (N.max (t + d0) (N.max (t + d1) (t + d2))) by lia.
  unfold bind.
  destruct (fate (maintenance cfg (map workerType wts)
                    (N.max (t + d0) (N.max (t + d1) (t + d2)))));
    reflexivity.
Qed.

Lemma Promise_all_causal {A} (els : list (Elem A)) (t : Time) :
  t <= settledAt (Promise_all els t).
Proof.
  unfold Promise_all. destruct (firstRejection els) as [[tr e]|]; simpl; lia.
Qed.

Lemma provisionType_causal (cfg : Collaborators) (pid : string)
  (wt : WorkerType) (pr : Pricing) (t : Time) :
  t <= settledAt (provisionType cfg pid wt pr t).
Proof.
  destruct (queue_pendingTasks cfg pid (workerType wt) t) as [d [n|e]] eqn:Hq.
  - rewrite (provisionType_answered cfg pid wt pr t d n Hq). cbv zeta.
    cbn [settledAt].
    destruct (0 <? capacityChange cfg wt (t + d)%N n)%Z.
    + pose proof
        (chain_time
           (chain_shape cfg wt (bidsFor cfg wt pr (t + d) n) (t + d))).
      lia.
    + destruct (capacityChange cfg wt (t + d)%N n <? 0)%Z; simpl; lia.
  - rewrite (provisionType_unanswered cfg pid wt pr t d e Hq). simpl. lia.
Qed.

(** The calls that [provisionType] can make. *)
Lemma provisionType_calls (cfg : Collaborators) (pid : string)
  (wt : WorkerType) (pr : Pricing) (t : Time) :
  Forall
    (fun ev =>
       isPendingTasks ev || isReport ev || isSubmission ev || isKill ev = true)
    (log (provisionType cfg pid wt pr t)).
Proof.
  destruct (queue_pendingTasks cfg pid (workerType wt) t) as [d [n|e]] eqn:Hq.
  - rewrite (provisionType_answered cfg pid wt pr t d n Hq). cbv zeta.
    cbn [log]. constructor; [reflexivity|]. constructor; [reflexivity|].
    destruct (0 <? capacityChange cfg wt (t + d)%N n)%Z.
    + eapply Forall_impl;
        [|apply (chain_submissions
                   (chain_shape cfg wt (bidsFor cfg wt pr (t + d) n) (t + d)))].
      simpl. intros ev ->. rewrite orb_true_r. reflexivity.
    + destruct (capacityChange cfg wt (t + d)%N n <? 0)%Z; simpl;
        repeat constructor.
  - rewrite (provisionType_unanswered cfg pid wt pr t d e Hq).
    repeat constructor.
Qed.

Lemma fanOut_no_keyPair (cfg : Collaborators) (pid : string)
  (wts : list WorkerType) (pr : Pricing) (t : Time) :
  filter isCreateKeyPair (log (fanOut cfg pid wts pr t)) = [].
Proof.
  rewrite fanOut_spec. cbn [log].
  induction wts as [|w wts IH]; [reflexivity|].
  cbn [flat_map]. rewrite filter_app, IH, app_nil_r.
  pose proof (provisionType_calls cfg pid w pr t) as H.
  induction H as [|ev l Hev _ IHl]; [reflexivity|].
  cbn [filter]. rewrite IHl.
  unfold isPendingTasks, isReport, isSubmission, isSecretCreate, isRequest,
    isDelay, isKill in Hev.
  unfold isCreateKeyPair. destruct (ev_call ev); try discriminate; reflexivity.
Qed.

Lemma keyPairEvents_filter (cfg : Collaborators) (t : Time)
  (names : list string) :
  filter isCreateKeyPair (map (keyPairEvent cfg t) names)
  = map (keyPairEvent cfg t) names.
Proof.
  induction names as [|x names IH]; [reflexivity|].
  cbn [map filter]. unfold isCreateKeyPair at 1. cbn. rewrite IH. reflexivity.
Qed.

(** C9.  In a sweep whose fetches and maintenance resolve, when
    [provisionType] rejects for one pool: [provisionType] is still invoked
    for every pool, all at the instant the maintenance settled, and all the
    calls of each invocation are in the trace of the sweep; the sweep
    rejects, with the reason of a pool that rejected, no later than the
    given pool rejects. *)
Theorem failing_pool_does_not_stop_the_others
  (cfg : Collaborators) (pid : string) (t : Time)
  (d0 : N) (wts : list WorkerType) (d1 : N) (pr : Pricing) (d2 : N)
  (ms : list Maintained) (w : WorkerType) (e : Err) :
  WorkerType_loadAll cfg t = (d0, Resolved wts) ->
  awsPricing cfg t = (d1, Resolved pr) ->
  awsManager_update cfg t = (d2, Resolved tt) ->
  let T1 := N.max (t + d0) (N.max (t + d1) (t + d2)) in
  fate (maintenance cfg (map workerType wts) T1) = Resolved ms ->
  let T2 := settledAt (maintenance cfg (map workerType wts) T1) in
  In w wts ->
  fate (provisionType cfg pid w pr T2) = Rejected e ->
  let p := runAllProvisionersOnce cfg pid t in
  (forall w', In w' wts -> incl (log (provisionType cfg pid w' pr T2)) (log p))
  /\ (exists w' e',
         In w' wts
         /\ fate (provisionType cfg pid w' pr T2) = Rejected e'
         /\ fate p = Rejected e')
  /\ settledAt p <= settledAt (provisionType cfg pid w pr T2).
Proof.
  intros H0 H1 H2 T1 Hm T2 Hin Hw p.
  assert (E := sweep_fetched cfg pid t d0 wts d1 pr d2 H0 H1 H2).
  cbv zeta in E. fold T1 in E. rewrite Hm in E. fold T2 in E.
  rewrite fanOut_spec in E. subst p. rewrite E. clear E.
  cbn [log fate settledAt].
  set (ps := map (fun w0 => provisionType cfg pid w0 pr T2) wts).
  split; [|].
  - intros w' Hin' ev Hev. apply in_or_app; right. apply in_or_app; right.
    apply in_flat_map. exists w'; split; assumption.
  - pose proof (firstRejection_thenables ps) as FR.
    unfold Promise_all.
    destruct (firstRejection (map (@Thenable Val) ps)) as [[tr e']|].
    + destruct FR as ((q & Hq & Fq & Tq) & Hall). cbn [fate settledAt].
      split.
      * apply in_map_iff in Hq. destruct Hq as (w' & <- & Hw').
        exists w', e'. repeat split; assumption.
      * rewrite Forall_forall in Hall.
        assert (Hps : In (provisionType cfg pid w pr T2) ps)
          by (apply in_map_iff; exists w; split; [reflexivity | assumption]).
        specialize (Hall _ Hps). rewrite Hw in Hall. specialize (Hall eq_refl).
        pose proof (provisionType_causal cfg pid w pr T2). lia.
    + exfalso. rewrite Forall_forall in FR.
      assert (Hps : In (provisionType cfg pid w pr T2) ps)
        by (apply in_map_iff; exists w; split; [reflexivity | assumption]).
      specialize (FR _ Hps). rewrite Hw in FR. discriminate.
Qed.

(** C2, as amended.  In a sweep whose three fetches resolve, the rogue
    cleanup, the zombie cleanup, the tag hygiene and one [createKeyPair] per
    pool are all issued at the instant the last fetch resolved.  When the
    first three all resolve, the sweep settles only after each of them has
    settled.  When one of them rejects, the sweep rejects, with the reason
    and at the instant of the earliest of their rejections, and no pool is
    reconciled. *)
Theorem maintenance_started_and_three_awaited
  (cfg : Collaborators) (pid : string) (t : Time)
  (d0 : N) (wts : list WorkerType) (d1 : N) (pr : Pricing) (d2 : N) :
  WorkerType_loadAll cfg t = (d0, Resolved wts) ->
  awsPricing cfg t = (d1, Resolved pr) ->
  awsManager_update cfg t = (d2, Resolved tt) ->
  let T1 := N.max (t + d0) (N.max (t + d1) (t + d2)) in
  let names := map workerType wts in
  let p := runAllProvisionersOnce cfg pid t in
  let rouge := awsManager_rougeKiller cfg names T1 in
  let zombie := awsManager_zombieKiller cfg T1 in
  let tags := awsManager_ensureTags cfg T1 in
  let awaited :=
    [(T1 + fst rouge, snd rouge); (T1 + fst zombie, snd zombie);
     (T1 + fst tags, snd tags)] in
  incl (maintenanceEvents cfg names T1) (log p)
  /\ filter isCreateKeyPair (log p) = map (keyPairEvent cfg T1) names
  /\ if is_resolved (snd rouge) && is_resolved (snd zombie)
        && is_resolved (snd tags)
     then Forall (fun r => fst r <= settledAt p) awaited
     else
       exists e at_,
         fate p = Rejected e
         /\ settledAt p = at_
         /\ In (at_, Rejected e) awaited
         /\ Forall (fun r => is_resolved (snd r) = false -> at_ <= fst r)
              awaited
         /\ filter isPendingTasks (log p) = [].
Proof.
  intros H0 H1 H2 T1 names p rouge zombie tags awaited.
  assert (E := sweep_fetched cfg pid t d0 wts d1 pr d2 H0 H1 H2).
  cbv zeta in E. fold T1 names in E.
  pose proof (maintenance_log cfg names T1) as Hlog.
  pose proof (maintenance_outcome cfg names T1) as Hout.
  cbv zeta in Hout. fold rouge zombie tags awaited in Hout.
  assert (Hkp : filter isCreateKeyPair (log (maintenance cfg names T1))
                = map (keyPairEvent cfg T1) names).
  { rewrite Hlog, filter_app, keyPairEvents_filter. reflexivity. }
  destruct (is_resolved (snd rouge) && is_resolved (snd zombie)
            && is_resolved (snd tags)).
  - destruct Hout as (Hres & Hat).
    destruct (fate (maintenance cfg names T1)) as [ms|e]; [|discriminate].
    subst p. rewrite E. cbn [log settledAt fate].
    split; [|split].
    + intros ev Hev. apply in_or_app; right. apply in_or_app; left.
      rewrite Hlog. apply in_or_app; left; assumption.
    + rewrite !filter_app, Hkp, fanOut_no_keyPair, app_nil_r. reflexivity.
    + rewrite fanOut_spec. cbn [settledAt].
      match goal with
      | |- context [Promise_all ?els ?t0] =>
          pose proof (Promise_all_causal els t0) as Hc
      end.
      subst awaited.
      repeat constructor; cbn [fst]; lia.
  - destruct Hout as (e & at_ & Hf & Hat & Hin & Hall).
    rewrite Hf in E. subst p. rewrite E. cbn [log settledAt fate].
    split; [|split].
    + intros ev Hev. apply in_or_app; right.
      rewrite Hlog. apply in_or_app; left; assumption.
    + rewrite !filter_app, Hkp. reflexivity.
    + exists e, at_. repeat split; try assumption.
      rewrite filter_app, Hlog, filter_app.
      assert (Hk : filter isPendingTasks (map (keyPairEvent cfg T1) names)
                   = []).
      { clear. induction names as [|x names IH]; [reflexivity|].
        cbn [map filter]. unfold isPendingTasks at 1. cbn. exact IH. }
      rewrite Hk. reflexivity.
Qed.

(** ** The control loop *)

Lemma Provisioner_new_constructed (pid : string) (interval : N)
  (p0 : Provisioner) :
  Provisioner_new pid interval = Some p0 ->
  p0 = mkProvisioner interval 0 false (WatchDog_new MAX_PROVISION_ITERATION)
         (mkStats 0 0)
  /\ interval <> 0.
Proof.
  unfold Provisioner_new.
  destruct (pid =? "")%string; [discriminate|].
  destruct (interval =? 0) eqn:E; [discriminate|].
  apply N.eqb_neq in E. intros [= <-]. split; [reflexivity | assumption].
Qed.

Lemma iteration_constructed (interval : N) (t : Time) (p : Provisioner) :
  Constructed interval p -> Constructed interval (after (iteration t p)).
Proof.
  intros [Hi Hr Hm Hl]. unfold iteration. cbn [__stats consecFail].
  destruct (MAX_FAILURES <? consecFail (__stats p))%Z;
    constructor; simpl; assumption.
Qed.

Lemma repeat_snoc {A} (x : A) (k : nat) : repeat x k ++ [x] = repeat x (S k).
Proof.
  induction k as [|k IH]; simpl; [reflexivity|]. rewrite IH. reflexivity.
Qed.

Lemma react_constructed (interval : N) (once : bool) (pr : Process)
  (i : Input) :
  Constructed interval (provisioner pr) ->
  Constructed interval (provisioner (react once pr i)).
Proof.
  intros C. destruct i as [t| |k ok|k t]; cbn [react].
  - cbn [provisioner]. unfold run. apply iteration_constructed.
    destruct C as [Hi Hr Hm [n Hl]]. constructor; simpl; try assumption.
    exists (S n). rewrite Hl. apply repeat_snoc.
  - cbn [provisioner]. destruct C as [Hi Hr Hm Hl].
    constructor; simpl; assumption.
  - destruct (nth_error (calls pr) k) as [[| | |]|]; try assumption.
    cbn [resume provisioner]. destruct C as [Hi Hr Hm Hl].
    unfold sweepSettled.
    destruct ok as [v|e]; [|destruct (stackLogging e)];
      constructor; simpl; assumption.
  - destruct (nth_error (calls pr) k) as [[| | |]|]; try assumption.
    cbn [resume provisioner]. unfold delayElapsed.
    destruct (__keepRunning (provisioner pr) && negb once).
    + apply iteration_constructed; assumption.
    + assumption.
Qed.

Lemma execute_constructed (interval : N) (once : bool) (inputs : list Input)
  (pr : Process) :
  Constructed interval (provisioner pr) ->
  Constructed interval (provisioner (execute once pr inputs)).
Proof.
  revert pr. induction inputs as [|i inputs IH]; intros pr C; [assumption|].
  cbn [execute fold_left]. apply IH. apply react_constructed. assumption.
Qed.

Lemma emit_expiredListeners (k : nat) :
  emit (repeat expiredListener (S k))
  = ([ExitTimer MAX_KILL_TIME], Some (Error "WatchDog expired")).
Proof. reflexivity. Qed.

(** C7.  When the sweep that [run] awaits has settled, the counter of
    consecutive failures is zero if the sweep succeeded and one more than
    before if it failed, whatever the reason of the failure; [run] then
    goes on to the pause, except after a failure whose reason is [null],
    [undefined] or a value with a stack that has no [replace]: printing
    the stack then throws a TypeError and [run] throws it in turn.
    Every iteration, the first one of [run] and each one entered when the
    pause has elapsed, begins with the comparison of the counter with
    [MAX_FAILURES = 15]: when the counter exceeds it, the iteration calls
    [exitTimer] for [MAX_KILL_TIME = 30000] ms and throws, without starting
    a sweep and without counting a run; otherwise it starts one sweep. *)
Theorem consecutive_failures_counted_and_checked
  (PROVISION_ONCE : bool) (t : Time) (p : Provisioner) :
  MAX_FAILURES = 15%Z
  /\ MAX_KILL_TIME = 30000
  /\ (forall results,
        consecFail (__stats (after (sweepSettled (Resolved results) p)))
        = 0%Z)
  /\ (forall err,
        consecFail (__stats (after (sweepSettled (Rejected err) p)))
        = (consecFail (__stats p) + 1)%Z)
  /\ ((forall results,
         status (sweepSettled (Resolved results) p) = AwaitingDelay)
      /\ (forall err,
            status (sweepSettled (Rejected err) p)
            = match stackLogging err with
              | None => AwaitingDelay
              | Some typeError => Threw typeError
              end))
  /\ (exists p', run t p = iteration t p' /\ __stats p' = __stats p)
  /\ (__keepRunning p && negb PROVISION_ONCE = true ->
      delayElapsed PROVISION_ONCE t p = iteration t p)
  /\ ((MAX_FAILURES < consecFail (__stats p))%Z ->
      status (iteration t p) = Threw "provisioner is failing a lot"%string
      /\ In (ExitTimer MAX_KILL_TIME) (effects (iteration t p))
      /\ sweepsStarted (effects (iteration t p)) = 0%nat
      /\ __stats (after (iteration t p)) = __stats p)
  /\ ((consecFail (__stats p) <= MAX_FAILURES)%Z ->
      status (iteration t p) = AwaitingSweep
      /\ effects (iteration t p) = [Sweep t]
      /\ __stats (after (iteration t p))
         = mkStats (runs (__stats p) + 1) (consecFail (__stats p))).
Proof.
  assert (Hlt : forall q : Provisioner,
             (MAX_FAILURES < consecFail (__stats q))%Z ->
             (MAX_FAILURES <? consecFail (__stats q))%Z = true)
    by (intros q Hq; apply Z.ltb_lt; exact Hq).
  assert (Hge : forall q : Provisioner,
             (consecFail (__stats q) <= MAX_FAILURES)%Z ->
             (MAX_FAILURES <? consecFail (__stats q))%Z = false)
    by (intros q Hq; apply Z.ltb_ge; exact Hq).
  split; [reflexivity|]. split; [reflexivity|].
  split; [intros results; reflexivity|].
  split; [intros err; unfold sweepSettled; destruct (stackLogging err);
          reflexivity|].
  split; [split; [intros results; reflexivity|];
          intros err; unfold sweepSettled; destruct (stackLogging err);
          reflexivity|].
  repeat split; try reflexivity.
  - eexists; split; reflexivity.
  - unfold delayElapsed. intros ->. reflexivity.
  - unfold iteration; cbn [__stats]; rewrite (Hlt p H); reflexivity.
  - unfold iteration; cbn [__stats]; rewrite (Hlt p H); left; reflexivity.
  - unfold iteration; cbn [__stats]; rewrite (Hlt p H); reflexivity.
  - unfold iteration; cbn [__stats]; rewrite (Hlt p H); reflexivity.
  - unfold iteration; cbn [__stats]; rewrite (Hge p H); reflexivity.
  - unfold iteration; cbn [__stats]; rewrite (Hge p H); reflexivity.
  - unfold iteration; cbn [__stats]; rewrite (Hge p H); reflexivity.
Qed.

(** Sixteen sweeps that fail in a row end [run]: the seventeenth
    iteration throws, having started no sweep. *)
Lemma sixteen_failed_sweeps_are_fatal :
  let pr :=
    execute false (boot sampleProvisioner) (CallRun 0 :: failingSweeps 16 0)
  in
  Provisioner_new "aws-provisioner" 1000 = Some sampleProvisioner
  /\ calls pr = [Threw "provisioner is failing a lot"%string]
  /\ sweepsStarted (done pr) = 16%nat
  /\ __stats (provisioner pr) = mkStats 16 16
  /\ In (ExitTimer 30000) (done pr).
Proof.
  vm_compute. repeat split.
  repeat (first [left; reflexivity | right]).
Qed.

(** The same with the sweeps themselves: when the pool store is down,
    every sweep rejects, 20 ms after it started; [run], called once and left
    alone, starts sixteen sweeps, one every 1020 ms, and then throws. *)
Lemma run_gives_up_when_the_fleet_is_down :
  let pr := runAlone fleetDown "aws-provisioner" false 20 0 sampleProvisioner in
  fate (runAllProvisionersOnce fleetDown "aws-provisioner" 0)
  = Rejected "ECONNREFUSED"%string
  /\ calls pr = [Threw "provisioner is failing a lot"%string]
  /\ sweepsStarted (done pr) = 16%nat
  /\ provisioner pr = givenUp
  /\ nth_error (done pr) 2 = Some (Sweep 1020)
  /\ skipn 32 (done pr) = [ExitTimer 30000; ExitTimer 30000].
Proof. vm_compute. repeat split. Qed.

Lemma consecutive_failures_counted_and_checked_witness :
  ((MAX_FAILURES < consecFail (__stats givenUp))%Z
   /\ status (iteration 17340 givenUp)
      = Threw "provisioner is failing a lot"%string
   /\ sweepsStarted (effects (iteration 17340 givenUp)) = 0%nat)
  /\ ((consecFail (__stats sampleProvisioner) <= MAX_FAILURES)%Z
      /\ effects (iteration 0 sampleProvisioner) = [Sweep 0])
  /\ delayElapsed false 17340 givenUp = iteration 17340 givenUp.
Proof.
  assert (H16 : (MAX_FAILURES < consecFail (__stats givenUp))%Z)
    by reflexivity.
  assert (H0 : (consecFail (__stats sampleProvisioner) <= MAX_FAILURES)%Z)
    by (vm_compute; discriminate).
  assert (Hk : __keepRunning givenUp && negb false = true) by reflexivity.
  destruct (consecutive_failures_counted_and_checked false 17340 givenUp)
    as (_ & _ & _ & _ & _ & _ & Hloop & Hfatal & _).
  destruct (consecutive_failures_counted_and_checked false 0 sampleProvisioner)
    as (_ & _ & _ & _ & _ & _ & _ & _ & Hgo).
  destruct (Hfatal H16) as (Hs & _ & Hn & _).
  destruct (Hgo H0) as (_ & He & _).
  split; [split; [exact H16 | split; [exact Hs | exact Hn]]|].
  split; [split; [exact H0 | exact He]|].
  exact (Hloop Hk).
Defined.

(** [run] entered with the counter of consecutive failures at zero. *)
Lemma run_from_zero (t : Time) (p : Provisioner) :
  consecFail (__stats p) = 0%Z ->
  run t p
  = mkStep
      (mkProvisioner (provisionIterationInterval p) (__provRunId p) true
         (mkWatchDog (maxTime (__watchDog p)) true t
            (listeners (__watchDog p) ++ [expiredListener]))
         (mkStats (runs (__stats p) + 1) 0))
      [Sweep t] AwaitingSweep.
Proof.
  intros H. unfold run, iteration. cbn [__stats]. rewrite H. reflexivity.
Qed.

(** C8, as amended.  In any state that a constructed provisioner can
    reach, [stop()] clears the keep-running flag, disarms the watchdog and
    sets both counters to zero, and leaves every call of [run] in flight
    where it is.  A [run()] entered in the state that [stop()] leaves
    starts as a [run()] on a freshly constructed provisioner does: the same
    counters, the keep-running flag set, the watchdog armed from that
    instant (it expires at the same instants, with the same effect), and
    one sweep started. *)
Theorem stop_then_run_restarts_counters_and_watchdog
  (pid : string) (interval : N) (p0 : Provisioner) (PROVISION_ONCE : bool)
  (inputs : list Input) (t : Time) :
  Provisioner_new pid interval = Some p0 ->
  let earlier := execute PROVISION_ONCE (boot p0) inputs in
  let stopped := react PROVISION_ONCE earlier CallStop in
  let restarted := react PROVISION_ONCE stopped (CallRun t) in
  let fresh := react PROVISION_ONCE (boot p0) (CallRun t) in
  (__keepRunning (provisioner stopped) = false
   /\ monitored (__watchDog (provisioner stopped)) = false
   /\ __stats (provisioner stopped) = mkStats 0 0
   /\ calls stopped = calls earlier
   /\ done stopped = done earlier)
  /\ (__stats (provisioner restarted) = __stats (provisioner fresh)
      /\ __stats (provisioner fresh) = mkStats 1 0
      /\ __keepRunning (provisioner restarted) = true
      /\ __keepRunning (provisioner fresh) = true
      /\ monitored (__watchDog (provisioner restarted)) = true
      /\ lastTouch (__watchDog (provisioner restarted)) = t
      /\ (forall t',
             WatchDog_expired t' (__watchDog (provisioner restarted))
             = WatchDog_expired t' (__watchDog (provisioner fresh)))
      /\ emit (listeners (__watchDog (provisioner restarted)))
         = emit (listeners (__watchDog (provisioner fresh)))
      /\ calls restarted = calls earlier ++ [AwaitingSweep]
      /\ calls fresh = [AwaitingSweep]
      /\ done restarted = done earlier ++ [Sweep t]
      /\ done fresh = [Sweep t]).
Proof.
  intros Hnew earlier stopped restarted fresh.
  destruct (Provisioner_new_constructed pid interval p0 Hnew) as (-> & Hi).
  assert (C0 : Constructed interval
                 (provisioner
                    (boot (mkProvisioner interval 0 false
                             (WatchDog_new MAX_PROVISION_ITERATION)
                             (mkStats 0 0))))).
  { constructor; simpl; try reflexivity. exists O; reflexivity. }
  pose proof (execute_constructed interval PROVISION_ONCE inputs _ C0) as C.
  fold earlier in C. destruct C as [Ci Cr Cm [k Cl]].
  clearbody earlier. split.
  - repeat split; reflexivity.
  - subst restarted stopped fresh.
    cbn [react provisioner calls done boot].
    rewrite !run_from_zero by reflexivity.
    cbn [after effects status stop __stats __keepRunning __watchDog
         monitored lastTouch listeners maxTime runs WatchDog_stop
         WatchDog_new app].
    repeat split.
    + intros t'. unfold WatchDog_expired.
      cbn [monitored lastTouch maxTime]. rewrite Cm. reflexivity.
    + rewrite Cl, repeat_snoc. reflexivity.
Qed.

Lemma stop_then_run_restarts_counters_and_watchdog_witness :
  let earlier :=
    execute false (boot sampleProvisioner)
      (CallRun 0 :: failingSweeps 3 0) in
  let restarted := execute false earlier [CallStop; CallRun 5000] in
  Provisioner_new "aws-provisioner"%string 1000 = Some sampleProvisioner
  /\ __stats (provisioner earlier) = mkStats 4 3
  /\ __stats (provisioner restarted) = mkStats 1 0
  /\ lastTouch (__watchDog (provisioner restarted)) = 5000.
Proof.
  cbv zeta.
  assert (Hnew : Provisioner_new "aws-provisioner"%string 1000
                 = Some sampleProvisioner) by reflexivity.
  destruct (stop_then_run_restarts_counters_and_watchdog
              "aws-provisioner"%string 1000 sampleProvisioner false
              (CallRun 0 :: failingSweeps 3 0) 5000 Hnew)
    as (_ & Hs & Hf & _ & _ & _ & Ht & _).
  split; [exact Hnew|]. split; [reflexivity|].
  split; [exact (eq_trans Hs Hf) | exact Ht].
Defined.

(** C8 does not hold as stated.  A first [run()] is awaiting its sweep;
    [stop()] and then [run()] are called.  Two calls of [run] are now in
    flight, against one after a [run()] on a fresh provisioner.  When the
    sweep of the earlier call fails, the counter of consecutive failures of
    the restarted provisioner is 1 although the sweep of the new call has
    not settled; when its pause has elapsed, the earlier call finds the
    keep-running flag set and starts a further sweep.  And when [run()] is
    called only after the earlier call has finished, it starts with the
    counter at 1. *)
Lemma stop_then_run_is_not_a_fresh_start :
  let earlier := execute false (boot sampleProvisioner) [CallRun 0] in
  let restarted := execute false earlier [CallStop; CallRun 10] in
  let fresh := execute false (boot sampleProvisioner) [CallRun 10] in
  let later :=
    execute false restarted
      [SweepSettles 0 (Rejected "ECONNREFUSED"%string);
       DelayElapses 0 1010] in
  let idle :=
    execute false earlier
      [CallStop; SweepSettles 0 (Rejected "ECONNREFUSED"%string);
       DelayElapses 0 1010] in
  Provisioner_new "aws-provisioner"%string 1000 = Some sampleProvisioner
  /\ (liveCalls (calls restarted) = 2%nat /\ liveCalls (calls fresh) = 1%nat)
  /\ (__stats
        (provisioner
           (execute false restarted
              [SweepSettles 0 (Rejected "ECONNREFUSED"%string)]))
      = mkStats 1 1
      /\ __stats (provisioner fresh) = mkStats 1 0)
  /\ (calls later = [AwaitingSweep; AwaitingSweep]
      /\ sweepsStarted (done later) = 3%nat
      /\ sweepsStarted (done fresh) = 1%nat)
  /\ (calls idle = [Returned]
      /\ __stats (provisioner idle) = mkStats 0 1
      /\ __stats (provisioner (execute false idle [CallRun 2000]))
         = mkStats 1 1).
Proof. vm_compute. repeat split. Qed.

(** ** The properties on explicit inputs *)

Lemma scale_up_submits_bids_in_sequence_witness :
  let wt := pool "w" 2 [bidA; bidB] in
  let tr := log (provisionType (calm []) "aws-provisioner" wt noPricing 0) in
  let refused :=
    log (provisionType throttledEast "aws-provisioner"
           (pool "w" 2 [bidB; bidA]) noPricing 0) in
  (0 < capacityChange (calm []) wt 15%N 0)%Z
  /\ Z.of_nat (List.length (filter isRequest tr)) = 2%Z
  /\ sequential tr
  /\ paced 500 tr
  /\ (List.length (filter isRequest refused) = 1%nat
      /\ sequential refused
      /\ paced 500 refused).
Proof.
  cbv zeta.
  assert (Hq : queue_pendingTasks (calm []) "aws-provisioner"
                 (workerType (pool "w" 2 [bidA; bidB])) 0
               = (15, Resolved 0%Z)) by reflexivity.
  assert (Hpos : (0 < capacityChange (calm []) (pool "w" 2 [bidA; bidB])
                        15%N 0)%Z) by reflexivity.
  assert (Hb : Z.of_nat
                 (List.length
                    (bidsFor (calm []) (pool "w" 2 [bidA; bidB]) noPricing
                       15 0))
               = capacityChange (calm []) (pool "w" 2 [bidA; bidB]) 15%N 0)
    by reflexivity.
  assert (Hr : fate (provisionType (calm []) "aws-provisioner"
                       (pool "w" 2 [bidA; bidB]) noPricing 0)
               = Resolved (Some "sir-1"%string)) by reflexivity.
  assert (Hq' : queue_pendingTasks throttledEast "aws-provisioner"
                  (workerType (pool "w" 2 [bidB; bidA])) 0
                = (15, Resolved 0%Z)) by reflexivity.
  assert (Hpos' : (0 < capacityChange throttledEast
                         (pool "w" 2 [bidB; bidA]) 15%N 0)%Z)
    by reflexivity.
  destruct (scale_up_submits_bids_in_sequence (calm []) "aws-provisioner"
              (pool "w" 2 [bidA; bidB]) noPricing 0 15 0 Hq Hpos)
    as (H3 & H4 & _ & Hres).
  destruct (Hres _ Hb Hr) as (H1 & _).
  destruct (scale_up_submits_bids_in_sequence throttledEast
              "aws-provisioner" (pool "w" 2 [bidB; bidA]) noPricing 0 15 0
              Hq' Hpos')
    as (H3' & H4' & _).
  split; [exact Hpos|]. split; [exact H1|]. split; [exact H3|].
  split; [exact H4|]. split; [reflexivity|]. split; [exact H3' | exact H4'].
Defined.

(** C3 does not hold as stated.  The change of the pool is 2 and its
    resolver answers two bids, but the request for the first is refused:
    one request has been submitted, none accepted, and [provisionType]
    rejects. *)
Lemma scale_up_stops_short_of_the_change :
  let wt := pool "w" 2 [bidB; bidA] in
  let p := provisionType throttledEast "aws-provisioner" wt noPricing 0 in
  capacityChange throttledEast wt 15%N 0 = 2%Z
  /\ List.length (bidsFor throttledEast wt noPricing 15 0) = 2%nat
  /\ List.length (filter isRequest (log p)) = 1%nat
  /\ Z.of_nat (List.length (filter isRequest (log p)))
     <> capacityChange throttledEast wt 15%N 0
  /\ filter (fun ev => isRequest ev && ev_ok ev) (log p) = []
  /\ fate p = Rejected "RequestLimitExceeded"%string.
Proof. vm_compute. repeat split. discriminate. Qed.

Lemma scale_down_spares_running_capacity_witness :
  let wt := pool "w" (-3) [] in
  let tr := log (provisionType (calm []) "aws-provisioner" wt noPricing 0) in
  (capacityChange (calm []) wt 15%N 0 < 0)%Z
  /\ filter isKill tr
     = [mkEvent (KillCapacityOfWorkerType "w" 3 [pending; spotReq]) 15 55
          true]
  /\ filter isSubmission tr = [].
Proof.
  cbv zeta.
  assert (Hq : queue_pendingTasks (calm []) "aws-provisioner"
                 (workerType (pool "w" (-3) [])) 0
               = (15, Resolved 0%Z)) by reflexivity.
  assert (Hneg : (capacityChange (calm []) (pool "w" (-3) []) 15%N 0 < 0)%Z)
    by reflexivity.
  destruct (scale_down_spares_running_capacity (calm []) "aws-provisioner"
              (pool "w" (-3) []) noPricing 0 15 0 Hq Hneg) as (_ & H2).
  split; [exact Hneg|]. split; [reflexivity | exact H2].
Defined.

Lemma one_report_per_answered_reconciliation_witness :
  let wt := pool "w" 0 [] in
  let p := provisionType (calm []) "aws-provisioner" wt noPricing 0 in
  capacityChange (calm []) wt 15%N 0 = 0%Z
  /\ List.length (filter isReport (log p)) = 1%nat
  /\ filter isSubmission (log p) = []
  /\ filter isKill (log p) = [].
Proof.
  cbv zeta.
  assert (Hq : queue_pendingTasks (calm []) "aws-provisioner"
                 (workerType (pool "w" 0 [])) 0
               = (15, Resolved 0%Z)) by reflexivity.
  assert (H0 : capacityChange (calm []) (pool "w" 0 []) 15%N 0 = 0%Z)
    by reflexivity.
  destruct (one_report_per_answered_reconciliation (calm []) "aws-provisioner"
              (pool "w" 0 []) noPricing 0 15 0 Hq) as (H1 & H2).
  destruct (H2 H0) as (_ & H3 & H4 & _).
  split; [exact H0|]. split; [|split; [exact H3 | exact H4]].
  exact (f_equal (@List.length Event) H1).
Defined.

(** C6 does not hold as stated.  The queue does not answer:
    [provisionType] rejects and has reported nothing. *)
Lemma no_report_when_the_queue_fails :
  let p :=
    provisionType queueDown "aws-provisioner" (pool "w" 2 [bidA; bidB])
      noPricing 0 in
  filter isReport (log p) = []
  /\ List.length (filter isReport (log p)) <> 1%nat
  /\ log p = [mkEvent (PendingTasks "aws-provisioner" "w") 0 15 false]
  /\ fate p = Rejected "ECONNRESET"%string.
Proof. vm_compute. repeat split. discriminate. Qed.

Lemma first_failed_spawn_ends_the_chain_witness :
  let wt := pool "w" 3 [bidA; bidB; bidA] in
  let p := provisionType throttledEast "aws-provisioner" wt noPricing 0 in
  bidsFor throttledEast wt noPricing 15 0 = [bidA] ++ bidB :: [bidA]
  /\ fate p = Rejected "RequestLimitExceeded"%string
  /\ List.length (filter isSecretCreate (log p)) = 2%nat
  /\ List.length (filter (fun ev => isRequest ev && ev_ok ev) (log p)) = 1%nat.
Proof.
  cbv zeta.
  assert (Hq : queue_pendingTasks throttledEast "aws-provisioner"
                 (workerType (pool "w" 3 [bidA; bidB; bidA])) 0
               = (15, Resolved 0%Z)) by reflexivity.
  assert (Hpos : (0 < capacityChange throttledEast
                        (pool "w" 3 [bidA; bidB; bidA]) 15%N 0)%Z)
    by reflexivity.
  assert (Hb : bidsFor throttledEast (pool "w" 3 [bidA; bidB; bidA])
                 noPricing 15 0 = [bidA] ++ bidB :: [bidA]) by reflexivity.
  assert (Hpre : fate (spawnChain throttledEast
                         (pool "w" 3 [bidA; bidB; bidA]) [bidA] (0 + 15))
                 = Resolved (Some "sir-1"%string)) by reflexivity.
  assert (Hf : fate (spawn throttledEast (pool "w" 3 [bidA; bidB; bidA]) bidB
                       (settledAt
                          (spawnChain throttledEast
                             (pool "w" 3 [bidA; bidB; bidA]) [bidA] (0 + 15))))
               = Rejected "RequestLimitExceeded"%string) by reflexivity.
  destruct (first_failed_spawn_ends_the_chain throttledEast "aws-provisioner"
              (pool "w" 3 [bidA; bidB; bidA]) noPricing 0 15 0 [bidA] bidB
              [bidA] _ _ Hq Hpos Hb Hpre Hf)
    as (H1 & _ & _ & H4 & _ & H6 & _).
  split; [exact Hb|]. split; [exact H1|]. split; [exact H4 | exact H6].
Defined.

Lemma failed_bid_propagates_and_spares_earlier_bids_witness :
  let wt := pool "w" 3 [bidA; bidB; bidA] in
  let p := provisionType throttledEast "aws-provisioner" wt noPricing 0 in
  bidsFor throttledEast wt noPricing 15 0 = [bidA] ++ bidB :: [bidA]
  /\ fate p = Rejected "RequestLimitExceeded"%string
  /\ incl (log (spawnChain throttledEast wt [bidA] (0 + 15))) (log p)
  /\ filter isKill (log p) = [].
Proof.
  cbv zeta.
  assert (Hq : queue_pendingTasks throttledEast "aws-provisioner"
                 (workerType (pool "w" 3 [bidA; bidB; bidA])) 0
               = (15, Resolved 0%Z)) by reflexivity.
  assert (Hpos : (0 < capacityChange throttledEast
                        (pool "w" 3 [bidA; bidB; bidA]) 15%N 0)%Z)
    by reflexivity.
  assert (Hb : bidsFor throttledEast (pool "w" 3 [bidA; bidB; bidA])
                 noPricing 15 0 = [bidA] ++ bidB :: [bidA]) by reflexivity.
  assert (Hpre : fate (spawnChain throttledEast
                         (pool "w" 3 [bidA; bidB; bidA]) [bidA] (0 + 15))
                 = Resolved (Some "sir-1"%string)) by reflexivity.
  assert (Hf : fate (spawn throttledEast (pool "w" 3 [bidA; bidB; bidA]) bidB
                       (settledAt
                          (spawnChain throttledEast
                             (pool "w" 3 [bidA; bidB; bidA]) [bidA] (0 + 15))))
               = Rejected "RequestLimitExceeded"%string) by reflexivity.
  destruct (failed_bid_propagates_and_spares_earlier_bids throttledEast
              "aws-provisioner" (pool "w" 3 [bidA; bidB; bidA]) noPricing 0 15
              0 [bidA] bidB [bidA] _ _ Hq Hpos Hb Hpre Hf)
    as (H1 & H2 & _ & _ & H5).
  split; [exact Hb|]. split; [exact H1|]. split; [exact H2 | exact H5].
Defined.

Lemma failing_pool_does_not_stop_the_others_witness :
  let a := pool "a" 1 [bidB] in
  let b := pool "b" (-1) [] in
  let p := runAllProvisionersOnce (throttled [a; b]) "aws-provisioner" 0 in
  fate (provisionType (throttled [a; b]) "aws-provisioner" a noPricing 35)
  = Rejected "RequestLimitExceeded"%string
  /\ incl (log (provisionType (throttled [a; b]) "aws-provisioner" b
                  noPricing 35))
       (log p)
  /\ is_resolved (fate p) = false
  /\ settledAt p <= 157.
Proof.
  cbv zeta.
  set (a := pool "a" 1 [bidB]). set (b := pool "b" (-1) []).
  set (cfg := throttled [a; b]).
  assert (H0 : WorkerType_loadAll cfg 0 = (20, Resolved [a; b]))
    by reflexivity.
  assert (H1 : awsPricing cfg 0 = (30, Resolved noPricing)) by reflexivity.
  assert (H2 : awsManager_update cfg 0 = (10, Resolved tt)) by reflexivity.
  assert (Hm : fate (maintenance cfg (map workerType [a; b])
                       (N.max (0 + 20) (N.max (0 + 30) (0 + 10))))
               = Resolved
                   [MaintainedDone; MaintainedDone; MaintainedDone;
                    MaintainedKeyPairs
                      [mkPromise [mkEvent (CreateKeyPair "a") 30 35 true] 35
                         (Resolved tt);
                       mkPromise [mkEvent (CreateKeyPair "b") 30 35 true] 35
                         (Resolved tt)]]) by reflexivity.
  assert (Hin : In a [a; b]) by (left; reflexivity).
  assert (Hw : fate (provisionType cfg "aws-provisioner" a noPricing
                       (settledAt
                          (maintenance cfg (map workerType [a; b])
                             (N.max (0 + 20) (N.max (0 + 30) (0 + 10))))))
               = Rejected "RequestLimitExceeded"%string) by reflexivity.
  destruct (failing_pool_does_not_stop_the_others cfg "aws-provisioner" 0 20
              [a; b] 30 noPricing 10 _ a _ H0 H1 H2 Hm Hin Hw)
    as (Hall & (w' & e' & _ & _ & Hrej) & Hat).
  split; [exact Hw|].
  split; [exact (Hall b (or_intror (or_introl eq_refl)))|].
  split; [rewrite Hrej; reflexivity | exact Hat].
Defined.

Lemma maintenance_started_and_three_awaited_witness :
  let pools := [pool "a" 1 [bidA]; pool "b" (-1) []] in
  let p := runAllProvisionersOnce (calm pools) "aws-provisioner" 0 in
  WorkerType_loadAll (calm pools) 0 = (20, Resolved pools)
  /\ incl (maintenanceEvents (calm pools) ["a"; "b"]%string 30) (log p)
  /\ filter isCreateKeyPair (log p)
     = [mkEvent (CreateKeyPair "a") 30 35 true;
        mkEvent (CreateKeyPair "b") 30 35 true]
  /\ 35 <= settledAt p.
Proof.
  cbv zeta.
  set (pools := [pool "a" 1 [bidA]; pool "b" (-1) []]).
  assert (H0 : WorkerType_loadAll (calm pools) 0 = (20, Resolved pools))
    by reflexivity.
  assert (H1 : awsPricing (calm pools) 0 = (30, Resolved noPricing))
    by reflexivity.
  assert (H2 : awsManager_update (calm pools) 0 = (10, Resolved tt))
    by reflexivity.
  destruct (maintenance_started_and_three_awaited (calm pools)
              "aws-provisioner" 0 20 pools 30 noPricing 10 H0 H1 H2)
    as (Hstarted & Hkeys & Hawaited).
  split; [exact H0|]. split; [exact Hstarted|]. split; [exact Hkeys|].
  exact (Forall_inv Hawaited).
Defined.

(** C2 does not hold as stated.  When the rogue cleanup fails after 5 ms,
    the sweep rejects at once, at instant 35, though the zombie cleanup
    issued at instant 30 settles at instant 1030 only.  And when creating
    the key pair of the pool fails, after five seconds, the sweep resolves
    at instant 50: it has neither waited for that call nor failed. *)
Lemma sweep_settles_before_its_maintenance :
  let pools := [pool "a" 0 []] in
  let early :=
    runAllProvisionersOnce (rougeFailsEarly pools) "aws-provisioner" 0 in
  let unawaited :=
    runAllProvisionersOnce (keyPairFails pools) "aws-provisioner" 0 in
  (fate early = Rejected "RequestLimitExceeded"%string
   /\ settledAt early = 35
   /\ In (mkEvent ZombieKiller 30 1030 true) (log early))
  /\ (fate unawaited = Resolved [None]
      /\ settledAt unawaited = 50
      /\ In (mkEvent (CreateKeyPair "a") 30 5030 false) (log unawaited)).
Proof.
  vm_compute. repeat split; repeat (first [left; reflexivity | right]).
Qed.

(** * Further properties *)

(** ** More about the bid chain *)

Lemma sequential_paced_gap (ms : N) (l1 : Trace) (r1 : Event) (l2 : Trace)
  (r2 : Event) (l3 : Trace) :
  sequential (l1 ++ r1 :: l2 ++ r2 :: l3) ->
  paced ms (l1 ++ r1 :: l2 ++ r2 :: l3) ->
  isRequest r1 && ev_ok r1 = true ->
  isRequest r2 = true ->
  ev_end r1 + ms <= ev_start r2.
Proof.
  induction l1 as [|x l1 IH]; cbn [app sequential paced].
  - intros [_ Hs] [Hp _] H1 H2.
    destruct (Hp H1) as [rest' Hrest].
    destruct l2 as [|dl l2]; cbn [app] in Hrest.
    + injection Hrest as Hr2 _. rewrite Hr2 in H2. discriminate.
    + injection Hrest as Hdl Hl2. subst dl.
      cbn [app sequential] in Hs. destruct Hs as [Hlater _].
      rewrite Forall_forall in Hlater.
      assert (Hin : In r2 (l2 ++ r2 :: l3))
        by (apply in_or_app; right; left; reflexivity).
      specialize (Hlater r2 Hin). simpl in Hlater. exact Hlater.
  - intros [_ Hs] [_ Hp]. apply IH; assumption.
Qed.

(** X1: in the calls of one [provisionType], a spot request that was
    accepted and any spot request submitted after it are half a second
    apart at least: the later one is submitted 500 ms or more after the
    earlier one was answered. *)
Theorem requests_of_a_pool_are_half_a_second_apart
  (cfg : Collaborators) (pid : string) (wt : WorkerType) (pr : Pricing)
  (t : Time) (l1 : Trace) (r1 : Event) (l2 : Trace) (r2 : Event)
  (l3 : Trace) :
  log (provisionType cfg pid wt pr t) = l1 ++ r1 :: l2 ++ r2 :: l3 ->
  isRequest r1 = true -> ev_ok r1 = true ->
  isRequest r2 = true ->
  ev_end r1 + 500 <= ev_start r2.
Proof.
  intros Hlog H1 Hok H2.
  destruct (provisionType_sequential_paced cfg pid wt pr t) as (Hs & Hp & _).
  rewrite Hlog in Hs, Hp.
  apply (sequential_paced_gap 500 l1 r1 l2 r2 l3 Hs Hp); [|exact H2].
  rewrite H1, Hok. reflexivity.
Qed.

Lemma spawn_causal (cfg : Collaborators) (wt : WorkerType) (b : Bid)
  (t : Time) : t <= settledAt (spawn cfg wt b t).
Proof.
  destruct (spawn_cases cfg wt b t)
    as [(s & d & e & ->) | (s & d & li & d' & r & ->)]; simpl; lia.
Qed.

(** [spawn] when it resolves: the request that answered. *)
Lemma spawn_resolved (cfg : Collaborators) (wt : WorkerType) (b : Bid)
  (t : Time) (v : Val) :
  fate (spawn cfg wt b t) = Resolved v ->
  exists s written li,
    log (spawn cfg wt b t)
    = [mkEvent (SecretCreate s) t written true;
       mkEvent (RequestSpotInstance li b) written
         (settledAt (spawn cfg wt b t)) true]
    /\ awsManager_requestSpotInstance cfg li b written
       = (settledAt (spawn cfg wt b t) - written, Resolved v)
    /\ written <= settledAt (spawn cfg wt b t).
Proof.
  unfold spawn, bind, now, perform; simpl.
  set (li := mkLaunchInfo _ _ _ _).
  set (s := mkSecret _ _ _ _ _).
  destruct (Secret_create cfg s t) as [d [[]|e]]; simpl; [|discriminate].
  destruct (awsManager_requestSpotInstance cfg li b (t + d)) as [d' r] eqn:R.
  simpl. intros ->. exists s, (t + d), li. simpl. rewrite R.
  repeat split; try lia. f_equal. lia.
Qed.

(** The last link of a chain that resolves. *)
Lemma chain_last_link (cfg : Collaborators) (wt : WorkerType)
  (pre : list Bid) (b : Bid) (t : Time) (v : Val) :
  fate (spawnChain cfg wt (pre ++ [b]) t) = Resolved v ->
  exists v0,
    fate (spawnChain cfg wt pre t) = Resolved v0
    /\ fate (spawn cfg wt b (settledAt (spawnChain cfg wt pre t)))
       = Resolved v
    /\ log (spawnChain cfg wt (pre ++ [b]) t)
       = log (spawnChain cfg wt pre t)
         ++ log (spawn cfg wt b (settledAt (spawnChain cfg wt pre t)))
         ++ [mkEvent (Delay 500)
               (settledAt
                  (spawn cfg wt b (settledAt (spawnChain cfg wt pre t))))
               (settledAt
                  (spawn cfg wt b (settledAt (spawnChain cfg wt pre t)))
                + 500) true]
    /\ settledAt (spawnChain cfg wt (pre ++ [b]) t)
       = settledAt (spawn cfg wt b (settledAt (spawnChain cfg wt pre t)))
         + 500.
Proof.
  rewrite spawnChain_snoc.
  destruct (fate (spawnChain cfg wt pre t)) as [v0|e] eqn:F.
  - rewrite (chainLink_resolved cfg wt _ b t v0 F). cbv zeta.
    destruct (fate (spawn cfg wt b (settledAt (spawnChain cfg wt pre t))))
      as [v'|e]; simpl; [|discriminate].
    intros [= ->]. exists v0. repeat split; reflexivity.
  - rewrite (chainLink_rejected cfg wt _ b t e F). discriminate.
Qed.

(** A chain that resolves has lasted half a second per bid at least. *)
Lemma chain_duration (cfg : Collaborators) (wt : WorkerType)
  (bids : list Bid) (t : Time) :
  is_resolved (fate (spawnChain cfg wt bids t)) = true ->
  t + 500 * N.of_nat (List.length bids) <= settledAt (spawnChain cfg wt bids t).
Proof.
  induction bids as [|b bids IH] using rev_ind.
  - simpl. lia.
  - intros H. destruct (fate (spawnChain cfg wt (bids ++ [b]) t)) as [v|]
      eqn:F; [|discriminate].
    destruct (chain_last_link cfg wt bids b t v F) as (v0 & F0 & _ & _ & ->).
    rewrite F0 in IH. specialize (IH eq_refl).
    pose proof (spawn_causal cfg wt b (settledAt (spawnChain cfg wt bids t))).
    rewrite length_app. simpl List.length. lia.
Qed.

(** A chain that rejects ends with the call that failed. *)
Lemma chain_rejected_last (cfg : Collaborators) (wt : WorkerType)
  (bids : list Bid) (t : Time) :
  is_resolved (fate (spawnChain cfg wt bids t)) = false ->
  exists l ev,
    log (spawnChain cfg wt bids t) = l ++ [ev]
    /\ ev_ok ev = false
    /\ ev_end ev = settledAt (spawnChain cfg wt bids t)
    /\ Forall (fun x => ev_ok x = true) l.
Proof.
  induction bids as [|b bids IH] using rev_ind; [discriminate|].
  rewrite spawnChain_snoc.
  destruct (fate (spawnChain cfg wt bids t)) as [v0|e0] eqn:F.
  - rewrite (chainLink_resolved cfg wt _ b t v0 F). cbv zeta.
    pose proof (chain_resolved
                  (chain_shape cfg wt bids t)) as Hall.
    rewrite F in Hall. destruct (Hall eq_refl) as (_ & _ & _ & Hok).
    destruct (spawn_cases cfg wt b (settledAt (spawnChain cfg wt bids t)))
      as [(s & d & e' & ->) | (s & d & li & d' & r & ->)]; simpl.
    + intros _. eexists; eexists. split; [reflexivity|].
      repeat split; assumption.
    + destruct r as [v'|e']; simpl; [discriminate|]. intros _.
      exists (log (spawnChain cfg wt bids t)
              ++ [mkEvent (SecretCreate s)
                    (settledAt (spawnChain cfg wt bids t))
                    (settledAt (spawnChain cfg wt bids t) + d) true]).
      eexists. split; [rewrite <- app_assoc; reflexivity|].
      repeat split. apply Forall_app; split; [assumption|].
      repeat constructor.
  - rewrite (chainLink_rejected cfg wt _ b t e0 F). simpl. intros _.
    apply (IH eq_refl).
Qed.

(** ** More about provisionType *)

(** X2: when [provisionType] scales a pool up and resolves, its value
    is the answer of [requestSpotInstance] to the last bid, and it settles
    500 ms after that answer. *)
Theorem scale_up_resolves_with_the_last_request
  (cfg : Collaborators) (pid : string) (wt : WorkerType) (pricing : Pricing)
  (t : Time) (d : N) (n : Z) (pre : list Bid) (b : Bid) (v : Val) :
  queue_pendingTasks cfg pid (workerType wt) t = (d, Resolved n) ->
  (0 < capacityChange cfg wt (t + d)%N n)%Z ->
  bidsFor cfg wt pricing (t + d) n = pre ++ [b] ->
  fate (provisionType cfg pid wt pricing t) = Resolved v ->
  let p := provisionType cfg pid wt pricing t in
  exists li submitted accepted,
    In (mkEvent (RequestSpotInstance li b) submitted accepted true) (log p)
    /\ awsManager_requestSpotInstance cfg li b submitted
       = (accepted - submitted, Resolved v)
    /\ submitted <= accepted
    /\ settledAt p = accepted + 500.
Proof.
  intros Hq Hpos Hbids. cbv zeta.
  rewrite (provisionType_answered cfg pid wt pricing t d n Hq).
  cbv zeta. apply Z.ltb_lt in Hpos. rewrite Hpos, Hbids.
  cbn [log settledAt fate]. intros Hres.
  destruct (chain_last_link cfg wt pre b (t + d) v Hres)
    as (v0 & F0 & Fb & Hlog & Hat).
  destruct (spawn_resolved cfg wt b _ v Fb)
    as (s & written & li & Hs & Hr & Hle).
  exists li, written,
    (settledAt (spawn cfg wt b (settledAt (spawnChain cfg wt pre (t + d))))).
  repeat split; try assumption.
  right; right. rewrite Hlog. apply in_or_app; right. apply in_or_app; left.
  rewrite Hs. right; left; reflexivity.
Qed.

(** X3: when the change of a pool is positive but [determineSpotBids]
    answers no bid, [provisionType] resolves with [undefined] as soon as
    the queue has answered: it has asked the queue and reported, and has
    written no secret, submitted no request and waited for no delay. *)
Theorem scale_up_without_bids_submits_nothing
  (cfg : Collaborators) (pid : string) (wt : WorkerType) (pricing : Pricing)
  (t : Time) (d : N) (n : Z) :
  queue_pendingTasks cfg pid (workerType wt) t = (d, Resolved n) ->
  (0 < capacityChange cfg wt (t + d)%N n)%Z ->
  bidsFor cfg wt pricing (t + d) n = [] ->
  let p := provisionType cfg pid wt pricing t in
  fate p = Resolved None
  /\ settledAt p = t + d
  /\ filter isSubmission (log p) = []
  /\ List.length (log p) = 2%nat.
Proof.
  intros Hq Hpos Hbids. cbv zeta.
  rewrite (provisionType_answered cfg pid wt pricing t d n Hq).
  cbv zeta. apply Z.ltb_lt in Hpos. rewrite Hpos, Hbids.
  repeat split.
Qed.

(** X4: a [provisionType] that scales a pool up and resolves lasts
    500 ms per bid at least, on top of the answer of the queue: the bids
    of a pool are never submitted faster than two per second. *)
Theorem scale_up_lasts_half_a_second_per_bid
  (cfg : Collaborators) (pid : string) (wt : WorkerType) (pricing : Pricing)
  (t : Time) (d : N) (n : Z) (v : Val) :
  queue_pendingTasks cfg pid (workerType wt) t = (d, Resolved n) ->
  (0 < capacityChange cfg wt (t + d)%N n)%Z ->
  fate (provisionType cfg pid wt pricing t) = Resolved v ->
  t + d + 500 * N.of_nat (List.length (bidsFor cfg wt pricing (t + d) n))
  <= settledAt (provisionType cfg pid wt pricing t).
Proof.
  intros Hq Hpos.
  rewrite (provisionType_answered cfg pid wt pricing t d n Hq).
  cbv zeta. apply Z.ltb_lt in Hpos. rewrite Hpos.
  cbn [log settledAt fate]. intros Hres.
  apply chain_duration. rewrite Hres. reflexivity.
Qed.

(** X5: [provisionType] resolves if and only if every call it made
    resolved; when it rejects, the call that failed is the last one it
    made, every earlier call resolved, and [provisionType] settles at the
    instant of that failure: nothing is retried or attempted after it. *)
Theorem provisionType_fails_exactly_when_a_call_fails
  (cfg : Collaborators) (pid : string) (wt : WorkerType) (pricing : Pricing)
  (t : Time) :
  let p := provisionType cfg pid wt pricing t in
  is_resolved (fate p) = forallb ev_ok (log p)
  /\ (is_resolved (fate p) = false ->
      exists l ev,
        log p = l ++ [ev]
        /\ ev_ok ev = false
        /\ ev_end ev = settledAt p
        /\ Forall (fun x => ev_ok x = true) l).
Proof.
  cbv zeta.
  destruct (queue_pendingTasks cfg pid (workerType wt) t) as [d [n|e]] eqn:Hq.
  - rewrite (provisionType_answered cfg pid wt pricing t d n Hq). cbv zeta.
    cbn [log settledAt fate forallb ev_ok andb].
    destruct (0 <? capacityChange cfg wt (t + d)%N n)%Z.
    + set (c := spawnChain cfg wt (bidsFor cfg wt pricing (t + d) n) (t + d)).
      destruct (is_resolved (fate c)) eqn:R.
      * split; [|discriminate].
        pose proof (chain_resolved
                      (chain_shape cfg wt (bidsFor cfg wt pricing (t + d) n)
                         (t + d))) as Hall.
        fold c in Hall. destruct (Hall R) as (_ & _ & _ & Hok).
        symmetry. apply forallb_forall. rewrite Forall_forall in Hok.
        exact Hok.
      * destruct (chain_rejected_last cfg wt _ (t + d) R)
          as (l & ev & Hl & Hev & Hend & Hok).
        fold c in Hl, Hend. split.
        -- symmetry. rewrite Hl, forallb_app. simpl. rewrite Hev.
           rewrite andb_false_r. reflexivity.
        -- intros _. eexists (_ :: _ :: l), ev. rewrite Hl.
           split; [reflexivity|]. repeat split; try assumption.
           repeat constructor; assumption.
    + destruct (capacityChange cfg wt (t + d)%N n <? 0)%Z.
      * unfold perform. cbn [log settledAt fate forallb ev_ok].
        destruct (snd (awsManager_killCapacityOfWorkerType cfg wt
                         (- capacityChange cfg wt (t + d) n)
                         [pending; spotReq] (t + d))) as [k|e]; simpl.
        -- split; [reflexivity | discriminate].
        -- split; [reflexivity|]. intros _.
           eexists [_; _], _. split; [reflexivity|].
           repeat split. repeat constructor.
      * simpl. split; [reflexivity | discriminate].
  - rewrite (provisionType_unanswered cfg pid wt pricing t d e Hq). simpl.
    split; [reflexivity|]. intros _. exists [].
    eexists. split; [reflexivity|]. repeat split. constructor.
Qed.

(** X6: the chain built by [bids.forEach] over the bids [l1 ++ l2],
    when the bids [l1] are all accepted, is the chain over [l1] followed
    by the chain over [l2] started when the first has settled: the same
    calls, the same instant and the same outcome. *)
Theorem spawnChain_app
  (cfg : Collaborators) (wt : WorkerType) (l1 l2 : list Bid) (t : Time)
  (v : Val) :
  fate (spawnChain cfg wt l1 t) = Resolved v ->
  let first := spawnChain cfg wt l1 t in
  let rest := spawnChain cfg wt l2 (settledAt first) in
  let whole := spawnChain cfg wt (l1 ++ l2) t in
  log whole = log first ++ log rest
  /\ settledAt whole = settledAt rest
  /\ is_resolved (fate whole) = is_resolved (fate rest)
  /\ (l2 <> [] -> fate whole = fate rest).
Proof.
  intros H1. cbv zeta.
  induction l2 as [|b l IH] using rev_ind.
  - rewrite app_nil_r. simpl. rewrite app_nil_r, H1.
    repeat split. intros C; contradiction C; reflexivity.
  - destruct IH as (Hlog & Hat & Hres & Hfate).
    rewrite app_assoc, !spawnChain_snoc.
    destruct (fate (spawnChain cfg wt (l1 ++ l) t)) as [v1|e1] eqn:F1;
      destruct (fate (spawnChain cfg wt l
                        (settledAt (spawnChain cfg wt l1 t)))) as [v2|e2]
        eqn:F2; try discriminate.
    + rewrite (chainLink_resolved cfg wt _ b t v1 F1).
      rewrite (chainLink_resolved cfg wt _ b _ v2 F2). cbv zeta.
      rewrite Hat, Hlog.
      destruct (fate (spawn cfg wt b
                        (settledAt
                           (spawnChain cfg wt l
                              (settledAt (spawnChain cfg wt l1 t))))));
        simpl; rewrite <- !app_assoc; repeat split.
    + rewrite (chainLink_rejected cfg wt _ b t e1 F1).
      rewrite (chainLink_rejected cfg wt _ b _ e2 F2). simpl.
      destruct l as [|x l].
      * rewrite app_nil_r, H1 in F1. discriminate.
      * assert (Hne : x :: l <> []) by discriminate.
        specialize (Hfate Hne). rewrite Hfate. repeat split; assumption.
Qed.

(** ** More about the sweep *)

(** The sweep when one of its fetches rejects. *)
Lemma sweep_unfetched (cfg : Collaborators) (pid : string) (t : Time) :
  is_resolved (snd (WorkerType_loadAll cfg t))
  && is_resolved (snd (awsPricing cfg t))
  && is_resolved (snd (awsManager_update cfg t)) = false ->
  let rejections :=
    [rejection (WorkerType_loadAll cfg t) t; rejection (awsPricing cfg t) t;
     rejection (awsManager_update cfg t) t] in
  exists e at_,
    runAllProvisionersOnce cfg pid t
    = mkPromise (fetchCalls cfg t) at_ (Rejected e)
    /\ In (Some (at_, e)) rejections
    /\ Forall
         (fun r =>
            match r with
            | Some (t', _) => at_ <= t'
            | None => True
            end) rejections.
Proof.
  cbv zeta. unfold runAllProvisionersOnce, fetchCalls, rejection.
  unfold bind at 1 2 3 4. unfold start, perform, Promise_all, cast.
  cbn [log settledAt fate].
  destruct (WorkerType_loadAll cfg t) as [d0 [wts|e0]];
    destruct (awsPricing cfg t) as [d1 [pr|e1]];
    destruct (awsManager_update cfg t) as [d2 [[]|e2]];
    cbn [fst snd is_resolved andb firstRejection log settledAt fate app];
    try discriminate; intros _;
    repeat match goal with
           | |- context [?x <=? ?y] =>
               let L := fresh "L" in
               destruct (x <=? y) eqn:L;
               [apply N.leb_le in L | apply N.leb_gt in L]
           end;
    cbn [log settledAt fate app];
    match goal with
    | |- exists e at_, mkPromise _ (N.max _ ?tx) (Rejected ?ex) = _ /\ _ =>
        exists ex, tx
    end;
    (split; [f_equal; lia|]);
    (split; [simpl; auto 6 | repeat constructor; simpl; lia]).
Qed.

(** X7: when one of the three fetches of a sweep ([WorkerType.loadAll],
    [awsPricing], [awsManager.update]) rejects, the sweep has made these
    three calls and no other (no maintenance, no pool reconciled), and it
    rejects with the reason and at the instant of the earliest rejection
    among them. *)
Theorem sweep_stops_at_a_failed_fetch
  (cfg : Collaborators) (pid : string) (t : Time) :
  is_resolved (snd (WorkerType_loadAll cfg t))
  && is_resolved (snd (awsPricing cfg t))
  && is_resolved (snd (awsManager_update cfg t)) = false ->
  let p := runAllProvisionersOnce cfg pid t in
  let rejections :=
    [rejection (WorkerType_loadAll cfg t) t; rejection (awsPricing cfg t) t;
     rejection (awsManager_update cfg t) t] in
  log p = fetchCalls cfg t
  /\ (exists e, fate p = Rejected e /\ In (Some (settledAt p, e)) rejections)
  /\ Forall
       (fun r =>
          match r with
          | Some (t', _) => settledAt p <= t'
          | None => True
          end) rejections.
Proof.
  intros H. cbv zeta.
  destruct (sweep_unfetched cfg pid t H) as (e & at_ & -> & Hin & Hall).
  cbn [log fate settledAt]. split; [reflexivity|]. split; [|exact Hall].
  exists e. split; [reflexivity | exact Hin].
Qed.

(** [Promise.all] of thenables that all resolve. *)
Lemma Promise_all_resolved {A} (ps : list (Promise A)) (t : Time) :
  Forall (fun p => is_resolved (fate p) = true) ps ->
  exists vs,
    fate (Promise_all (map (@Thenable A) ps) t) = Resolved vs
    /\ Forall2 (fun p v => fate p = Resolved v) ps vs
    /\ t <= settledAt (Promise_all (map (@Thenable A) ps) t)
    /\ Forall
         (fun p =>
            settledAt p <= settledAt (Promise_all (map (@Thenable A) ps) t))
         ps.
Proof.
  intros Hall. unfold Promise_all.
  assert (Hnone : firstRejection (map (@Thenable A) ps) = None).
  { induction Hall as [|p ps Hp _ IH]; [reflexivity|]. simpl.
    destruct (fate p); [exact IH | discriminate]. }
  rewrite Hnone. cbn [fate settledAt].
  exists (values (map (@Thenable A) ps)). split; [reflexivity|].
  split; [|split; [lia|]].
  - induction Hall as [|p ps Hp _ IH]; [constructor|]. simpl.
    destruct (fate p) as [v|] eqn:F; [|discriminate].
    constructor; [exact F|]. apply IH.
    clear - Hnone F. simpl in Hnone. rewrite F in Hnone. exact Hnone.
  - clear Hnone. induction Hall as [|p ps Hp _ IH]; [constructor|].
    simpl. constructor; [lia|].
    eapply Forall_impl; [|exact IH]. simpl; intros; lia.
Qed.

Lemma Forall2_of_map {A B C} (f : A -> B) (R : B -> C -> Prop)
  (l : list A) (vs : list C) :
  Forall2 R (map f l) vs -> Forall2 (fun a v => R (f a) v) l vs.
Proof.
  revert vs. induction l as [|a l IH]; intros vs H; simpl in H;
    inversion H; subst; constructor; auto.
Qed.

(** X8: when the fetches and the maintenance of a sweep resolve and
    the reconciliation of every pool resolves, the sweep resolves with one
    value per pool, in the order of the pools, each the value of the
    [provisionType] of its pool; it settles when the last of them has
    settled, and not before the maintenance. *)
Theorem sweep_resolves_with_one_result_per_pool
  (cfg : Collaborators) (pid : string) (t : Time)
  (d0 : N) (wts : list WorkerType) (d1 : N) (pr : Pricing) (d2 : N)
  (ms : list Maintained) :
  WorkerType_loadAll cfg t = (d0, Resolved wts) ->
  awsPricing cfg t = (d1, Resolved pr) ->
  awsManager_update cfg t = (d2, Resolved tt) ->
  let T1 := N.max (t + d0) (N.max (t + d1) (t + d2)) in
  fate (maintenance cfg (map workerType wts) T1) = Resolved ms ->
  let T2 := settledAt (maintenance cfg (map workerType wts) T1) in
  Forall
    (fun w => is_resolved (fate (provisionType cfg pid w pr T2)) = true) wts ->
  let p := runAllProvisionersOnce cfg pid t in
  exists results,
    fate p = Resolved results
    /\ Forall2
         (fun w v => fate (provisionType cfg pid w pr T2) = Resolved v)
         wts results
    /\ Forall
         (fun w => settledAt (provisionType cfg pid w pr T2) <= settledAt p)
         wts
    /\ T2 <= settledAt p.
Proof.
  intros H0 H1 H2 T1 Hm T2 Hall p.
  assert (E := sweep_fetched cfg pid t d0 wts d1 pr d2 H0 H1 H2).
  cbv zeta in E. fold T1 in E. rewrite Hm in E. fold T2 in E.
  rewrite fanOut_spec in E. subst p. rewrite E. clear E.
  cbn [log fate settledAt].
  set (ps := map (fun w0 => provisionType cfg pid w0 pr T2) wts).
  assert (Hps : Forall (fun q => is_resolved (fate q) = true) ps).
  { subst ps. apply Forall_map. exact Hall. }
  destruct (Promise_all_resolved ps T2 Hps) as (vs & Hf & H22 & Hge & Hle).
  exists vs. split; [exact Hf|]. split; [|split; [|exact Hge]].
  - exact (Forall2_of_map (fun w0 => provisionType cfg pid w0 pr T2)
             (fun q v => fate q = Resolved v) wts vs H22).
  - apply Forall_forall. intros w Hw. rewrite Forall_forall in Hle.
    apply Hle. subst ps.
    exact (in_map (fun w0 => provisionType cfg pid w0 pr T2) wts w Hw).
Qed.

Lemma reconciliation_not_preparation (ev : Event) :
  isReconciliation ev = true -> isPreparation ev = false.
Proof.
  unfold isReconciliation, isPreparation, isPendingTasks, isReport,
    isSubmission, isSecretCreate, isRequest, isDelay, isKill.
  destruct (ev_call ev); simpl; intros H; try reflexivity; discriminate.
Qed.

Lemma keyPairEvent_kind (cfg : Collaborators) (t : Time) (names : list string) :
  Forall
    (fun ev => isReconciliation ev = false /\ isPreparation ev = false)
    (map (keyPairEvent cfg t) names).
Proof.
  induction names as [|x names IH]; constructor;
    [split; reflexivity | exact IH].
Qed.

(** The calls of the fan-out: all of reconciliation, none before the
    fan-out began. *)
Lemma fanOut_calls (cfg : Collaborators) (pid : string)
  (wts : list WorkerType) (pr : Pricing) (t : Time) :
  Forall (fun ev => isReconciliation ev = true /\ t <= ev_start ev)
    (log (fanOut cfg pid wts pr t)).
Proof.
  rewrite fanOut_spec. cbn [log].
  induction wts as [|w wts IH]; [constructor|].
  cbn [flat_map]. apply Forall_app; split; [|exact IH].
  pose proof (provisionType_calls cfg pid w pr t) as Hk.
  destruct (provisionType_sequential_paced cfg pid w pr t) as (_ & _ & Hw).
  apply within_starts in Hw.
  rewrite Forall_forall in *. intros ev Hev. split.
  - exact (Hk ev Hev).
  - exact (Hw ev Hev).
Qed.

(** X9: in a sweep, a call made to reconcile a pool (the queue query,
    the report, a secret write, a spot request, a kill) is issued only
    after every fetch and every one of the rogue cleanup, the zombie
    cleanup and the tag hygiene of that sweep has resolved. *)
Theorem reconciliation_waits_for_fetches_and_maintenance
  (cfg : Collaborators) (pid : string) (t : Time) (ev f : Event) :
  let p := runAllProvisionersOnce cfg pid t in
  In ev (log p) -> isReconciliation ev = true ->
  In f (log p) -> isPreparation f = true ->
  ev_ok f = true /\ ev_end f <= ev_start ev.
Proof.
  cbv zeta.
  destruct (is_resolved (snd (WorkerType_loadAll cfg t))
            && is_resolved (snd (awsPricing cfg t))
            && is_resolved (snd (awsManager_update cfg t))) eqn:C.
  - destruct (WorkerType_loadAll cfg t) as [d0 [wts|]] eqn:H0;
      [|discriminate].
    destruct (awsPricing cfg t) as [d1 [pr|]] eqn:H1; [|discriminate].
    destruct (awsManager_update cfg t) as [d2 [[]|]] eqn:H2; [|discriminate].
    clear C.
    assert (E := sweep_fetched cfg pid t d0 wts d1 pr d2 H0 H1 H2).
    cbv zeta in E.
    set (T1 := N.max (t + d0) (N.max (t + d1) (t + d2))) in *.
    set (names := map workerType wts) in *.
    pose proof (maintenance_log cfg names T1) as Hlog.
    pose proof (maintenance_outcome cfg names T1) as Hout.
    cbv zeta in Hout.
    pose proof (keyPairEvent_kind cfg T1 names) as Hkp.
    rewrite Forall_forall in Hkp.
    assert (Hfetch : forall x, In x (fetchEvents t d0 d1 d2) ->
                     isReconciliation x = false
                     /\ ev_ok x = true /\ ev_end x <= T1).
    { intros x [<-|[<-|[<-|[]]]]; simpl; repeat split; lia. }
    assert (Hmaint : forall x, In x (maintenanceEvents cfg names T1) ->
                     isReconciliation x = false).
    { intros x [<-|[<-|[<-|[]]]]; reflexivity. }
    destruct (fate (maintenance cfg names T1)) as [ms|e] eqn:Fm.
    + rewrite E. cbn [log]. clear E.
      set (T2 := settledAt (maintenance cfg names T1)) in *.
      pose proof (fanOut_calls cfg pid wts pr T2) as Hfan.
      rewrite Forall_forall in Hfan.
      destruct (is_resolved (snd (awsManager_rougeKiller cfg names T1))
                && is_resolved (snd (awsManager_zombieKiller cfg T1))
                && is_resolved (snd (awsManager_ensureTags cfg T1))) eqn:C3;
        [|destruct Hout as (? & ? & ? & _); discriminate].
      destruct Hout as (_ & Hat).
      apply andb_prop in C3. destruct C3 as [C3 Ctags].
      apply andb_prop in C3. destruct C3 as [Crouge Czombie].
      intros Hev Rev Hf Pf.
      assert (Hstart : T2 <= ev_start ev).
      { apply in_app_or in Hev. destruct Hev as [Hev|Hev].
        - destruct (Hfetch ev Hev) as (Hn & _). congruence.
        - apply in_app_or in Hev. destruct Hev as [Hev|Hev].
          + rewrite Hlog in Hev. apply in_app_or in Hev.
            destruct Hev as [Hev|Hev].
            * rewrite (Hmaint ev Hev) in Rev. discriminate.
            * destruct (Hkp ev Hev) as (Hn & _). congruence.
          + exact (proj2 (Hfan ev Hev)). }
      apply in_app_or in Hf. destruct Hf as [Hf|Hf].
      * destruct (Hfetch f Hf) as (_ & Hok & Hend). split; [exact Hok|lia].
      * apply in_app_or in Hf. destruct Hf as [Hf|Hf].
        -- rewrite Hlog in Hf. apply in_app_or in Hf. destruct Hf as [Hf|Hf].
           ++ destruct Hf as [<-|[<-|[<-|[]]]]; simpl; split;
                try assumption; lia.
           ++ destruct (Hkp f Hf) as (_ & Hn). congruence.
        -- pose proof (reconciliation_not_preparation f
                         (proj1 (Hfan f Hf))). congruence.
    + rewrite E. cbn [log]. clear E. intros Hev Rev _ _. exfalso.
      apply in_app_or in Hev. destruct Hev as [Hev|Hev].
      * destruct (Hfetch ev Hev) as (Hn & _). congruence.
      * rewrite Hlog in Hev. apply in_app_or in Hev. destruct Hev as [Hev|Hev].
        -- rewrite (Hmaint ev Hev) in Rev. discriminate.
        -- destruct (Hkp ev Hev) as (Hn & _). congruence.
  - destruct (sweep_unfetched cfg pid t C) as (e & at_ & -> & _).
    cbn [log]. intros Hev Rev _ _. exfalso.
    destruct Hev as [<-|[<-|[<-|[]]]]; discriminate.
Qed.

(** Whether and when the maintenance settles does not depend on
    [createKeyPair]. *)
Lemma maintenance_ignores_createKeyPair (cfg : Collaborators)
  (f : string -> Time -> Reply unit) (names : list string) (t : Time) :
  let m' := maintenance (withCreateKeyPair f cfg) names t in
  let m := maintenance cfg names t in
  settledAt m' = settledAt m
  /\ match fate m', fate m with
     | Resolved _, Resolved _ => True
     | Rejected e', Rejected e => e' = e
     | _, _ => False
     end.
Proof.
  cbv zeta. unfold maintenance, bind, start; simpl. rewrite !startEach_spec.
  simpl. unfold Promise_all, perform, cast; simpl.
  destruct (awsManager_rougeKiller cfg names t) as [a0 [[]|e0]];
    destruct (awsManager_zombieKiller cfg t) as [a1 [[]|e1]];
    destruct (awsManager_ensureTags cfg t) as [a2 [[]|e2]]; simpl;
    repeat match goal with
           | |- context [?x <=? ?y] => destruct (x <=? y)
           end; simpl; split; reflexivity.
Qed.

Lemma keyPairEvents_hidden (cfg : Collaborators) (t : Time)
  (names : list string) :
  filter (fun ev => negb (isCreateKeyPair ev)) (map (keyPairEvent cfg t) names)
  = [].
Proof. induction names as [|x names IH]; [reflexivity | exact IH]. Qed.

(** X10: when its fetches resolve, what a sweep does apart from the
    [createKeyPair] calls themselves does not depend on how
    [createKeyPair] answers: the outcome, the instant at which the sweep
    settles and all its other calls are the same whatever
    [createKeyPair] does. *)
Theorem sweep_outcome_ignores_createKeyPair
  (cfg : Collaborators) (f : string -> Time -> Reply unit) (pid : string)
  (t : Time) (d0 : N) (wts : list WorkerType) (d1 : N) (pr : Pricing)
  (d2 : N) :
  WorkerType_loadAll cfg t = (d0, Resolved wts) ->
  awsPricing cfg t = (d1, Resolved pr) ->
  awsManager_update cfg t = (d2, Resolved tt) ->
  let p := runAllProvisionersOnce cfg pid t in
  let q := runAllProvisionersOnce (withCreateKeyPair f cfg) pid t in
  fate q = fate p
  /\ settledAt q = settledAt p
  /\ filter (fun ev => negb (isCreateKeyPair ev)) (log q)
     = filter (fun ev => negb (isCreateKeyPair ev)) (log p).
Proof.
  intros H0 H1 H2. cbv zeta.
  rewrite (sweep_fetched cfg pid t d0 wts d1 pr d2 H0 H1 H2).
  rewrite (sweep_fetched (withCreateKeyPair f cfg) pid t d0 wts d1 pr d2
             H0 H1 H2).
  cbv zeta.
  set (T1 := N.max (t + d0) (N.max (t + d1) (t + d2))).
  set (names := map workerType wts).
  destruct (maintenance_ignores_createKeyPair cfg f names T1) as (Hat & Hf).
  pose proof (maintenance_log cfg names T1) as Hlog.
  pose proof (maintenance_log (withCreateKeyPair f cfg) names T1) as Hlog'.
  change (maintenanceEvents (withCreateKeyPair f cfg) names T1)
    with (maintenanceEvents cfg names T1) in Hlog'.
  assert (Hm : filter (fun ev => negb (isCreateKeyPair ev))
                 (log (maintenance (withCreateKeyPair f cfg) names T1))
               = filter (fun ev => negb (isCreateKeyPair ev))
                   (log (maintenance cfg names T1))).
  { rewrite Hlog, Hlog', !filter_app, !keyPairEvents_hidden. reflexivity. }
  destruct (fate (maintenance (withCreateKeyPair f cfg) names T1)) as [ms'|e'];
    destruct (fate (maintenance cfg names T1)) as [ms|e];
    try contradiction.
  - rewrite Hat.
    change (fanOut (withCreateKeyPair f cfg) pid wts pr
              (settledAt (maintenance cfg names T1)))
      with (fanOut cfg pid wts pr (settledAt (maintenance cfg names T1))).
    cbn [log fate settledAt]. repeat split.
    rewrite !filter_app, Hm. reflexivity.
  - subst e'. cbn [log fate settledAt]. repeat split; [exact Hat|].
    rewrite !filter_app, Hm. reflexivity.
Qed.

(** ** More about the launch secrets *)

(** The request of a [spawn] and the secret written before it. *)
Lemma spawn_request (cfg : Collaborators) (wt : WorkerType) (bid : Bid)
  (t : Time) (li : LaunchInfo) (b : Bid) (submitted accepted : Time)
  (ok : bool) :
  In (mkEvent (RequestSpotInstance li b) submitted accepted ok)
    (log (spawn cfg wt bid t)) ->
  b = bid
  /\ Placement (launchSpec li) = Some (zone b)
  /\ securityToken li
     = securityToken (createLaunchSpec wt (region b) (type b))
  /\ exists s,
       In (mkEvent (SecretCreate s) t submitted true)
         (log (spawn cfg wt bid t))
       /\ secret_token s = securityToken li
       /\ secret_workerType s = workerType wt
       /\ secret_secrets s = secrets li
       /\ secret_scopes s = scopes li
       /\ secret_expiration s = t + 2400000.
Proof.
  unfold spawn, bind, now, perform; cbn [log settledAt fate app].
  set (li0 := mkLaunchInfo _ _ _ _).
  set (s := mkSecret _ _ _ _ _).
  destruct (Secret_create cfg s t) as [d [[]|e]]; cbn [fst snd log app].
  - intros [H|[H|[]]]; [discriminate|].
    injection H as Hli Hb Hsub _ _. subst li b submitted.
    split; [reflexivity|]. split; [reflexivity|]. split; [reflexivity|].
    exists s. split; [left; reflexivity|]. repeat split.
  - intros [H|[]]. discriminate.
Qed.

(** The calls of a chain are those of the [spawn] of one of its bids, or
    delays. *)
Lemma chain_calls (cfg : Collaborators) (wt : WorkerType) (bids : list Bid)
  (t : Time) (ev : Event) :
  In ev (log (spawnChain cfg wt bids t)) ->
  isDelay ev = true
  \/ exists bid T l1 l2,
       In bid bids
       /\ log (spawnChain cfg wt bids t) = l1 ++ log (spawn cfg wt bid T) ++ l2
       /\ In ev (log (spawn cfg wt bid T)).
Proof.
  induction bids as [|b bids IH] using rev_ind; [intros []|].
  rewrite spawnChain_snoc.
  destruct (fate (spawnChain cfg wt bids t)) as [v|e] eqn:F.
  - rewrite (chainLink_resolved cfg wt _ b t v F). cbv zeta.
    set (T := settledAt (spawnChain cfg wt bids t)).
    assert (Hcases :
              In ev (log (spawnChain cfg wt bids t) ++ log (spawn cfg wt b T))
              \/ isDelay ev = true ->
              isDelay ev = true
              \/ exists bid T' l1 l2,
                   In bid (bids ++ [b])
                   /\ (forall tail,
                          (log (spawnChain cfg wt bids t)
                           ++ log (spawn cfg wt b T)) ++ tail
                          = l1 ++ log (spawn cfg wt bid T') ++ l2 ++ tail)
                   /\ In ev (log (spawn cfg wt bid T'))).
    { intros [Hin|Hd]; [|left; exact Hd].
      apply in_app_or in Hin. destruct Hin as [Hin|Hin].
      - destruct (IH Hin) as [Hd|(bid & T' & l1 & l2 & Hb & Hl & He)];
          [left; exact Hd|].
        right. exists bid, T', l1, (l2 ++ log (spawn cfg wt b T)).
        split; [apply in_or_app; left; exact Hb|]. split; [|exact He].
        intros tail. rewrite Hl, <- !app_assoc. reflexivity.
      - right. exists b, T, (log (spawnChain cfg wt bids t)), [].
        split; [apply in_or_app; right; left; reflexivity|].
        split; [|exact Hin].
        intros tail. rewrite <- !app_assoc. reflexivity. }
    destruct (fate (spawn cfg wt b T)) as [v'|e]; cbn [log]; intros Hin.
    + assert (H : In ev (log (spawnChain cfg wt bids t)
                         ++ log (spawn cfg wt b T))
                  \/ isDelay ev = true).
      { rewrite app_assoc in Hin. apply in_app_or in Hin.
        destruct Hin as [Hin|[<-|[]]]; [left; exact Hin | right; reflexivity]. }
      destruct (Hcases H) as [Hd|(bid & T' & l1 & l2 & Hb & Hl & He)];
        [left; exact Hd|].
      right. exists bid, T', l1,
        (l2 ++ [mkEvent (Delay 500) (settledAt (spawn cfg wt b T))
                  (settledAt (spawn cfg wt b T) + 500) true]).
      split; [exact Hb|]. split; [|exact He].
      rewrite app_assoc. apply Hl.
    + destruct (Hcases (or_introl Hin))
        as [Hd|(bid & T' & l1 & l2 & Hb & Hl & He)]; [left; exact Hd|].
      right. exists bid, T', l1, l2.
      split; [exact Hb|]. split; [|exact He].
      specialize (Hl []). rewrite !app_nil_r in Hl. exact Hl.
  - rewrite (chainLink_rejected cfg wt _ b t e F). cbn [log]. intros Hin.
    destruct (IH Hin) as [Hd|(bid & T' & l1 & l2 & Hb & Hl & He)];
      [left; exact Hd|].
    right. exists bid, T', l1, l2.
    split; [apply in_or_app; left; exact Hb|]. split; assumption.
Qed.

(** X11: every spot request that [provisionType] submits is for a bid
    answered by [determineSpotBids], carries the zone of that bid as its
    placement and the security token of the launch specification of the
    pool for the region and type of the bid, and is submitted at the
    instant at which a secret with that token, the worker type of the
    pool, the secrets and the scopes of the request, expiring 40 minutes
    after it was written, has been stored. *)
Theorem every_request_carries_the_secret_written_for_it
  (cfg : Collaborators) (pid : string) (wt : WorkerType) (pricing : Pricing)
  (t : Time) (li : LaunchInfo) (b : Bid) (submitted accepted : Time)
  (ok : bool) :
  let p := provisionType cfg pid wt pricing t in
  In (mkEvent (RequestSpotInstance li b) submitted accepted ok) (log p) ->
  (exists change,
      In b (determineSpotBids wt (awsManager_ec2_regions cfg) pricing change))
  /\ Placement (launchSpec li) = Some (zone b)
  /\ securityToken li
     = securityToken (createLaunchSpec wt (region b) (type b))
  /\ exists s written,
       In (mkEvent (SecretCreate s) written submitted true) (log p)
       /\ secret_token s = securityToken li
       /\ secret_workerType s = workerType wt
       /\ secret_secrets s = secrets li
       /\ secret_scopes s = scopes li
       /\ secret_expiration s = written + 2400000.
Proof.
  cbv zeta.
  destruct (queue_pendingTasks cfg pid (workerType wt) t) as [d [n|e]] eqn:Hq.
  - rewrite (provisionType_answered cfg pid wt pricing t d n Hq). cbv zeta.
    cbn [log].
    intros [H|[H|Hin]]; [discriminate | discriminate |].
    destruct (0 <? capacityChange cfg wt (t + d)%N n)%Z.
    + destruct (chain_calls cfg wt _ (t + d) _ Hin)
        as [Hd|(bid & T & l1 & l2 & Hb & Hl & He)]; [discriminate|].
      destruct (spawn_request cfg wt bid T li b submitted accepted ok He)
        as (-> & Hz & Htok & s & Hs & Hrest).
      split; [eexists; exact Hb|]. split; [exact Hz|]. split; [exact Htok|].
      exists s, T. split; [|exact Hrest].
      right; right. rewrite Hl. apply in_or_app; right.
      apply in_or_app; left. exact Hs.
    + destruct (capacityChange cfg wt (t + d)%N n <? 0)%Z.
      * destruct Hin as [H|[]]. discriminate.
      * destruct Hin.
  - rewrite (provisionType_unanswered cfg pid wt pricing t d e Hq).
    intros [H|[]]. discriminate.
Qed.

(** ** More about the fan-out *)

Lemma submissions_no_query (l : Trace) :
  Forall (fun ev => isSubmission ev = true) l -> filter isPendingTasks l = [].
Proof.
  induction 1 as [|ev l H _ IH]; simpl; [reflexivity|].
  rewrite IH. unfold isSubmission, isSecretCreate, isRequest, isDelay in H.
  unfold isPendingTasks. destruct (ev_call ev); try discriminate; reflexivity.
Qed.

(** [provisionType] asks the queue once, when it starts. *)
Lemma provisionType_queries_once (cfg : Collaborators) (pid : string)
  (wt : WorkerType) (pr : Pricing) (t : Time) :
  map (fun ev => (ev_call ev, ev_start ev))
    (filter isPendingTasks (log (provisionType cfg pid wt pr t)))
  = [(PendingTasks pid (workerType wt), t)].
Proof.
  destruct (queue_pendingTasks cfg pid (workerType wt) t) as [d [n|e]] eqn:Hq.
  - rewrite (provisionType_answered cfg pid wt pr t d n Hq). cbv zeta.
    cbn [log filter isPendingTasks ev_call map ev_start].
    destruct (0 <? capacityChange cfg wt (t + d)%N n)%Z.
    + rewrite (submissions_no_query _
                 (chain_submissions
                    (chain_shape cfg wt (bidsFor cfg wt pr (t + d) n)
                       (t + d)))).
      reflexivity.
    + destruct (capacityChange cfg wt (t + d)%N n <? 0)%Z; reflexivity.
  - rewrite (provisionType_unanswered cfg pid wt pr t d e Hq). reflexivity.
Qed.

Lemma maintenance_no_query (cfg : Collaborators) (names : list string)
  (t : Time) :
  filter isPendingTasks (log (maintenance cfg names t)) = [].
Proof.
  rewrite maintenance_log, filter_app. cbn [maintenanceEvents filter
    isPendingTasks ev_call app].
  induction names as [|x names IH]; [reflexivity | exact IH].
Qed.

(** X12: when the fetches and the maintenance of a sweep resolve, the
    sweep asks the queue once per pool, in the order of the pools, and
    all these queries are issued at the same instant, the one at which
    the maintenance settled: the pools are reconciled side by side. *)
Theorem pools_are_reconciled_at_the_same_instant
  (cfg : Collaborators) (pid : string) (t : Time)
  (d0 : N) (wts : list WorkerType) (d1 : N) (pr : Pricing) (d2 : N)
  (ms : list Maintained) :
  WorkerType_loadAll cfg t = (d0, Resolved wts) ->
  awsPricing cfg t = (d1, Resolved pr) ->
  awsManager_update cfg t = (d2, Resolved tt) ->
  let T1 := N.max (t + d0) (N.max (t + d1) (t + d2)) in
  fate (maintenance cfg (map workerType wts) T1) = Resolved ms ->
  let T2 := settledAt (maintenance cfg (map workerType wts) T1) in
  map (fun ev => (ev_call ev, ev_start ev))
    (filter isPendingTasks (log (runAllProvisionersOnce cfg pid t)))
  = map (fun w => (PendingTasks pid (workerType w), T2)) wts.
Proof.
  intros H0 H1 H2 T1 Hm T2.
  assert (E := sweep_fetched cfg pid t d0 wts d1 pr d2 H0 H1 H2).
  cbv zeta in E. fold T1 in E. rewrite Hm in E. fold T2 in E.
  rewrite fanOut_spec in E. rewrite E. clear E. cbn [log].
  rewrite !filter_app. subst T2. rewrite maintenance_no_query.
  cbn [fetchEvents filter isPendingTasks ev_call app].
  generalize (settledAt (maintenance cfg (map workerType wts) T1)).
  clear. intros T.
  induction wts as [|w wts IH]; [reflexivity|].
  cbn [flat_map map]. rewrite filter_app, map_app.
  rewrite provisionType_queries_once, IH. reflexivity.
Qed.

(** ** More about the control loop *)

Lemma sweepsStarted_app (l1 l2 : list Effect) :
  sweepsStarted (l1 ++ l2) = (sweepsStarted l1 + sweepsStarted l2)%nat.
Proof. unfold sweepsStarted. rewrite filter_app, length_app. reflexivity. Qed.

Lemma nth_error_setStatus (i : nat) (s x : Status) (l : list Status) :
  nth_error l i = Some x -> nth_error (setStatus i s l) i = Some s.
Proof.
  revert i. induction l as [|y l IH]; intros [|i] H; simpl in *;
    try discriminate; [reflexivity | apply IH; exact H].
Qed.

Lemma setStatus_keeps_thrown (i : nat) (s : Status) (l : list Status)
  (e : Err) :
  nth_error l i <> Some (Threw e) -> In (Threw e) l ->
  In (Threw e) (setStatus i s l).
Proof.
  revert i. induction l as [|y l IH]; intros [|i] Hn Hin; simpl in *;
    try contradiction.
  - destruct Hin as [->|Hin];
      [contradiction Hn; reflexivity | right; exact Hin].
  - destruct Hin as [->|Hin]; [left; reflexivity | right; apply IH; assumption].
Qed.

(** What one iteration does, by the counter of consecutive failures. *)
Lemma iteration_cases (t : Time) (p : Provisioner) :
  ((MAX_FAILURES < consecFail (__stats p))%Z
   /\ effects (iteration t p) = [ExitTimer 30000; ExitTimer 30000]
   /\ status (iteration t p) = Threw "provisioner is failing a lot"%string
   /\ __stats (after (iteration t p)) = __stats p)
  \/ ((consecFail (__stats p) <= MAX_FAILURES)%Z
      /\ effects (iteration t p) = [Sweep t]
      /\ status (iteration t p) = AwaitingSweep
      /\ __stats (after (iteration t p))
         = mkStats (runs (__stats p) + 1) (consecFail (__stats p))).
Proof.
  unfold iteration. cbn [__stats].
  destruct (MAX_FAILURES <? consecFail (__stats p))%Z eqn:C.
  - left. apply Z.ltb_lt in C. repeat split; assumption.
  - right. apply Z.ltb_ge in C. repeat split; assumption.
Qed.

Lemma iteration_flags (t : Time) (p : Provisioner) :
  __keepRunning (after (iteration t p)) = __keepRunning p
  /\ provisionIterationInterval (after (iteration t p))
     = provisionIterationInterval p.
Proof.
  unfold iteration. cbn [__stats].
  destruct (MAX_FAILURES <? consecFail (__stats p))%Z; split; reflexivity.
Qed.

(** What [run] does when its sweep has settled. *)
Lemma sweepSettled_cases (outcome : Settled (list Val)) (p : Provisioner) :
  provisionIterationInterval (after (sweepSettled outcome p))
  = provisionIterationInterval p
  /\ __keepRunning (after (sweepSettled outcome p)) = __keepRunning p
  /\ runs (__stats (after (sweepSettled outcome p))) = runs (__stats p)
  /\ consecFail (__stats (after (sweepSettled outcome p)))
     = (if is_resolved outcome then 0 else consecFail (__stats p) + 1)%Z
  /\ ((status (sweepSettled outcome p) = AwaitingDelay
       /\ effects (sweepSettled outcome p)
          = [Pause (provisionIterationInterval p)])
      \/ (exists e,
             status (sweepSettled outcome p) = Threw e
             /\ effects (sweepSettled outcome p)
                = [ExitTimer MAX_KILL_TIME])).
Proof.
  unfold sweepSettled.
  destruct outcome as [v|err]; [|destruct (stackLogging err) as [e|]];
    cbn [after status effects provisionIterationInterval __keepRunning
         __stats runs consecFail is_resolved];
    repeat (split; [reflexivity|]).
  - left. split; reflexivity.
  - right. exists e. split; reflexivity.
  - left. split; reflexivity.
Qed.

(** A property kept by every input of a given kind is kept by every
    execution made of such inputs. *)
Lemma execute_invariant (once : bool) (I : Process -> Prop)
  (allowed : Input -> bool) :
  (forall pr i, allowed i = true -> I pr -> I (react once pr i)) ->
  forall inputs pr,
    forallb allowed inputs = true -> I pr -> I (execute once pr inputs).
Proof.
  intros Hstep. induction inputs as [|i inputs IH]; intros pr Hall HI;
    [exact HI|].
  cbn [forallb] in Hall. apply andb_prop in Hall. destruct Hall as [Hi Hall].
  cbn [execute fold_left]. apply IH; [exact Hall|].
  apply Hstep; assumption.
Qed.

(** What a call of [run] does first. *)
Lemma run_cases (t : Time) (p : Provisioner) :
  ((MAX_FAILURES < consecFail (__stats p))%Z
   /\ effects (run t p) = [ExitTimer 30000; ExitTimer 30000]
   /\ status (run t p) = Threw "provisioner is failing a lot"%string
   /\ __stats (after (run t p)) = __stats p)
  \/ ((consecFail (__stats p) <= MAX_FAILURES)%Z
      /\ effects (run t p) = [Sweep t]
      /\ status (run t p) = AwaitingSweep
      /\ __stats (after (run t p))
         = mkStats (runs (__stats p) + 1) (consecFail (__stats p))).
Proof.
  unfold run.
  exact (iteration_cases t
           (mkProvisioner (provisionIterationInterval p) (__provRunId p) true
              (WatchDog_start t (WatchDog_on expiredListener (__watchDog p)))
              (__stats p))).
Qed.

(** How one input changes the count of runs and the sweeps started. *)
Lemma react_runs (once : bool) (pr : Process) (i : Input) :
  isCallStop i = false ->
  (runs (__stats (provisioner (react once pr i)))
   - Z.of_nat (sweepsStarted (done (react once pr i))))%Z
  = (runs (__stats (provisioner pr)) - Z.of_nat (sweepsStarted (done pr)))%Z.
Proof.
  destruct i as [t| |k ok|k t]; cbn [react isCallStop]; intros Hs;
    try discriminate.
  - cbn [provisioner done]. rewrite sweepsStarted_app.
    destruct (run_cases t (provisioner pr))
      as [(_ & -> & _ & ->) | (_ & -> & _ & ->)];
        unfold sweepsStarted; simpl; lia.
  - destruct (nth_error (calls pr) k) as [[| | |]|]; try reflexivity.
    cbn [resume provisioner done]. rewrite sweepsStarted_app.
    destruct (sweepSettled_cases ok (provisioner pr))
      as (_ & _ & -> & _ & [(_ & ->)|(e & _ & ->)]);
      unfold sweepsStarted; simpl; lia.
  - destruct (nth_error (calls pr) k) as [[| | |]|]; try reflexivity.
    cbn [resume provisioner done]. unfold delayElapsed.
    destruct (__keepRunning (provisioner pr) && negb once).
    + rewrite sweepsStarted_app.
      destruct (iteration_cases t (provisioner pr))
        as [(_ & -> & _ & ->) | (_ & -> & _ & ->)];
        unfold sweepsStarted; simpl; lia.
    + simpl. rewrite app_nil_r. reflexivity.
Qed.

(** X13: as long as [stop] is not called, [__stats.runs] has grown by
    the number of sweeps that were started, whatever the calls of [run]
    and the order in which sweeps and delays complete. *)
Theorem runs_counts_the_sweeps_started
  (once : bool) (p : Provisioner) (inputs : list Input) :
  forallb (fun i => negb (isCallStop i)) inputs = true ->
  let pr := execute once (boot p) inputs in
  runs (__stats (provisioner pr))
  = (runs (__stats p) + Z.of_nat (sweepsStarted (done pr)))%Z.
Proof.
  intros Hall. cbv zeta.
  assert (H : (runs (__stats (provisioner (execute once (boot p) inputs)))
               - Z.of_nat (sweepsStarted
                             (done (execute once (boot p) inputs))))%Z
              = runs (__stats p)).
  { apply (execute_invariant once
             (fun pr =>
                (runs (__stats (provisioner pr))
                 - Z.of_nat (sweepsStarted (done pr)))%Z
                = runs (__stats p))
             (fun i => negb (isCallStop i))); [| exact Hall | simpl; lia].
    intros pr i Hi HI. rewrite react_runs; [exact HI|].
    apply negb_true_iff. exact Hi. }
  lia.
Qed.

(** How one input changes the hard exits scheduled. *)
Lemma react_exits (once : bool) (pr : Process) (i : Input) :
  (forall ms, In (ExitTimer ms) (done pr) ->
              ms = MAX_KILL_TIME /\ exists e, In (Threw e) (calls pr)) ->
  forall ms, In (ExitTimer ms) (done (react once pr i)) ->
             ms = MAX_KILL_TIME
             /\ exists e, In (Threw e) (calls (react once pr i)).
Proof.
  intros HI ms.
  destruct i as [t| |k ok|k t]; cbn [react].
  - cbn [done calls]. intros Hin. apply in_app_or in Hin.
    destruct Hin as [Hin|Hin].
    + destruct (HI ms Hin) as (Hms & e & He). split; [exact Hms|].
      exists e. apply in_or_app; left; exact He.
    + destruct (run_cases t (provisioner pr))
        as [(_ & Heff & Hst & _) | (_ & Heff & _ & _)];
        rewrite Heff in Hin.
      * split.
        -- destruct Hin as [[= <-]|[[= <-]|[]]]; reflexivity.
        -- eexists. apply in_or_app; right. rewrite Hst. left; reflexivity.
      * destruct Hin as [Hin|[]]; discriminate.
  - exact (HI ms).
  - destruct (nth_error (calls pr) k) as [[| | |]|] eqn:Hk; try exact (HI ms).
    cbn [resume done calls]. intros Hin.
    apply in_app_or in Hin. destruct Hin as [Hin|Hin].
    + destruct (HI ms Hin) as (Hms & e & He). split; [exact Hms|].
      exists e. apply setStatus_keeps_thrown; [|exact He].
      rewrite Hk. discriminate.
    + destruct (sweepSettled_cases ok (provisioner pr))
        as (_ & _ & _ & _ & [(_ & Heff)|(e & Hst & Heff)]);
        rewrite Heff in Hin.
      * destruct Hin as [Hin|[]]; discriminate.
      * split; [destruct Hin as [[= <-]|[]]; reflexivity|].
        exists e. rewrite Hst. apply (nth_error_In _ k).
        apply (nth_error_setStatus k _ AwaitingSweep). exact Hk.
  - destruct (nth_error (calls pr) k) as [[| | |]|] eqn:Hk; try exact (HI ms).
    cbn [resume done calls]. intros Hin.
    apply in_app_or in Hin. destruct Hin as [Hin|Hin].
    + destruct (HI ms Hin) as (Hms & e & He). split; [exact Hms|].
      exists e. apply setStatus_keeps_thrown; [|exact He].
      rewrite Hk. discriminate.
    + unfold delayElapsed in *.
      destruct (__keepRunning (provisioner pr) && negb once);
        [|destruct Hin].
      destruct (iteration_cases t (provisioner pr))
        as [(_ & Heff & Hst & _) | (_ & Heff & _ & _)];
        rewrite Heff in Hin.
      * split.
        -- destruct Hin as [[= <-]|[[= <-]|[]]]; reflexivity.
        -- eexists. rewrite Hst.
           apply (nth_error_In _ k).
           apply (nth_error_setStatus k _ AwaitingDelay). exact Hk.
      * destruct Hin as [Hin|[]]; discriminate.
Qed.

(** X14: the loop of [run] calls [exitTimer] only on its way to
    throwing: whenever a step of [run] has scheduled the exit of the
    process, the delay is [MAX_KILL_TIME] (30 s) and some call of [run]
    has thrown (the listener of the watchdog is not a step of [run]). *)
Theorem hard_exit_is_scheduled_only_by_a_call_that_threw
  (once : bool) (p : Provisioner) (inputs : list Input) (ms : N) :
  let pr := execute once (boot p) inputs in
  In (ExitTimer ms) (done pr) ->
  ms = 30000 /\ exists e, In (Threw e) (calls pr).
Proof.
  cbv zeta.
  apply (execute_invariant once
           (fun pr =>
              forall ms, In (ExitTimer ms) (done pr) ->
                         ms = MAX_KILL_TIME
                         /\ exists e, In (Threw e) (calls pr))
           (fun _ => true)).
  - intros pr i _ HI. apply react_exits. exact HI.
  - clear. induction inputs; [reflexivity | assumption].
  - intros ms' [].
Qed.

(** How one input other than a call of [run] changes the counter of
    consecutive failures, when a single call of [run] was made. *)
Lemma react_single_call (once : bool) (pr : Process) (i : Input) :
  isCallRun i = false ->
  (exists s, calls pr = [s])
  /\ (0 <= consecFail (__stats (provisioner pr)) <= MAX_FAILURES + 1)%Z
  /\ (calls pr = [AwaitingSweep] ->
      (consecFail (__stats (provisioner pr)) <= MAX_FAILURES)%Z) ->
  (exists s, calls (react once pr i) = [s])
  /\ (0 <= consecFail (__stats (provisioner (react once pr i)))
      <= MAX_FAILURES + 1)%Z
  /\ (calls (react once pr i) = [AwaitingSweep] ->
      (consecFail (__stats (provisioner (react once pr i))) <= MAX_FAILURES)%Z).
Proof.
  intros Hi ((s & Hc) & Hb & Hs).
  destruct i as [t| |k ok|k t]; cbn [react isCallRun] in *; try discriminate.
  - cbn [provisioner calls stop __stats consecFail].
    split; [exists s; exact Hc|]. unfold MAX_FAILURES. split; lia.
  - rewrite Hc. destruct k as [|k]; cbn [nth_error].
    + destruct s; try (rewrite Hc in *; split; [eexists; reflexivity|];
                       split; assumption).
      specialize (Hs Hc). cbn [resume provisioner calls].
      rewrite Hc. cbn [setStatus].
      destruct (sweepSettled_cases ok (provisioner pr))
        as (_ & _ & _ & Hcf & Hst).
      split; [eexists; reflexivity|]. split.
      * rewrite Hcf. destruct (is_resolved ok); unfold MAX_FAILURES in *; lia.
      * intros Heq.
        destruct Hst as [(Hst & _)|(e & Hst & _)]; rewrite Hst in Heq;
          discriminate.
    + destruct k; cbn [nth_error];
        (rewrite Hc in *; split; [eexists; reflexivity|]; split; assumption).
  - rewrite Hc. destruct k as [|k]; cbn [nth_error].
    + destruct s; try (rewrite Hc in *; split; [eexists; reflexivity|];
                       split; assumption).
      cbn [resume provisioner calls]. rewrite Hc. cbn [setStatus].
      unfold delayElapsed.
      destruct (__keepRunning (provisioner pr) && negb once).
      * destruct (iteration_cases t (provisioner pr))
          as [(Hc1 & _ & -> & ->) | (Hc1 & _ & -> & ->)].
        -- split; [eexists; reflexivity|]. split; [exact Hb | discriminate].
        -- cbn [consecFail]. split; [eexists; reflexivity|].
           split; [exact Hb | intros _; exact Hc1].
      * cbn [after status]. split; [eexists; reflexivity|].
        split; [exact Hb | discriminate].
    + destruct k; cbn [nth_error];
        (rewrite Hc in *; split; [eexists; reflexivity|]; split; assumption).
Qed.

(** X15: when [run] is called once on a provisioner just constructed,
    [__stats.consecFail] stays between 0 and 16 whatever happens next
    (sweeps failing or not, calls of [stop]), and is at most 15 while a
    sweep is awaited. *)
Theorem lone_run_keeps_the_failure_counter_bounded
  (pid : string) (interval : N) (p0 : Provisioner) (once : bool) (t : Time)
  (inputs : list Input) :
  Provisioner_new pid interval = Some p0 ->
  forallb (fun i => negb (isCallRun i)) inputs = true ->
  let pr := execute once (boot p0) (CallRun t :: inputs) in
  (0 <= consecFail (__stats (provisioner pr)) <= 16)%Z
  /\ (calls pr = [AwaitingSweep] ->
      (consecFail (__stats (provisioner pr)) <= 15)%Z).
Proof.
  intros Hnew Hall. cbv zeta.
  destruct (Provisioner_new_constructed pid interval p0 Hnew) as (-> & _).
  cbn [execute fold_left]. fold (execute once).
  set (pr1 := react once _ (CallRun t)).
  assert (H1 : (exists s, calls pr1 = [s])
               /\ (0 <= consecFail (__stats (provisioner pr1))
                   <= MAX_FAILURES + 1)%Z
               /\ (calls pr1 = [AwaitingSweep] ->
                   (consecFail (__stats (provisioner pr1))
                    <= MAX_FAILURES)%Z)).
  { subst pr1. cbn [react boot provisioner calls done].
    rewrite run_from_zero by reflexivity. cbn.
    split; [eexists; reflexivity|]. unfold MAX_FAILURES. split; [lia|].
    intros _; lia. }
  pose proof (execute_invariant once
                (fun pr =>
                   (exists s, calls pr = [s])
                   /\ (0 <= consecFail (__stats (provisioner pr))
                       <= MAX_FAILURES + 1)%Z
                   /\ (calls pr = [AwaitingSweep] ->
                       (consecFail (__stats (provisioner pr))
                        <= MAX_FAILURES)%Z))
                (fun i => negb (isCallRun i))) as Hinv.
  cbv beta in Hinv.
  destruct (Hinv (fun pr i Hi HI =>
                    react_single_call once pr i
                      (proj1 (negb_true_iff _) Hi) HI)
              inputs pr1 Hall H1) as (_ & Hb & Hs).
  split; [exact Hb | exact Hs].
Qed.

(** *** After [stop] *)

Lemma endsIteration_no_sweep (interval : N) (added : list Effect) :
  Forall (endsIteration interval) added -> sweepsStarted added = 0%nat.
Proof.
  induction 1 as [|e added [->| ->] _ IH]; [reflexivity | exact IH..].
Qed.

Lemma react_stopped (once : bool) (interval : N) (base : list Effect)
  (pr : Process) (i : Input) :
  isCallRun i = false ->
  __keepRunning (provisioner pr) = false
  /\ provisionIterationInterval (provisioner pr) = interval
  /\ (exists added,
        done pr = base ++ added /\ Forall (endsIteration interval) added) ->
  __keepRunning (provisioner (react once pr i)) = false
  /\ provisionIterationInterval (provisioner (react once pr i)) = interval
  /\ (exists added,
        done (react once pr i) = base ++ added
        /\ Forall (endsIteration interval) added).
Proof.
  intros Hi (Hk & Hv & added & Hd & Ha).
  destruct i as [t| |j ok|j t]; cbn [react isCallRun] in *; try discriminate.
  - cbn [provisioner done stop __keepRunning provisionIterationInterval].
    repeat split; [exact Hv | exists added; split; assumption].
  - destruct (nth_error (calls pr) j) as [[| | |]|];
      try (repeat split;
           [exact Hk | exact Hv | exists added; split; assumption]).
    cbn [resume provisioner done].
    destruct (sweepSettled_cases ok (provisioner pr))
      as (Hi' & Hk' & _ & _ & Hst).
    split; [rewrite Hk'; exact Hk|]. split; [rewrite Hi'; exact Hv|].
    destruct Hst as [(_ & ->)|(e & _ & ->)].
    + exists (added ++ [Pause interval]). rewrite Hd, Hv, <- app_assoc.
      split; [reflexivity|]. apply Forall_app. split; [exact Ha|].
      constructor; [left; reflexivity | constructor].
    + exists (added ++ [ExitTimer MAX_KILL_TIME]). rewrite Hd, <- app_assoc.
      split; [reflexivity|]. apply Forall_app. split; [exact Ha|].
      constructor; [right; reflexivity | constructor].
  - destruct (nth_error (calls pr) j) as [[| | |]|];
      try (repeat split;
           [exact Hk | exact Hv | exists added; split; assumption]).
    cbn [resume provisioner done]. unfold delayElapsed. rewrite Hk.
    cbn [andb after effects]. rewrite app_nil_r.
    repeat split; [exact Hk | exact Hv | exists added; split; assumption].
Qed.

Lemma react_stopped_pauses (once : bool) (interval : N)
  (base : list Effect) (pr : Process) (i : Input) :
  negb (isCallRun i) && printsStack i = true ->
  __keepRunning (provisioner pr) = false
  /\ provisionIterationInterval (provisioner pr) = interval
  /\ (exists k, done pr = base ++ repeat (Pause interval) k) ->
  __keepRunning (provisioner (react once pr i)) = false
  /\ provisionIterationInterval (provisioner (react once pr i)) = interval
  /\ (exists k, done (react once pr i) = base ++ repeat (Pause interval) k).
Proof.
  intros Hi (Hk & Hv & k & Hd).
  destruct i as [t| |j ok|j t]; cbn [react isCallRun negb andb] in *;
    try discriminate.
  - cbn [provisioner done stop __keepRunning provisionIterationInterval].
    repeat split; [exact Hv | exists k; exact Hd].
  - destruct (nth_error (calls pr) j) as [[| | |]|];
      try (repeat split; [exact Hk | exact Hv | exists k; exact Hd]).
    cbn [resume provisioner done]. unfold sweepSettled.
    cbn [printsStack] in Hi.
    destruct ok as [v|err]; [|destruct (stackLogging err); [discriminate|]];
      cbn [after effects __keepRunning provisionIterationInterval];
      (repeat split; [exact Hk | exact Hv |]);
      exists (S k); rewrite Hd, Hv, <- app_assoc, repeat_snoc; reflexivity.
  - destruct (nth_error (calls pr) j) as [[| | |]|];
      try (repeat split; [exact Hk | exact Hv | exists k; exact Hd]).
    cbn [resume provisioner done]. unfold delayElapsed. rewrite Hk.
    cbn [andb after effects]. rewrite app_nil_r.
    repeat split; [exact Hk | exact Hv | exists k; exact Hd].
Qed.

(** X16: after [stop], and until [run] is called again, no sweep is
    started and [__keepRunning] stays false: all that the calls of [run]
    in flight still do is to end their iteration, with its pause or
    with the exit timer of 30 s; and with pauses only when no sweep
    rejects with a reason whose stack cannot be printed. *)
Theorem no_sweep_starts_after_stop
  (once : bool) (pr : Process) (inputs : list Input) :
  forallb (fun i => negb (isCallRun i)) inputs = true ->
  let pr' := execute once pr (CallStop :: inputs) in
  __keepRunning (provisioner pr') = false
  /\ sweepsStarted (done pr') = sweepsStarted (done pr)
  /\ (exists added,
        done pr' = done pr ++ added
        /\ Forall
             (endsIteration (provisionIterationInterval (provisioner pr)))
             added)
  /\ (forallb printsStack inputs = true ->
      exists k,
        done pr'
        = done pr
          ++ repeat (Pause (provisionIterationInterval (provisioner pr))) k).
Proof.
  intros Hall. cbv zeta. cbn [execute fold_left]. fold (execute once).
  assert (Hquiet :
            forallb printsStack inputs = true ->
            exists k,
              done (execute once (react once pr CallStop) inputs)
              = done pr
                ++ repeat
                     (Pause (provisionIterationInterval (provisioner pr))) k).
  { intros Hp.
    assert (Hboth : forallb
                      (fun i => negb (isCallRun i) && printsStack i) inputs
                    = true).
    { clear - Hall Hp. induction inputs as [|i inputs IH]; [reflexivity|].
      cbn [forallb] in *. apply andb_prop in Hall. apply andb_prop in Hp.
      destruct Hall as [-> Hall]. destruct Hp as [-> Hp].
      exact (IH Hall Hp). }
    destruct (execute_invariant once
                (fun q =>
                   __keepRunning (provisioner q) = false
                   /\ provisionIterationInterval (provisioner q)
                      = provisionIterationInterval (provisioner pr)
                   /\ exists k,
                        done q
                        = done pr
                          ++ repeat
                               (Pause
                                  (provisionIterationInterval
                                     (provisioner pr))) k)
                (fun i => negb (isCallRun i) && printsStack i)
                (fun q i Hi HI =>
                   react_stopped_pauses once _ (done pr) q i Hi HI)
                inputs (react once pr CallStop) Hboth) as (_ & _ & Hd).
    - cbn [react provisioner done stop __keepRunning
           provisionIterationInterval].
      repeat split. exists O. simpl. rewrite app_nil_r. reflexivity.
    - exact Hd. }
  destruct (execute_invariant once
              (fun q =>
                 __keepRunning (provisioner q) = false
                 /\ provisionIterationInterval (provisioner q)
                    = provisionIterationInterval (provisioner pr)
                 /\ exists added,
                      done q = done pr ++ added
                      /\ Forall
                           (endsIteration
                              (provisionIterationInterval (provisioner pr)))
                           added)
              (fun i => negb (isCallRun i))
              (fun q i Hi HI =>
                 react_stopped once _ (done pr) q i
                   (proj1 (negb_true_iff _) Hi) HI)
              inputs (react once pr CallStop) Hall)
    as (Hk & _ & added & Hd & Ha).
  - cbn [react provisioner done stop __keepRunning
         provisionIterationInterval].
    repeat split. exists []. rewrite app_nil_r. split; [reflexivity|].
    constructor.
  - split; [exact Hk|].
    split; [|split; [exists added; split; assumption | exact Hquiet]].
    transitivity (sweepsStarted (done pr ++ added));
      [exact (f_equal sweepsStarted Hd)|].
    rewrite sweepsStarted_app, (endsIteration_no_sweep _ _ Ha). lia.
Qed.

(** *** [PROVISION_ONCE] *)


(** *** The pace of the sweeps *)

Lemma bind_causal {A B} (m : Async A) (k : A -> Async B) :
  causal m -> (forall a, causal (k a)) -> causal (bind m k).
Proof.
  intros Hm Hk t. unfold bind. specialize (Hm t).
  destruct (fate (m t)) as [a|e]; cbn [settledAt]; [|exact Hm].
  specialize (Hk a (settledAt (m t))). lia.
Qed.

Lemma start_causal {A} (m : Async A) : causal (start m).
Proof. intros t. unfold start. cbn [settledAt]. lia. Qed.

Lemma startEach_causal {A B} (f : A -> Async B) (arr : list A) :
  causal (startEach f arr).
Proof.
  induction arr as [|a arr IH]; cbn [startEach].
  - intros t. unfold ret. cbn [settledAt]. lia.
  - apply bind_causal; [apply start_causal|]. intros p.
    apply bind_causal; [exact IH|]. intros ps t. unfold ret.
    cbn [settledAt]. lia.
Qed.

Lemma sweep_causal (cfg : Collaborators) (pid : string) :
  causal (runAllProvisionersOnce cfg pid).
Proof.
  unfold runAllProvisionersOnce.
  repeat (apply bind_causal; [apply start_causal | intros ?]).
  apply bind_causal; [intros t; apply Promise_all_causal|].
  intros res.
  assert (Hthrow : causal
                     (@throw (list Val)
                        "TypeError: workerTypes.map is not a function"%string)).
  { intros t. unfold throw. cbn [settledAt]. lia. }
  destruct res as [|[wts|pr|] [|[wts'|pr'|] [|x [|y rest]]]]; try exact Hthrow.
  apply bind_causal.
  - unfold maintenance.
    repeat (apply bind_causal; [apply start_causal | intros ?]).
    apply bind_causal; [apply startEach_causal|]. intros ks t.
    apply Promise_all_causal.
  - intros _. unfold fanOut.
    apply bind_causal; [apply startEach_causal|]. intros ps t.
    apply Promise_all_causal.
Qed.

Lemma sweepStarts_app (l1 l2 : list Effect) :
  sweepStarts (l1 ++ l2) = sweepStarts l1 ++ sweepStarts l2.
Proof.
  induction l1 as [|[ms|s|ms] l1 IH]; cbn [sweepStarts app];
    rewrite ?IH; reflexivity.
Qed.

Lemma backToBack_snoc (cfg : Collaborators) (pid : string) (gap : N)
  (pre : list Time) (t t' : Time) :
  backToBack cfg pid gap (pre ++ [t]) ->
  t' = settledAt (runAllProvisionersOnce cfg pid t) + gap ->
  backToBack cfg pid gap ((pre ++ [t]) ++ [t']).
Proof.
  intros H Ht'. induction pre as [|x pre IH].
  - cbn [app backToBack]. repeat split. exact Ht'.
  - cbn [app backToBack] in *. destruct H as [Hx H]. split; [|exact (IH H)].
    destruct pre; exact Hx.
Qed.

(** Sweeps that follow one another in this way start [gap] apart. *)
Lemma backToBack_spaced (cfg : Collaborators) (pid : string) (gap : N)
  (ts : list Time) :
  backToBack cfg pid gap ts -> spaced gap ts.
Proof.
  assert (Hhead : forall rest x,
             backToBack cfg pid gap (x :: rest) ->
             Forall (fun y => x + gap <= y) rest).
  { induction rest as [|y rest IH]; intros x H; [constructor|].
    cbn [backToBack] in H. destruct H as [Hy H].
    pose proof (sweep_causal cfg pid x) as Hx.
    constructor; [lia|].
    eapply Forall_impl; [|exact (IH y H)]. cbv beta. intros z Hz. lia. }
  induction ts as [|x ts IH]; intros H; [exact I|].
  cbn [spaced]. split; [exact (Hhead ts x H)|].
  apply IH. cbn [backToBack] in H. exact (proj2 H).
Qed.

(** The invariant of a lone [run]: the sweep awaited, if any, is the last
    one started, at [t]. *)
Lemma iterations_backToBack (cfg : Collaborators) (pid : string)
  (once : bool) (gap : N) (n : nat) :
  forall (t : Time) (pr : Process),
    provisionIterationInterval (provisioner pr) = gap ->
    backToBack cfg pid gap (sweepStarts (done pr)) ->
    (nth_error (calls pr) 0 = Some AwaitingSweep ->
     exists pre, sweepStarts (done pr) = pre ++ [t]) ->
    backToBack cfg pid gap
      (sweepStarts (done (iterations cfg pid once n t pr))).
Proof.
  induction n as [|n IH]; intros t pr Hg Hb Hlast; [exact Hb|].
  cbn [iterations].
  destruct (nth_error (calls pr) 0) as [[| | |]|] eqn:H0; try exact Hb.
  destruct (Hlast eq_refl) as (pre & Hpre).
  set (sw := runAllProvisionersOnce cfg pid t).
  destruct (sweepSettled_cases (fate sw) (provisioner pr))
    as (Hi & _ & _ & _ & [(Hst & Heff)|(e & Hst & Heff)]);
    rewrite Hst, ?Heff.
  - unfold delayer, perform. cbn [settledAt fst exitTimer].
    set (pr1 := resume 0 (sweepSettled (fate sw) (provisioner pr)) pr).
    assert (H1 : nth_error (calls pr1) 0 = Some AwaitingDelay).
    { subst pr1. cbn [resume calls]. rewrite Hst.
      apply (nth_error_setStatus 0 _ AwaitingSweep). exact H0. }
    assert (Hg1 : provisionIterationInterval (provisioner pr1) = gap).
    { subst pr1. cbn [resume provisioner]. rewrite Hi. exact Hg. }
    assert (Hd1 : sweepStarts (done pr1) = pre ++ [t]).
    { subst pr1. cbn [resume done]. rewrite Heff, sweepStarts_app, Hpre.
      cbn [sweepStarts]. apply app_nil_r. }
    rewrite Hg.
    set (t' := settledAt sw + gap).
    apply (IH t'); cbn [react]; rewrite H1; cbn [resume provisioner done calls];
      unfold delayElapsed;
      destruct (__keepRunning (provisioner pr1) && negb once).
    + destruct (iteration_flags t' (provisioner pr1)) as (_ & ->).
      exact Hg1.
    + exact Hg1.
    + destruct (iteration_cases t' (provisioner pr1))
        as [(_ & -> & _) | (_ & -> & _)];
        rewrite sweepStarts_app, Hd1; cbn [sweepStarts].
      * rewrite app_nil_r, <- Hpre. exact Hb.
      * apply backToBack_snoc; [rewrite <- Hpre; exact Hb | reflexivity].
    + cbn [effects]. rewrite app_nil_r, Hd1, <- Hpre. exact Hb.
    + destruct (iteration_cases t' (provisioner pr1))
        as [(_ & -> & Hs' & _) | (_ & -> & _)].
      * intros Hn.
        rewrite (nth_error_setStatus 0 _ AwaitingDelay _ H1), Hs' in Hn.
        discriminate.
      * intros _. exists (pre ++ [t]).
        rewrite sweepStarts_app, Hd1. reflexivity.
    + cbn [status]. intros Hn.
      rewrite (nth_error_setStatus 0 _ AwaitingDelay _ H1) in Hn.
      discriminate.
  - cbn [exitTimer resume done]. rewrite Heff, sweepStarts_app.
    cbn [sweepStarts]. rewrite app_nil_r. exact Hb.
Qed.

(** X18: in a call of [run] that is left alone, each sweep but the first
    is started exactly when the pause that [run] asked of its delayer
    after the sweep before it, [provisionIterationInterval], has elapsed
    since that sweep settled; the sweeps therefore start
    [provisionIterationInterval] apart at least, however long each
    lasts. *)
Theorem sweeps_of_a_lone_run_are_an_interval_apart
  (cfg : Collaborators) (pid : string) (once : bool) (n : nat) (t : Time)
  (p : Provisioner) :
  backToBack cfg pid (provisionIterationInterval p)
    (sweepStarts (done (runAlone cfg pid once n t p)))
  /\ spaced (provisionIterationInterval p)
       (sweepStarts (done (runAlone cfg pid once n t p))).
Proof.
  assert (H : backToBack cfg pid (provisionIterationInterval p)
                (sweepStarts (done (runAlone cfg pid once n t p)))).
  { unfold runAlone. apply iterations_backToBack.
    - cbn [react boot provisioner]. unfold run.
      exact (proj2 (iteration_flags t _)).
    - cbn [react boot provisioner done app].
      destruct (run_cases t p) as [(_ & -> & _) | (_ & -> & _)];
        cbn [sweepStarts backToBack]; [exact I | split; exact I].
    - cbn [react boot provisioner calls done app].
      destruct (run_cases t p) as [(_ & -> & -> & _) | (_ & -> & _)];
        cbn [sweepStarts nth_error]; [discriminate|].
      intros _. exists []. reflexivity. }
  split; [exact H | exact (backToBack_spaced cfg pid _ _ H)].
Qed.

(** ** The metrics *)

Lemma counted_app (key : string) (m1 m2 : Monitor) :
  counted key (m1 ++ m2) = (counted key m1 + counted key m2)%Z.
Proof.
  induction m1 as [|[k v|k v] m1 IH]; cbn [counted app]; rewrite ?IH; lia.
Qed.

Lemma measured_app (key : string) (m1 m2 : Monitor) :
  measured key (m1 ++ m2) = measured key m1 ++ measured key m2.
Proof.
  induction m1 as [|[k v|k v] m1 IH]; cbn [measured app]; rewrite ?IH;
    try reflexivity.
  destruct (k =? key)%string; reflexivity.
Qed.

(** *** Telling keys apart *)

Lemma dots_app (a b : string) : dots (a ++ b) = (dots a + dots b)%nat.
Proof.
  induction a as [|c a IH]; cbn [dots append]; [reflexivity|].
  rewrite IH. lia.
Qed.

Lemma lastChar_app (a b : string) :
  lastChar (a ++ b)
  = match lastChar b with None => lastChar a | found => found end.
Proof.
  induction a as [|c a IH]; cbn [lastChar append].
  - destruct (lastChar b); reflexivity.
  - rewrite IH. destruct (lastChar b); reflexivity.
Qed.

Lemma occurs_prefix (part s : string) :
  startsWith part s = true -> occurs part s = true.
Proof. intros H. destruct s; cbn [occurs]; rewrite H; reflexivity. Qed.

Lemma occurs_app_r (part a b : string) :
  occurs part b = true -> occurs part (a ++ b) = true.
Proof.
  intros H. induction a as [|c a IH]; cbn [append]; [exact H|].
  cbn [occurs]. rewrite IH. apply orb_true_r.
Qed.

Lemma distinct_by_dots (a b : string) :
  dots a <> dots b -> (a =? b)%string = false.
Proof. intros H. apply String.eqb_neq. intros ->. apply H. reflexivity. Qed.

Lemma distinct_by_last (a b : string) :
  lastChar a <> lastChar b -> (a =? b)%string = false.
Proof. intros H. apply String.eqb_neq. intros ->. apply H. reflexivity. Qed.

Lemma distinct_by_part (part a b : string) :
  occurs part a = true -> occurs part b = false -> (a =? b)%string = false.
Proof.
  intros Ha Hb. apply String.eqb_neq. intros ->. rewrite Ha in Hb.
  discriminate.
Qed.

(** Names without dot that are followed by a dot are read back from the
    key. *)
Lemma segment_inj (a b x y : string) :
  dots a = 0%nat -> dots b = 0%nat ->
  (a ++ "." ++ x = b ++ "." ++ y)%string -> a = b /\ x = y.
Proof.
  revert b. induction a as [|c a IH]; intros [|d b] Ha Hb H;
    cbn [append dots] in *.
  - injection H as H. split; [reflexivity | exact H].
  - injection H as Hc H. subst d. cbn in Hb. discriminate.
  - injection H as Hc H. subst c. cbn in Ha. discriminate.
  - injection H as Hc H. subst d.
    destruct (Ascii.eqb c "."); [discriminate|].
    destruct (IH b Ha Hb H) as [-> ->]. split; reflexivity.
Qed.

Lemma length_append (a b : string) :
  String.length (a ++ b) = (String.length a + String.length b)%nat.
Proof.
  induction a as [|c a IH]; cbn [String.length append]; [reflexivity|].
  rewrite IH. reflexivity.
Qed.

Lemma append_inv_tail (a b x : string) :
  (a ++ x = b ++ x)%string -> a = b.
Proof.
  revert b. induction a as [|c a IH]; intros [|d b] H; cbn [append] in H.
  - reflexivity.
  - apply (f_equal String.length) in H. cbn [String.length] in H.
    rewrite length_append in H. lia.
  - apply (f_equal String.length) in H. cbn [String.length] in H.
    rewrite length_append in H. lia.
  - injection H as -> H. rewrite (IH b H). reflexivity.
Qed.

Lemma eqb_append_tail (a b x : string) :
  ((a ++ x) =? (b ++ x))%string = (a =? b)%string.
Proof.
  destruct (String.eqb_spec a b) as [->|Hn].
  - apply String.eqb_refl.
  - apply String.eqb_neq. intros H. apply Hn.
    exact (append_inv_tail a b x H).
Qed.

Lemma eqb_append_head (p a b : string) :
  ((p ++ a) =? (p ++ b))%string = (a =? b)%string.
Proof.
  induction p as [|c p IH]; cbn [append String.eqb]; [reflexivity|].
  rewrite Ascii.eqb_refl. exact IH.
Qed.

(** A key that starts with a plain region is not the key of a worker
    type. *)
Lemma region_key_not_worker (r x y : string) :
  dots r = 0%nat -> r <> "worker"%string ->
  ((r ++ "." ++ x) =? ("worker." ++ y))%string = false.
Proof.
  intros Hd Hn. apply String.eqb_neq. intros H.
  change ("worker." ++ y)%string with ("worker" ++ "." ++ y)%string in H.
  destruct (segment_inj r "worker" x y Hd eq_refl H) as [Hr _].
  exact (Hn Hr).
Qed.

(** The keys of two plain worker types under different counters. *)
Lemma worker_keys_differ (a b s1 s2 : string) :
  dots a = 0%nat -> dots b = 0%nat -> s1 <> s2 ->
  (("worker." ++ a ++ "." ++ s1) =? ("worker." ++ b ++ "." ++ s2))%string
  = false.
Proof.
  intros Ha Hb Hs. rewrite eqb_append_head. apply String.eqb_neq. intros H.
  destruct (segment_inj a b s1 s2 Ha Hb H) as [_ H2]. exact (Hs H2).
Qed.

(** The key of an instance type in a zone determines the three names,
    when the region and the zone have no dot. *)
Lemma zone_key_eqb (r az it r' az' it' suffix : string) :
  dots r = 0%nat -> dots az = 0%nat -> dots r' = 0%nat ->
  dots az' = 0%nat ->
  ((r' ++ "." ++ az' ++ "." ++ it' ++ suffix)
   =? (r ++ "." ++ az ++ "." ++ it ++ suffix))%string
  = ((r' =? r) && (az' =? az) && (it' =? it))%string.
Proof.
  intros Hr Ha Hr' Ha'.
  destruct (String.eqb_spec r' r) as [->|Hn]; cbn [andb].
  - rewrite !eqb_append_head.
    destruct (String.eqb_spec az' az) as [->|Hn]; cbn [andb].
    + rewrite !eqb_append_head. apply eqb_append_tail.
    + apply String.eqb_neq. intros H.
      destruct (segment_inj _ _ _ _ Ha' Ha H) as [H2 _].
      exact (Hn H2).
  - apply String.eqb_neq. intros H.
    destruct (segment_inj _ _ _ _ Hr' Hr H) as [H1 _]. exact (Hn H1).
Qed.

Ltac has_part :=
  repeat first
    [ apply occurs_prefix; reflexivity
    | apply occurs_app_r ].

Ltac other_key :=
  first
    [ apply distinct_by_dots; rewrite ?dots_app; simpl; lia
    | apply distinct_by_last; rewrite ?lastChar_app; simpl; discriminate
    | apply (distinct_by_part ".ami."); [has_part | reflexivity] ].

(** Deciding the comparisons of keys that are left in the goal. *)
Ltac settle_keys :=
  repeat
    match goal with
    | |- context [String.eqb ?k ?key] =>
        let v := eval cbv in (String.eqb k key) in
        match v with
        | true => change (String.eqb k key) with true
        | false => change (String.eqb k key) with false
        end
    | |- context [String.eqb ?k ?key] =>
        let H := fresh "Hkey" in
        assert (H : String.eqb k key = false) by other_key;
        rewrite H; clear H
    end.

Ltac calls_made :=
  cbn [observe];
  unfold lag, spotRequestSubmitted, spotRequestFulfilled, spotRequestDied,
    instanceTerminated, spotFloorFound, amiUsage, count, measure;
  rewrite ?counted_app, ?measured_app; cbn [counted measured].

Ltac by_observation o :=
  destruct o as
    [ pid r' az' it' wt' id' didShow l
    | pid r' az' it' wt' id' bid
    | pid r' az' it' wt' id' iid time
    | pid r' az' it' wt' id' time bid st code msg
    | pid r' az' it' wt' id' sr time lt c msg cc cm
    | r' az' it' time cost reason
    | pid r' az' it' wt' ami ].

(** A counter that every call increases by one or leaves alone counts
    the calls that increase it. *)
Lemma counted_observeAll (key : string) (f : Observation -> bool) :
  (forall m o,
      counted key (observe m o)
      = (counted key m + (if f o then 1 else 0))%Z) ->
  forall os,
    counted key (observeAll os) = Z.of_nat (List.length (filter f os)).
Proof.
  intros Hstep os. unfold observeAll.
  assert (H : forall m,
             counted key (fold_left observe os m)
             = (counted key m + Z.of_nat (List.length (filter f os)))%Z).
  { induction os as [|o os IH]; intros m; cbn [fold_left filter].
    - cbn. lia.
    - rewrite IH, Hstep. destruct (f o); cbn [List.length]; lia. }
  rewrite H. cbn. reflexivity.
Qed.

Lemma observe_didshow (m : Monitor) (o : Observation) :
  counted "overall.didshow" (observe m o)
  = (counted "overall.didshow" m + (if showedUp o then 1 else 0))%Z.
Proof.
  by_observation o; try destruct didShow; calls_made; settle_keys;
    cbn [showedUp]; lia.
Qed.

Lemma observe_noshow (m : Monitor) (o : Observation) :
  counted "overall.noshow" (observe m o)
  = (counted "overall.noshow" m
     + (if isLagReport o && negb (showedUp o) then 1 else 0))%Z.
Proof.
  by_observation o; try destruct didShow; calls_made; settle_keys;
    cbn [showedUp isLagReport andb negb]; lia.
Qed.

(** X19: after any sequence of calls of the functions of
    [monitors.js], the counter [overall.didshow] is the number of calls
    of [lag] with [didShow] set, and [overall.didshow] and
    [overall.noshow] together are the number of calls of [lag]: no other
    function, and no name of a region, zone, instance type or worker
    type, touches these two counters. *)
Theorem every_lag_report_counts_as_didshow_or_noshow
  (os : list Observation) :
  counted "overall.didshow" (observeAll os)
  = Z.of_nat (List.length (filter showedUp os))
  /\ (counted "overall.didshow" (observeAll os)
      + counted "overall.noshow" (observeAll os))%Z
     = Z.of_nat (List.length (filter isLagReport os)).
Proof.
  rewrite (counted_observeAll "overall.didshow" showedUp observe_didshow).
  rewrite (counted_observeAll "overall.noshow"
             (fun o => isLagReport o && negb (showedUp o)) observe_noshow).
  split; [reflexivity|].
  induction os as [|o os IH]; [reflexivity|]. cbn [filter].
  by_observation o; try destruct didShow;
    cbn [showedUp isLagReport andb negb List.length]; lia.
Qed.

Lemma observe_submitted (m : Monitor) (o : Observation) :
  counted "overall.spot.submitted.count" (observe m o)
  = (counted "overall.spot.submitted.count" m
     + (if isSubmitted o then 1 else 0))%Z.
Proof.
  by_observation o; try destruct didShow; calls_made; settle_keys;
    cbn [isSubmitted]; lia.
Qed.

Lemma observe_fulfilled (m : Monitor) (o : Observation) :
  counted "overall.spot.filled.count" (observe m o)
  = (counted "overall.spot.filled.count" m
     + (if isFulfilled o then 1 else 0))%Z.
Proof.
  by_observation o; try destruct didShow; calls_made; settle_keys;
    cbn [isFulfilled]; lia.
Qed.

Lemma observe_died (m : Monitor) (o : Observation) :
  counted "overall.spot.died.count" (observe m o)
  = (counted "overall.spot.died.count" m + (if isDied o then 1 else 0))%Z.
Proof.
  by_observation o; try destruct didShow; calls_made; settle_keys;
    cbn [isDied]; lia.
Qed.

Lemma observe_terminated (m : Monitor) (o : Observation) :
  counted "overall.instance.terminated" (observe m o)
  = (counted "overall.instance.terminated" m
     + (if isTerminated o then 1 else 0))%Z.
Proof.
  by_observation o; try destruct didShow; calls_made; settle_keys;
    cbn [isTerminated]; lia.
Qed.

(** X20: after any sequence of calls of the functions of
    [monitors.js], each of the counters [overall.spot.submitted.count],
    [overall.spot.filled.count], [overall.spot.died.count] and
    [overall.instance.terminated] is the number of calls of its own
    function, whatever the names given in the calls. *)
Theorem overall_counters_count_their_own_events (os : list Observation) :
  counted "overall.spot.submitted.count" (observeAll os)
  = Z.of_nat (List.length (filter isSubmitted os))
  /\ counted "overall.spot.filled.count" (observeAll os)
     = Z.of_nat (List.length (filter isFulfilled os))
  /\ counted "overall.spot.died.count" (observeAll os)
     = Z.of_nat (List.length (filter isDied os))
  /\ counted "overall.instance.terminated" (observeAll os)
     = Z.of_nat (List.length (filter isTerminated os)).
Proof.
  repeat split.
  - exact (counted_observeAll _ _ observe_submitted os).
  - exact (counted_observeAll _ _ observe_fulfilled os).
  - exact (counted_observeAll _ _ observe_died os).
  - exact (counted_observeAll _ _ observe_terminated os).
Qed.

(** *** The counter of a worker type *)

Ltac not_a_worker_key Hd Hn :=
  repeat
    match goal with
    | |- context [String.eqb (append ?r ?x) (append "worker." ?y)] =>
        let H := fresh "Hkey" in
        assert (H : String.eqb (append r x) (append "worker." y) = false)
          by (exact (region_key_not_worker r _ y Hd Hn));
        rewrite H; clear H
    end.

Ltac other_counter Hw Hname :=
  repeat
    match goal with
    | |- context [String.eqb (append "worker." (append ?w ?s1))
                    (append "worker." (append ?n ?s2))] =>
        let H := fresh "Hkey" in
        assert (H : String.eqb (append "worker." (append w s1))
                      (append "worker." (append n s2)) = false)
          by (refine (worker_keys_differ w n _ _ Hw Hname _); discriminate);
        rewrite H; clear H
    end.

Lemma observe_submitted_for (name : string) (m : Monitor)
  (o : Observation) :
  dots name = 0%nat -> plainNames o ->
  counted ("worker." ++ name ++ ".spot.submitted.count") (observe m o)
  = (counted ("worker." ++ name ++ ".spot.submitted.count") m
     + (if isSubmittedFor name o then 1 else 0))%Z.
Proof.
  intros Hname Ho.
  by_observation o; cbn [plainNames] in Ho;
    try destruct Ho as (Hd & Hn & Hw);
    try destruct didShow; calls_made; cbn [isSubmittedFor];
    try not_a_worker_key Hd Hn;
    try other_counter Hw Hname;
    try rewrite (eqb_append_head "worker."
                   (wt' ++ ".spot.submitted.count")
                   (name ++ ".spot.submitted.count")),
        (eqb_append_tail wt' name ".spot.submitted.count");
    settle_keys; try lia.
  destruct (wt' =? name)%string; lia.
Qed.

(** X21: when the regions have no dot and are not ["worker"], and the
    worker types have no dot, the counter
    [worker.<name>.spot.submitted.count] is the number of calls of
    [spotRequestSubmitted] for the worker type [name], after any sequence
    of calls of the functions of [monitors.js]. *)
Theorem worker_counter_counts_the_requests_of_its_pool
  (name : string) (os : list Observation) :
  dots name = 0%nat -> Forall plainNames os ->
  counted ("worker." ++ name ++ ".spot.submitted.count") (observeAll os)
  = Z.of_nat (List.length (filter (isSubmittedFor name) os)).
Proof.
  intros Hname Hos. unfold observeAll.
  assert (H : forall m,
             counted ("worker." ++ name ++ ".spot.submitted.count")
               (fold_left observe os m)
             = (counted ("worker." ++ name ++ ".spot.submitted.count") m
                + Z.of_nat
                    (List.length (filter (isSubmittedFor name) os)))%Z).
  { induction Hos as [|o os Ho Hos IH]; intros m; cbn [fold_left filter].
    - cbn [List.length]. lia.
    - rewrite IH, (observe_submitted_for name m o Hname Ho).
      destruct (isSubmittedFor name o); cbn [List.length]; lia. }
  rewrite H. cbn [counted]. lia.
Qed.

(** *** The lags of a zone *)

Lemma observe_lag_at (r az it : string) (m : Monitor) (o : Observation) :
  dots r = 0%nat -> dots az = 0%nat -> plainZone o ->
  measured (r ++ "." ++ az ++ "." ++ it ++ ".lag") (observe m o)
  = measured (r ++ "." ++ az ++ "." ++ it ++ ".lag") m
    ++ match lagAt r az it o with Some l => [l] | None => [] end.
Proof.
  intros Hr Ha Ho.
  by_observation o; cbn [plainZone] in Ho;
    try destruct Ho as (Hr' & Ha');
    try destruct didShow; calls_made; cbn [lagAt];
    try rewrite (zone_key_eqb r az it r' az' it' ".lag" Hr Ha Hr' Ha');
    settle_keys; rewrite ?app_nil_r; try reflexivity.
  all: destruct ((r' =? r) && (az' =? az) && (it' =? it))%string;
    reflexivity.
Qed.

(** X22: when the regions and zones of the lag reports have no dot,
    the values measured under [<region>.<az>.<instanceType>.lag] are the
    lags reported by [lag] for that instance type in that zone, in the
    order of the reports, after any sequence of calls of the functions
    of [monitors.js] (an instance type may contain dots). *)
Theorem zone_lag_key_holds_the_lags_of_its_zone
  (r az it : string) (os : list Observation) :
  dots r = 0%nat -> dots az = 0%nat -> Forall plainZone os ->
  measured (r ++ "." ++ az ++ "." ++ it ++ ".lag") (observeAll os)
  = lagsAt r az it os.
Proof.
  intros Hr Ha Hos. unfold observeAll.
  assert (H : forall m,
             measured (r ++ "." ++ az ++ "." ++ it ++ ".lag")
               (fold_left observe os m)
             = measured (r ++ "." ++ az ++ "." ++ it ++ ".lag") m
               ++ lagsAt r az it os).
  { induction Hos as [|o os Ho Hos IH]; intros m; cbn [fold_left lagsAt].
    - rewrite app_nil_r. reflexivity.
    - rewrite IH, (observe_lag_at r az it m o Hr Ha Ho), <- app_assoc.
      destruct (lagAt r az it o); reflexivity. }
  rewrite H. reflexivity.
Qed.

(** *** The price of a capacity unit *)

Lemma observe_price (m : Monitor) (o : Observation) :
  measured "overall.price-per-capacity-unit" (observe m o)
  = measured "overall.price-per-capacity-unit" m
    ++ truePricesSubmitted [o].
Proof.
  by_observation o; try destruct didShow; calls_made; settle_keys;
    cbn [truePricesSubmitted]; rewrite ?app_nil_r; reflexivity.
Qed.

(** X23: after any sequence of calls of the functions of
    [monitors.js], the values measured under
    [overall.price-per-capacity-unit] are the [truePrice] of the bids
    given to [spotRequestSubmitted], in order, and nothing else. *)
Theorem price_series_holds_the_true_price_of_every_submitted_bid
  (os : list Observation) :
  measured "overall.price-per-capacity-unit" (observeAll os)
  = truePricesSubmitted os.
Proof.
  unfold observeAll.
  assert (H : forall m,
             measured "overall.price-per-capacity-unit"
               (fold_left observe os m)
             = measured "overall.price-per-capacity-unit" m
               ++ truePricesSubmitted os).
  { induction os as [|o os IH]; intros m; cbn [fold_left].
    - cbn [truePricesSubmitted]. rewrite app_nil_r. reflexivity.
    - rewrite IH, observe_price, <- app_assoc. f_equal.
      by_observation o; reflexivity. }
  rewrite H. reflexivity.
Qed.

(** ** The further properties on explicit inputs *)

Lemma requests_of_a_pool_are_half_a_second_apart_witness :
  let wt := pool "w" 2 [bidA; bidB] in
  let p := provisionType (calm []) "aws-provisioner" wt noPricing 0 in
  exists l1 r1 l2 r2 l3,
    log p = l1 ++ r1 :: l2 ++ r2 :: l3
    /\ isRequest r1 = true /\ ev_ok r1 = true /\ isRequest r2 = true
    /\ ev_end r1 = 122 /\ ev_start r2 = 629
    /\ ev_end r1 + 500 <= ev_start r2.
Proof.
  cbv zeta.
  set (wt := pool "w" 2 [bidA; bidB]).
  set (L := log (provisionType (calm []) "aws-provisioner" wt noPricing 0)).
  set (ev0 := mkEvent LoadAll 0 0 true).
  assert (Hlog : L = firstn 3 L ++ nth 3 L ev0
                       :: firstn 2 (skipn 4 L) ++ nth 6 L ev0 :: skipn 7 L)
    by reflexivity.
  assert (H1 : isRequest (nth 3 L ev0) = true) by reflexivity.
  assert (Hok : ev_ok (nth 3 L ev0) = true) by reflexivity.
  assert (H2 : isRequest (nth 6 L ev0) = true) by reflexivity.
  exists (firstn 3 L), (nth 3 L ev0), (firstn 2 (skipn 4 L)), (nth 6 L ev0),
    (skipn 7 L).
  split; [exact Hlog|]. split; [exact H1|]. split; [exact Hok|].
  split; [exact H2|]. split; [reflexivity|]. split; [reflexivity|].
  exact (requests_of_a_pool_are_half_a_second_apart (calm [])
           "aws-provisioner" wt noPricing 0 _ _ _ _ _ Hlog H1 Hok H2).
Defined.

Lemma scale_up_resolves_with_the_last_request_witness :
  let wt := pool "w" 2 [bidA; bidB] in
  let p := provisionType (calm []) "aws-provisioner" wt noPricing 0 in
  bidsFor (calm []) wt noPricing 15 0 = [bidA] ++ [bidB]
  /\ fate p = Resolved (Some "sir-1"%string)
  /\ exists li submitted accepted,
       In (mkEvent (RequestSpotInstance li bidB) submitted accepted true)
         (log p)
       /\ submitted <= accepted
       /\ settledAt p = accepted + 500.
Proof.
  cbv zeta.
  set (wt := pool "w" 2 [bidA; bidB]).
  assert (Hq : queue_pendingTasks (calm []) "aws-provisioner" (workerType wt)
                 0
               = (15, Resolved 0%Z)) by reflexivity.
  assert (Hpos : (0 < capacityChange (calm []) wt 15%N 0)%Z) by reflexivity.
  assert (Hb : bidsFor (calm []) wt noPricing 15 0 = [bidA] ++ [bidB])
    by reflexivity.
  assert (Hr : fate (provisionType (calm []) "aws-provisioner" wt noPricing 0)
               = Resolved (Some "sir-1"%string)) by reflexivity.
  destruct (scale_up_resolves_with_the_last_request (calm [])
              "aws-provisioner" wt noPricing 0 15 0 [bidA] bidB _ Hq Hpos Hb
              Hr)
    as (li & submitted & accepted & Hin & _ & Hle & Hat).
  split; [exact Hb|]. split; [exact Hr|].
  exists li, submitted, accepted.
  split; [exact Hin|]. split; [exact Hle | exact Hat].
Defined.

Lemma scale_up_without_bids_submits_nothing_witness :
  let wt := pool "w" 2 [] in
  let p := provisionType (calm []) "aws-provisioner" wt noPricing 0 in
  (0 < capacityChange (calm []) wt 15%N 0)%Z
  /\ bidsFor (calm []) wt noPricing 15 0 = []
  /\ fate p = Resolved None
  /\ settledAt p = 15
  /\ filter isSubmission (log p) = [].
Proof.
  cbv zeta.
  set (wt := pool "w" 2 []).
  assert (Hq : queue_pendingTasks (calm []) "aws-provisioner" (workerType wt)
                 0
               = (15, Resolved 0%Z)) by reflexivity.
  assert (Hpos : (0 < capacityChange (calm []) wt 15%N 0)%Z) by reflexivity.
  assert (Hb : bidsFor (calm []) wt noPricing 15 0 = []) by reflexivity.
  destruct (scale_up_without_bids_submits_nothing (calm []) "aws-provisioner"
              wt noPricing 0 15 0 Hq Hpos Hb) as (H1 & H2 & H3 & _).
  split; [exact Hpos|]. split; [exact Hb|]. split; [exact H1|].
  split; [exact H2 | exact H3].
Defined.

Lemma scale_up_lasts_half_a_second_per_bid_witness :
  let wt := pool "w" 2 [bidA; bidB] in
  let p := provisionType (calm []) "aws-provisioner" wt noPricing 0 in
  fate p = Resolved (Some "sir-1"%string)
  /\ List.length (bidsFor (calm []) wt noPricing 15 0) = 2%nat
  /\ 0 + 15 + 500 * 2 <= settledAt p.
Proof.
  cbv zeta.
  set (wt := pool "w" 2 [bidA; bidB]).
  assert (Hq : queue_pendingTasks (calm []) "aws-provisioner" (workerType wt)
                 0
               = (15, Resolved 0%Z)) by reflexivity.
  assert (Hpos : (0 < capacityChange (calm []) wt 15%N 0)%Z) by reflexivity.
  assert (Hr : fate (provisionType (calm []) "aws-provisioner" wt noPricing 0)
               = Resolved (Some "sir-1"%string)) by reflexivity.
  split; [exact Hr|]. split; [reflexivity|].
  exact (scale_up_lasts_half_a_second_per_bid (calm []) "aws-provisioner" wt
           noPricing 0 15 0 _ Hq Hpos Hr).
Defined.

Lemma spawnChain_app_witness :
  let wt := pool "w" 2 [bidA; bidB] in
  let first := spawnChain (calm []) wt [bidA] 15 in
  let rest := spawnChain (calm []) wt [bidB] (settledAt first) in
  let whole := spawnChain (calm []) wt ([bidA] ++ [bidB]) 15 in
  fate first = Resolved (Some "sir-1"%string)
  /\ log whole = log first ++ log rest
  /\ settledAt whole = settledAt rest
  /\ fate whole = fate rest.
Proof.
  cbv zeta.
  set (wt := pool "w" 2 [bidA; bidB]).
  assert (H1 : fate (spawnChain (calm []) wt [bidA] 15)
               = Resolved (Some "sir-1"%string)) by reflexivity.
  destruct (spawnChain_app (calm []) wt [bidA] [bidB] 15 _ H1)
    as (Hlog & Hat & _ & Hfate).
  split; [exact H1|]. split; [exact Hlog|]. split; [exact Hat|].
  apply Hfate. discriminate.
Defined.

Lemma sweep_stops_at_a_failed_fetch_witness :
  let p := runAllProvisionersOnce fleetDown "aws-provisioner" 0 in
  is_resolved (snd (WorkerType_loadAll fleetDown 0)) = false
  /\ log p = fetchCalls fleetDown 0
  /\ fate p = Rejected "ECONNREFUSED"%string
  /\ settledAt p = 20.
Proof.
  cbv zeta.
  destruct (sweep_stops_at_a_failed_fetch fleetDown "aws-provisioner" 0
              eq_refl) as (Hlog & _ & _).
  split; [reflexivity|]. split; [exact Hlog|]. split; reflexivity.
Defined.

Lemma runs_counts_the_sweeps_started_witness :
  let inputs :=
    [CallRun 0; SweepSettles 0 (Resolved []); DelayElapses 0 1035;
     SweepSettles 0 (Rejected "ECONNREFUSED"%string); DelayElapses 0 2070] in
  let pr := execute false (boot sampleProvisioner) inputs in
  sweepsStarted (done pr) = 3%nat
  /\ runs (__stats (provisioner pr)) = 3%Z.
Proof.
  cbv zeta. split; [reflexivity|].
  exact (runs_counts_the_sweeps_started false sampleProvisioner
           [CallRun 0; SweepSettles 0 (Resolved []); DelayElapses 0 1035;
            SweepSettles 0 (Rejected "ECONNREFUSED"%string);
            DelayElapses 0 2070] eq_refl).
Defined.

Lemma hard_exit_is_scheduled_only_by_a_call_that_threw_witness :
  let pr := execute false (boot givenUp) [CallRun 20000] in
  In (ExitTimer 30000) (done pr)
  /\ exists e, In (Threw e) (calls pr).
Proof.
  cbv zeta.
  assert (Hin : In (ExitTimer 30000)
                  (done (execute false (boot givenUp) [CallRun 20000])))
    by (left; reflexivity).
  split; [exact Hin|].
  exact (proj2 (hard_exit_is_scheduled_only_by_a_call_that_threw false
                  givenUp [CallRun 20000] 30000 Hin)).
Defined.

Lemma lone_run_keeps_the_failure_counter_bounded_witness :
  let inputs := failingSweeps 3 0 in
  let pr := execute false (boot sampleProvisioner) (CallRun 0 :: inputs) in
  Provisioner_new "aws-provisioner" 1000 = Some sampleProvisioner
  /\ consecFail (__stats (provisioner pr)) = 3%Z
  /\ (0 <= consecFail (__stats (provisioner pr)) <= 16)%Z.
Proof.
  cbv zeta. split; [reflexivity|]. split; [reflexivity|].
  exact (proj1 (lone_run_keeps_the_failure_counter_bounded "aws-provisioner"
                  1000 sampleProvisioner false 0 (failingSweeps 3 0) eq_refl
                  eq_refl)).
Defined.

Lemma no_sweep_starts_after_stop_witness :
  let pr :=
    execute false (boot sampleProvisioner) [CallRun 0; CallRun 10] in
  let inputs :=
    [SweepSettles 0 (Rejected "ECONNREFUSED"%string);
     SweepSettles 1 (Rejected Nullish); DelayElapses 0 1035] in
  let pr' := execute false pr (CallStop :: inputs) in
  let quiet :=
    [SweepSettles 0 (Rejected "ECONNREFUSED"%string);
     SweepSettles 1 (Resolved []); DelayElapses 0 1035] in
  done pr = [Sweep 0; Sweep 10]
  /\ done pr' = [Sweep 0; Sweep 10; Pause 1000; ExitTimer 30000]
  /\ calls pr' = [Returned; Threw (TypeError "err.stack")]
  /\ __keepRunning (provisioner pr') = false
  /\ sweepsStarted (done pr') = sweepsStarted (done pr)
  /\ exists k,
       done (execute false pr (CallStop :: quiet))
       = done pr ++ repeat (Pause 1000) k.
Proof.
  cbv zeta. split; [reflexivity|]. split; [reflexivity|].
  split; [reflexivity|].
  destruct (no_sweep_starts_after_stop false
              (execute false (boot sampleProvisioner) [CallRun 0; CallRun 10])
              [SweepSettles 0 (Rejected "ECONNREFUSED"%string);
               SweepSettles 1 (Rejected Nullish); DelayElapses 0 1035]
              eq_refl) as (Hk & Hs & _).
  destruct (no_sweep_starts_after_stop false
              (execute false (boot sampleProvisioner) [CallRun 0; CallRun 10])
              [SweepSettles 0 (Rejected "ECONNREFUSED"%string);
               SweepSettles 1 (Resolved []); DelayElapses 0 1035]
              eq_refl) as (_ & _ & _ & Hq).
  split; [exact Hk|]. split; [exact Hs|]. exact (Hq eq_refl).
Defined.


Lemma sweeps_of_a_lone_run_are_an_interval_apart_witness :
  let pr := runAlone (calm []) "aws-provisioner" false 3 0 sampleProvisioner in
  sweepStarts (done pr) = [0; 1035; 2070; 3105]
  /\ settledAt (runAllProvisionersOnce (calm []) "aws-provisioner" 0) = 35
  /\ spaced 1000 (sweepStarts (done pr)).
Proof.
  cbv zeta. split; [reflexivity|]. split; [reflexivity|].
  exact (proj2 (sweeps_of_a_lone_run_are_an_interval_apart (calm [])
                  "aws-provisioner" false 3 0 sampleProvisioner)).
Defined.

Lemma worker_counter_counts_the_requests_of_its_pool_witness :
  Forall plainNames observed
  /\ counted "worker.b2gtest.spot.submitted.count" (observeAll observed)
     = 2%Z
  /\ counted "worker.gecko.spot.submitted.count" (observeAll observed) = 1%Z.
Proof.
  assert (H : Forall plainNames observed).
  { unfold observed. repeat constructor; discriminate. }
  split; [exact H|]. split.
  - exact (worker_counter_counts_the_requests_of_its_pool "b2gtest" observed
             eq_refl H).
  - exact (worker_counter_counts_the_requests_of_its_pool "gecko" observed
             eq_refl H).
Defined.

Lemma zone_lag_key_holds_the_lags_of_its_zone_witness :
  Forall plainZone observed
  /\ measured "us-west-2.us-west-2a.m3.large.lag" (observeAll observed)
     = [45000; 52000]%Z.
Proof.
  assert (H : Forall plainZone observed).
  { unfold observed. repeat constructor. }
  split; [exact H|].
  exact (zone_lag_key_holds_the_lags_of_its_zone "us-west-2" "us-west-2a"
           "m3.large" observed eq_refl eq_refl H).
Defined.

Lemma sweep_resolves_with_one_result_per_pool_witness :
  let pools := [pool "a" 1 [bidA]; pool "b" (-1) []] in
  let p := runAllProvisionersOnce (calm pools) "aws-provisioner" 0 in
  WorkerType_loadAll (calm pools) 0 = (20, Resolved pools)
  /\ fate p = Resolved [Some "sir-1"%string; None]
  /\ exists results,
       fate p = Resolved results /\ List.length results = 2%nat
       /\ 35 <= settledAt p.
Proof.
  cbv zeta.
  set (pools := [pool "a" 1 [bidA]; pool "b" (-1) []]).
  assert (H0 : WorkerType_loadAll (calm pools) 0 = (20, Resolved pools))
    by reflexivity.
  assert (H1 : awsPricing (calm pools) 0 = (30, Resolved noPricing))
    by reflexivity.
  assert (H2 : awsManager_update (calm pools) 0 = (10, Resolved tt))
    by reflexivity.
  assert (Hm : fate (maintenance (calm pools) (map workerType pools)
                       (N.max (0 + 20) (N.max (0 + 30) (0 + 10))))
               = Resolved
                   [MaintainedDone; MaintainedDone; MaintainedDone;
                    MaintainedKeyPairs
                      [mkPromise [mkEvent (CreateKeyPair "a") 30 35 true] 35
                         (Resolved tt);
                       mkPromise [mkEvent (CreateKeyPair "b") 30 35 true] 35
                         (Resolved tt)]]) by reflexivity.
  assert (Hall : Forall
                   (fun w =>
                      is_resolved
                        (fate (provisionType (calm pools) "aws-provisioner" w
                                 noPricing
                                 (settledAt
                                    (maintenance (calm pools)
                                       (map workerType pools)
                                       (N.max (0 + 20)
                                          (N.max (0 + 30) (0 + 10)))))))
                      = true) pools)
    by (repeat constructor).
  destruct (sweep_resolves_with_one_result_per_pool (calm pools)
              "aws-provisioner" 0 20 pools 30 noPricing 10 _ H0 H1 H2 Hm
              Hall) as (results & Hf & H22 & _ & Hge).
  split; [exact H0|]. split; [reflexivity|].
  exists results. split; [exact Hf|]. split; [|exact Hge].
  symmetry. exact (Forall2_length H22).
Defined.

Lemma reconciliation_waits_for_fetches_and_maintenance_witness :
  let pools := [pool "a" 1 [bidA]; pool "b" (-1) []] in
  let p := runAllProvisionersOnce (calm pools) "aws-provisioner" 0 in
  let asked := mkEvent (PendingTasks "aws-provisioner" "b") 35 50 true in
  let cleaned := mkEvent ZombieKiller 30 35 true in
  In asked (log p) /\ In cleaned (log p)
  /\ ev_end cleaned <= ev_start asked.
Proof.
  cbv zeta.
  set (pools := [pool "a" 1 [bidA]; pool "b" (-1) []]).
  set (p := runAllProvisionersOnce (calm pools) "aws-provisioner" 0).
  assert (Ha : In (mkEvent (PendingTasks "aws-provisioner" "b") 35 50 true)
                 (log p))
    by (vm_compute; repeat (first [left; reflexivity | right])).
  assert (Hc : In (mkEvent ZombieKiller 30 35 true) (log p))
    by (vm_compute; repeat (first [left; reflexivity | right])).
  split; [exact Ha|]. split; [exact Hc|].
  exact (proj2 (reconciliation_waits_for_fetches_and_maintenance
                  (calm pools) "aws-provisioner" 0 _ _ Ha eq_refl Hc
                  eq_refl)).
Defined.

Lemma sweep_outcome_ignores_createKeyPair_witness :
  let pools := [pool "a" 0 []] in
  let p := runAllProvisionersOnce (calm pools) "aws-provisioner" 0 in
  let q := runAllProvisionersOnce (keyPairFails pools) "aws-provisioner" 0 in
  WorkerType_loadAll (calm pools) 0 = (20, Resolved pools)
  /\ In (mkEvent (CreateKeyPair "a") 30 5030 false) (log q)
  /\ fate q = fate p
  /\ settledAt q = settledAt p.
Proof.
  cbv zeta.
  set (pools := [pool "a" 0 []]).
  assert (H0 : WorkerType_loadAll (calm pools) 0 = (20, Resolved pools))
    by reflexivity.
  assert (H1 : awsPricing (calm pools) 0 = (30, Resolved noPricing))
    by reflexivity.
  assert (H2 : awsManager_update (calm pools) 0 = (10, Resolved tt))
    by reflexivity.
  destruct (sweep_outcome_ignores_createKeyPair (calm pools)
              (fun _ _ => (5000, Rejected "InvalidKeyPair.Duplicate"%string))
              "aws-provisioner" 0 20 pools 30 noPricing 10 H0 H1 H2)
    as (Hf & Hat & _).
  split; [exact H0|].
  split; [vm_compute; repeat (first [left; reflexivity | right])|].
  split; [exact Hf | exact Hat].
Defined.

Lemma every_request_carries_the_secret_written_for_it_witness :
  let wt := pool "w" 2 [bidA; bidB] in
  let p := provisionType (calm []) "aws-provisioner" wt noPricing 0 in
  let li :=
    mkLaunchInfo
      (mkLaunchSpec "us-east-1/c4.xlarge" (Some "us-east-1c"%string))
      "token" "payload" ["scope"%string] in
  In (mkEvent (RequestSpotInstance li bidB) 629 729 true) (log p)
  /\ exists s written,
       In (mkEvent (SecretCreate s) written 629 true) (log p)
       /\ secret_token s = "token"%string
       /\ secret_expiration s = written + 2400000.
Proof.
  cbv zeta.
  set (wt := pool "w" 2 [bidA; bidB]).
  set (li := mkLaunchInfo _ _ _ _).
  assert (Hin : In (mkEvent (RequestSpotInstance li bidB) 629 729 true)
                  (log (provisionType (calm []) "aws-provisioner" wt
                          noPricing 0)))
    by (vm_compute; repeat (first [left; reflexivity | right])).
  destruct (every_request_carries_the_secret_written_for_it (calm [])
              "aws-provisioner" wt noPricing 0 li bidB 629 729 true Hin)
    as (_ & _ & _ & s & written & Hs & Htok & _ & _ & _ & Hexp).
  split; [exact Hin|]. exists s, written.
  split; [exact Hs|]. split; [exact Htok | exact Hexp].
Defined.

Lemma pools_are_reconciled_at_the_same_instant_witness :
  let pools := [pool "a" 1 [bidA]; pool "b" (-1) []] in
  let p := runAllProvisionersOnce (calm pools) "aws-provisioner" 0 in
  WorkerType_loadAll (calm pools) 0 = (20, Resolved pools)
  /\ map (fun ev => (ev_call ev, ev_start ev))
       (filter isPendingTasks (log p))
     = [(PendingTasks "aws-provisioner" "a", 35);
        (PendingTasks "aws-provisioner" "b", 35)].
Proof.
  cbv zeta.
  set (pools := [pool "a" 1 [bidA]; pool "b" (-1) []]).
  assert (H0 : WorkerType_loadAll (calm pools) 0 = (20, Resolved pools))
    by reflexivity.
  assert (H1 : awsPricing (calm pools) 0 = (30, Resolved noPricing))
    by reflexivity.
  assert (H2 : awsManager_update (calm pools) 0 = (10, Resolved tt))
    by reflexivity.
  assert (Hm : fate (maintenance (calm pools) (map workerType pools)
                       (N.max (0 + 20) (N.max (0 + 30) (0 + 10))))
               = Resolved
                   [MaintainedDone; MaintainedDone; MaintainedDone;
                    MaintainedKeyPairs
                      [mkPromise [mkEvent (CreateKeyPair "a") 30 35 true] 35
                         (Resolved tt);
                       mkPromise [mkEvent (CreateKeyPair "b") 30 35 true] 35
                         (Resolved tt)]]) by reflexivity.
  split; [exact H0|].
  exact (pools_are_reconciled_at_the_same_instant (calm pools)
           "aws-provisioner" 0 20 pools 30 noPricing 10 _ H0 H1 H2 Hm).
Defined.
